(** * goyang: the reservation client of gytennis.or.kr (src/goyang_client.py)

    A shallow embedding of the client's pure helpers (the curl audit line,
    the order-id extractor, the form serializer, the status check, the
    abort-timer computation) and of its orchestrator [main], followed by
    the properties of the specification that concern them.

    Conventions.
    - A Python [str] is a [string]: the sequence of its UTF-8 code units.
      [lower] and [upper] fold the ASCII letters only; every name the
      client compares against (host, content-length, input, name, value,
      GET) is ASCII, and no letter outside ASCII folds into one of theirs.
    - [None] is [None] of an [option]; a dict whose iteration order matters
      is the list of its items in insertion order; a dict that is only
      looked up is a [gmap].
    - Code that can raise returns in the monad [M] of section Effects: a
      sum of an exception and a value, threaded through the process state
      (standard streams, audit log, the calls made on the browser). *)

From Stdlib Require Import ZArith Floats Ascii String.
From stdpp Require Import base strings gmap list pretty.

Open Scope Z_scope.

(** ** Python strings *)

Module Py.

Definition lower_ascii (c : ascii) : ascii :=
  let n := N_of_ascii c in
  if ((65 <=? n) && (n <=? 90))%N then ascii_of_N (n + 32) else c.

Definition upper_ascii (c : ascii) : ascii :=
  let n := N_of_ascii c in
  if ((97 <=? n) && (n <=? 122))%N then ascii_of_N (n - 32) else c.

(** [str.lower] and [str.upper]. *)
Fixpoint lower (s : string) : string :=
  match s with
  | EmptyString => EmptyString
  | String c s' => String (lower_ascii c) (lower s')
  end.

Fixpoint upper (s : string) : string :=
  match s with
  | EmptyString => EmptyString
  | String c s' => String (upper_ascii c) (upper s')
  end.

(** [sep.join(parts)]. *)
Fixpoint join (sep : string) (parts : list string) : string :=
  match parts with
  | [] => ""
  | [p] => p
  | p :: ps => p +:+ sep +:+ join sep ps
  end.

(** [s.replace(c, by)] for a pattern [c] of one character. *)
Fixpoint replace_char (c : ascii) (by_ : string) (s : string) : string :=
  match s with
  | EmptyString => EmptyString
  | String d s' =>
      if Ascii.eqb d c then by_ +:+ replace_char c by_ s'
      else String d (replace_char c by_ s')
  end.

(** Truth value of a [str]: the empty string is false. *)
Definition truthy (s : string) : bool := negb (String.eqb s "").

(** Truth value of an [Optional[str]]: [None] and the empty string are false. *)
Definition truthy_opt (o : option string) : bool :=
  match o with
  | None => false
  | Some s => truthy s
  end.

(** [s.startswith(p)]. *)
Fixpoint startswith (p s : string) : bool :=
  match p, s with
  | EmptyString, _ => true
  | String a p', String b s' => Ascii.eqb a b && startswith p' s'
  | String _ _, EmptyString => false
  end.

(** [needle in haystack] on strings. *)
Fixpoint contains (needle haystack : string) : bool :=
  startswith needle haystack ||
  match haystack with
  | EmptyString => false
  | String _ rest => contains needle rest
  end.

End Py.

(** ** The audit log line: [quote_for_shell], [build_curl_command] *)

Definition squote : ascii := "039"%char.
Definition dquote : ascii := "034"%char.

(** The replacement text of [quote_for_shell]: quote, double quote, quote,
    double quote, quote. *)
Definition squote_escaped : string :=
  String squote (String dquote (String squote (String dquote (String squote "")))).

Definition quote_for_shell (value : string) : string :=
  String squote (Py.replace_char squote squote_escaped value) +:+ String squote "".

(** The keys of [headers] that the loop skips. *)
Definition dropped_header (lower : string) : bool :=
  String.eqb lower "host" || String.eqb lower "content-length".

(** One turn of the loop [for key, value in headers.items()]. *)
Definition curl_header_step (parts : list string) (item : string * option string)
  : list string :=
  match item with
  | (key, None) => parts
  | (key, Some value) =>
      let lower := Py.lower key in
      if dropped_header lower then parts
      else parts ++ ["-H"; quote_for_shell (key +:+ ": " +:+ value)]
  end.

(** The list [parts] of [build_curl_command] when it is joined. *)
Definition curl_parts (method url : string) (headers : list (string * option string))
    (body : option string) : list string :=
  let parts := ["curl"] in
  let upper_method := Py.upper method in
  let parts :=
    if negb (String.eqb upper_method "GET") then parts ++ ["-X"; upper_method]
    else parts in
  let parts := foldl curl_header_step parts headers in
  let parts :=
    match body with
    | Some b => if Py.truthy b then parts ++ ["--data-binary"; quote_for_shell b] else parts
    | None => parts
    end in
  parts ++ [quote_for_shell url].

Definition build_curl_command (method url : string)
    (headers : list (string * option string)) (body : option string) : string :=
  Py.join " " (curl_parts method url headers body).

(** ** Exceptions

    The exception classes the client raises or catches. [TimeoutException]
    is Selenium's subclass of [WebDriverException]; [TimeoutError] is the
    builtin one. Each carries the text [str(exc)] yields. All of them are
    subclasses of [Exception]. *)

Inductive exn :=
| WebDriverException (msg : string)
| TimeoutException (msg : string)
| RuntimeError (msg : string)
| ValueError (msg : string)
| KeyError (msg : string)
| OverflowError (msg : string)
| OSError (msg : string)
| TimeoutError (msg : string).

Definition exn_str (e : exn) : string :=
  match e with
  | WebDriverException m | TimeoutException m | RuntimeError m | ValueError m
  | KeyError m | OverflowError m | OSError m | TimeoutError m => m
  end.

(** [isinstance(e, WebDriverException)]. *)
Definition is_WebDriverException (e : exn) : bool :=
  match e with
  | WebDriverException _ | TimeoutException _ => true
  | _ => false
  end.

(** [isinstance(e, TimeoutException)]. *)
Definition is_TimeoutException (e : exn) : bool :=
  match e with
  | TimeoutException _ => true
  | _ => false
  end.

(** [isinstance(e, TimeoutError)]. *)
Definition is_TimeoutError (e : exn) : bool :=
  match e with
  | TimeoutError _ => true
  | _ => false
  end.

(** ** The order-id extractor: [OrderIdParser], [extract_order_id]

    [html.parser.HTMLParser] is the tokenizer of Python's library; the
    client supplies one callback, [handle_starttag]. A document is
    represented by the sequence of callbacks that [feed] followed by
    [close] dispatches on it, in document order. The tokenizer reports a
    tag of the form [<input ... />] through [handle_startendtag], whose
    inherited body calls [handle_starttag] and then [handle_endtag]; every
    other callback is inherited and does nothing. An attribute written
    without a value is reported with the value [None]. *)

Definition attr : Type := string * option string.

Inductive html_event :=
| StartTag (tag : string) (attrs : list attr)
| StartEndTag (tag : string) (attrs : list attr)
| EndTag (tag : string)
| Data (text : string)
| Comment (text : string)
| Decl (text : string)
| ProcessingInstruction (text : string).

Definition html_document : Type := list html_event.

Module OrderIdParser.

(** The parser object: its one attribute. *)
Record t := { order_id : option string }.

(** [__init__]. *)
Definition init : t := {| order_id := None |}.

(** [{k.lower(): v for k, v in attrs}]: a later pair replaces an earlier
    one of the same lowered key. *)
Definition normalize (attrs : list attr) : gmap string (option string) :=
  foldl (fun d (kv : attr) => <[Py.lower kv.1 := kv.2]> d) ∅ attrs.

(** [d.get(key)]: [None] when the key is absent. *)
Definition get (d : gmap string (option string)) (key : string) : option string :=
  default None (d !! key).

Definition handle_starttag (self : t) (tag : string) (attrs : list attr) : t :=
  if negb (String.eqb (Py.lower tag) "input") then self
  else
    let normalized := normalize attrs in
    if bool_decide (get normalized "name" = Some "ordr_idxx")
    then {| order_id := get normalized "value" |}
    else self.

(** One callback of the tokenizer. *)
Definition dispatch (self : t) (ev : html_event) : t :=
  match ev with
  | StartTag tag attrs | StartEndTag tag attrs => handle_starttag self tag attrs
  | _ => self
  end.

(** [feed(html)] followed by [close()]. *)
Definition feed (self : t) (html : html_document) : t := foldl dispatch self html.

End OrderIdParser.

Definition extract_order_id (html : html_document) : exn + string :=
  let parser := OrderIdParser.init in
  let parser := OrderIdParser.feed parser html in
  match OrderIdParser.order_id parser with
  | Some id =>
      if Py.truthy id then inr id
      else inl (ValueError "Failed to locate ordr_idxx hidden input in reservation response.")
  | None => inl (ValueError "Failed to locate ordr_idxx hidden input in reservation response.")
  end.

(** [coerce_slot]. *)
Definition coerce_slot (parts : list string) : string :=
  match parts with
  | [p] => p
  | _ => Py.join "|" parts
  end.

(** ** Form serialization: [str], [urllib.parse.quote_plus], [urlencode] *)

(** The value of a form field: a string, or a sequence of strings (an
    array-style field given as a list). *)
Inductive form_value :=
| VStr (s : string)
| VList (items : list string).

Module Urllib.

Definition hex_upper (n : N) : ascii :=
  if (n <? 10)%N then ascii_of_N (48 + n) else ascii_of_N (55 + n).

Definition hex_lower (n : N) : ascii :=
  if (n <? 10)%N then ascii_of_N (48 + n) else ascii_of_N (87 + n).

(** The bytes [quote] never escapes: letters, digits and [_.-~]. *)
Definition always_safe (c : ascii) : bool :=
  let n := N_of_ascii c in
  (((65 <=? n) && (n <=? 90)) || ((97 <=? n) && (n <=? 122)) || ((48 <=? n) && (n <=? 57))
   || (n =? 95) || (n =? 46) || (n =? 45) || (n =? 126))%N.

(** [quote_plus(s)] with the default [safe]: a space becomes [+], every
    other byte outside the safe set becomes [%XX]. *)
Fixpoint quote_plus (s : string) : string :=
  match s with
  | EmptyString => EmptyString
  | String c rest =>
      let n := N_of_ascii c in
      if always_safe c then String c (quote_plus rest)
      else if (n =? 32)%N then String "+" (quote_plus rest)
      else String "%" (String (hex_upper (n / 16)) (String (hex_upper (n mod 16)) (quote_plus rest)))
  end.

(** The pairs [urlencode] appends to its list [l] for one item of the
    query, with [doseq] set: a string gives one pair, a sequence gives one
    pair per element, under the same key. *)
Definition urlencode_item (item : string * form_value) : list string :=
  let k := quote_plus item.1 in
  match item.2 with
  | VStr v => [k +:+ "=" +:+ quote_plus v]
  | VList elts => map (fun elt => k +:+ "=" +:+ quote_plus elt) elts
  end.

(** [urlencode(query, doseq=True)]. *)
Definition urlencode (query : list (string * form_value)) : string :=
  Py.join "&" (flat_map urlencode_item query).

End Urllib.

(** [repr] of a [str]: single quotes unless the text has a single quote
    and no double quote; backslash and the chosen quote are escaped, tab,
    newline and return are written with their letters, other control
    characters in hexadecimal, and everything else is copied. Python also
    writes as an escape a character from U+0080 on that its Unicode
    database does not count as printable (U+00A0, U+200B, an unassigned
    code point); which ones depends on the version of the interpreter, and
    this definition copies them: it is [repr] on text whose characters from
    U+0080 on are printable, and no property below rests on what it gives
    for the others. *)
Definition repr_quote (s : string) : ascii :=
  if Py.contains (String squote "") s && negb (Py.contains (String dquote "") s)
  then dquote else squote.

Fixpoint repr_body (quote : ascii) (s : string) : string :=
  match s with
  | EmptyString => EmptyString
  | String c rest =>
      let n := N_of_ascii c in
      (if Ascii.eqb c quote || (n =? 92)%N then String "\" (String c "")
       else if (n =? 9)%N then "\t"
       else if (n =? 10)%N then "\n"
       else if (n =? 13)%N then "\r"
       else if ((n <? 32) || (n =? 127))%N
            then String "\" (String "x" (String (Urllib.hex_lower (n / 16))
                   (String (Urllib.hex_lower (n mod 16)) "")))
       else String c "") +:+ repr_body quote rest
  end.

Definition py_repr (s : string) : string :=
  let quote := repr_quote s in
  String quote (repr_body quote s) +:+ String quote "".

(** [str(value)] of a form value. *)
Definition py_str (value : form_value) : string :=
  match value with
  | VStr s => s
  | VList items => "[" +:+ Py.join ", " (map py_repr items) +:+ "]"
  end.

(** The body [browser_fetch] sends:
    [payload = {key: str(value) for key, value in data.items()}] and then
    [urlencode(payload, doseq=True)]. *)
Definition fetch_payload (data : list (string * form_value)) : list (string * string) :=
  map (fun kv : string * form_value => (kv.1, py_str kv.2)) data.

Definition fetch_body_string (data : list (string * form_value)) : string :=
  Urllib.urlencode (map (fun kv : string * string => (kv.1, VStr kv.2)) (fetch_payload data)).

(** The body [submit_form_to_window] logs: [urlencode(fields, doseq=True)]
    on the fields as given. *)
Definition submit_form_body_string (fields : list (string * form_value)) : string :=
  Urllib.urlencode fields.

(** ** The abort timer: [max(int(timeout * 1000), 1000)] *)

(** [int(x)] of a float: truncation toward zero; infinities and NaN raise. *)
Definition int_of_float (x : float) : exn + Z :=
  match Prim2SF x with
  | S754_zero _ => inr 0
  | S754_finite s m e =>
      let magnitude := Z.shiftl (Z.pos m) e in
      inr (if s then - magnitude else magnitude)
  | S754_infinity _ => inl (OverflowError "cannot convert float infinity to integer")
  | S754_nan => inl (ValueError "cannot convert float NaN to integer")
  end.

Definition timeout_ms (timeout : float) : exn + Z :=
  match int_of_float (timeout * 1000)%float with
  | inl e => inl e
  | inr n => inr (Z.max n 1000)
  end.

(** ** The result of an in-page request and [ensure_success] *)

(** The dict the fetch script hands back: [status] and [text] on a
    response, [error] on a failure. [fd_status] is [result.get("status")],
    a JavaScript number received as an [int]; [fd_text] is the body, as the
    document it is. *)
Record fetch_dict := {
  fd_status : option Z;
  fd_text : option html_document;
  fd_error : option string;
}.

(** What [execute_async_script] may return. *)
Inductive fetch_reply :=
| ReplyDict (d : fetch_dict)
| ReplyOther.

(** [str(status)]. *)
Definition status_str (status : option Z) : string :=
  match status with
  | None => "None"
  | Some n => pretty n
  end.

(** Truth value of [status]: [None] and [0] are false. *)
Definition status_truthy (status : option Z) : bool :=
  match status with
  | None => false
  | Some n => negb (n =? 0)
  end.

Definition ensure_success (step : string) (result : fetch_dict) : exn + unit :=
  let status := fd_status result in
  if negb (status_truthy status) || (400 <=? default 0 status)
  then inl (RuntimeError (step +:+ " returned HTTP status " +:+ status_str status +:+ "."))
  else inr tt.

(** ** Effects

    The client drives a browser, writes to the standard streams and
    appends to its audit log. The browser is not part of the program: what
    each call on the driver yields is given by a [world] (below), and the
    program's own footprint is recorded in the [process] state. *)

(** A call on the Selenium driver (or on [time]). *)
Inductive call :=
| CLaunchBrowser
| CGet (url : string)
| CCurrentWindowHandle
| CAddCookie (name value : string)
| CFetch (url body_string : string) (timeout_ms : Z)
| CDocumentWrite
| CWaitForElement (name : string)
| CSetPaymentFields (good_name buyr_name good_mny : string)
| CWindowHandles
| CPaymentTrigger
| CSwitchToWindow (handle : string)
| CWindowName
| CCurrentUrl
| CWaitReadyState
| CSleep
| CQuit.

(** A line on the error stream: text, or a [[DEBUG]] line whose JSON
    payload is left out. *)
Inductive output :=
| Line (text : string)
| JsonDump (label : string).

Record process := {
  CURL_LOG_FILE : option string;
  curl_log : list string;
  stderr : list output;
  stdout : list string;
  calls : list call;
}.

Definition initial_process : process :=
  {| CURL_LOG_FILE := None; curl_log := []; stderr := []; stdout := []; calls := [] |}.

(** A computation that may raise. *)
Definition M (A : Type) : Type := process -> (exn + A) * process.

#[global] Instance M_ret : MRet M := fun A (a : A) p => (inr a, p).

#[global] Instance M_bind : MBind M := fun A B (k : A -> M B) (m : M A) p =>
  match m p with
  | (inl e, p') => (inl e, p')
  | (inr a, p') => k a p'
  end.

Definition raise {A} (e : exn) : M A := fun p => (inl e, p).

(** A pure computation that may raise, run in place. *)
Definition lift {A} (r : exn + A) : M A := fun p => (r, p).

(** [try: body except <classes>: handler]. *)
Definition try_except {A} (body : M A) (classes : exn -> bool) (handler : exn -> M A) : M A :=
  fun p =>
    match body p with
    | (inl e, p') => if classes e then handler e p' else (inl e, p')
    | r => r
    end.

(** [try: body finally: cleanup]; the cleanup of [main] raises nothing. *)
Definition try_finally {A} (body : M A) (cleanup : M unit) : M A :=
  fun p =>
    match body p with
    | (r, p') =>
        match cleanup p' with
        | (inl e, p'') => (inl e, p'')
        | (inr _, p'') => (r, p'')
        end
    end.

(** The updates of the process state. *)
Definition log_call (c : call) (p : process) : process :=
  {| CURL_LOG_FILE := CURL_LOG_FILE p; curl_log := curl_log p; stderr := stderr p;
     stdout := stdout p; calls := calls p ++ [c] |}.

Definition log_stderr (o : output) (p : process) : process :=
  {| CURL_LOG_FILE := CURL_LOG_FILE p; curl_log := curl_log p; stderr := stderr p ++ [o];
     stdout := stdout p; calls := calls p |}.

Definition log_stdout (text : string) (p : process) : process :=
  {| CURL_LOG_FILE := CURL_LOG_FILE p; curl_log := curl_log p; stderr := stderr p;
     stdout := stdout p ++ [text]; calls := calls p |}.

Definition log_curl (command : string) (p : process) : process :=
  {| CURL_LOG_FILE := CURL_LOG_FILE p; curl_log := curl_log p ++ [command];
     stderr := stderr p; stdout := stdout p; calls := calls p |}.

Definition set_log_file (path : option string) (p : process) : process :=
  {| CURL_LOG_FILE := path; curl_log := curl_log p; stderr := stderr p;
     stdout := stdout p; calls := calls p |}.

(** A call on the driver: it is recorded, and yields what the world says. *)
Definition driver {A} (c : call) (outcome : exn + A) : M A := fun p =>
  (outcome, log_call c p).

(** A driver call that returns nothing. *)
Definition driver_ (c : call) (outcome : option exn) : M unit :=
  driver c (match outcome with Some e => inl e | None => inr tt end).

(** [print(..., file=sys.stderr)] and [print(...)]. A write to a standard
    stream is taken to succeed: what the stream itself may raise (a closed
    pipe, a character its encoding lacks) is not modelled, and a property
    of a run holds on the runs whose standard streams take what is
    written. *)
Definition eprint (o : output) : M unit := fun p => (inr tt, log_stderr o p).

Definition print (text : string) : M unit := fun p => (inr tt, log_stdout text p).

(** [set_curl_log_file]: [fs] is what creating the directory and the file
    raises, if anything. *)
Definition set_curl_log_file (fs : option exn) (path : string) : M unit := fun p =>
  if negb (Py.truthy path) then (inr tt, set_log_file None p)
  else
    match fs with
    | Some e => (inl e, p)
    | None => (inr tt, set_log_file (Some path) p)
    end.

(** [append_curl_log]: a line is appended when a log file is set. *)
Definition append_curl_log (command : string) : M unit := fun p =>
  match CURL_LOG_FILE p with
  | None => (inr tt, p)
  | Some _ => (inr tt, log_curl command p)
  end.

(** ** [browser_fetch] *)

Definition allowed_headers (headers : list (string * option string))
  : list (string * option string) :=
  filter (fun kv : string * option string => is_Some kv.2) headers.

Definition browser_fetch (reply : exn + fetch_reply) (url : string)
    (data : list (string * form_value)) (headers : list (string * option string))
    (timeout : float) : M fetch_dict :=
  let body_string := fetch_body_string data in
  append_curl_log (build_curl_command "POST" url (allowed_headers headers) (Some body_string));;
  eprint (JsonDump "[DEBUG] browser_fetch request:");;
  timeout_ms ← lift (timeout_ms timeout);
  result ← driver (CFetch url body_string timeout_ms) reply;
  match result with
  | ReplyOther => raise (RuntimeError "Browser fetch returned an unexpected result.")
  | ReplyDict d =>
      match fd_error d with
      | Some err =>
          if Py.truthy err then raise (RuntimeError ("Browser fetch failed: " +:+ err))
          else eprint (JsonDump "[DEBUG] browser_fetch response:");; mret d
      | None => eprint (JsonDump "[DEBUG] browser_fetch response:");; mret d
      end
  end.

(** ** The payment trigger script

    The page the script runs in: what the three global names are bound to,
    and the elements matching
    [a,button,input[type='button'],input[type='submit']] in document
    order. A function or a click either returns or throws; [Some err] is
    the text of the thrown value. *)

Inductive js_value :=
| JsUndefined
| JsNull
| JsObject
| JsFunction (throws : option string).

Record element := {
  onclick : option string;
  click_throws : option string;
}.

Record page := {
  fnPay : js_value;
  fn_pay : js_value;
  pay : js_value;
  clickable : list element;
}.

(** [typeof v === "function"]. *)
Definition is_function (v : js_value) : bool :=
  match v with
  | JsFunction _ => true
  | _ => false
  end.

(** [for (const fn of candidates)]: [None] when the loop falls through. *)
Fixpoint call_candidates (candidates : list js_value) : option string :=
  match candidates with
  | [] => None
  | fn :: rest =>
      match fn with
      | JsFunction None => Some "function"
      | JsFunction (Some err) => Some ("error:" +:+ err)
      | _ => call_candidates rest
      end
  end.

(** [for (const el of clickable)]: [None] when the loop falls through. *)
Fixpoint click_candidates (clickable : list element) : option string :=
  match clickable with
  | [] => None
  | el :: rest =>
      let handler := Py.lower (default "" (onclick el)) in
      if Py.contains "pay" handler || Py.contains "payment" handler then
        match click_throws el with
        | None => Some "click"
        | Some err => Some ("error:" +:+ err)
        end
      else click_candidates rest
  end.

(** The value the script returns. *)
Definition payment_trigger_script (pg : page) : string :=
  let candidates :=
    [ if is_function (fnPay pg) then fnPay pg
      else if is_function (fn_pay pg) then fn_pay pg
      else if is_function (pay pg) then pay pg
      else JsNull ] in
  match call_candidates candidates with
  | Some r => r
  | None =>
      match click_candidates (clickable pg) with
      | Some r => r
      | None => "notfound"
      end
  end.

(** ** The world

    What the browser does at each call site of [main]: an exception
    raised, or the value returned. [w_launch_browser] is the outcome of
    [launch_browser] as a whole (the search for a driver binary is not
    modelled), [w_curl_log_fs] that of creating the audit log file. A
    polling loop runs while [time.time() < deadline]: its field lists what
    the driver shows at each turn the clock allows, a window by its
    handle, the outcome of switching to it, and the outcome of reading its
    name and its URL. *)

Record window_obs := {
  obs_handle : string;
  obs_switch : option exn;
  obs_name : exn + string;
  obs_url : exn + string;
}.

Record world := {
  w_curl_log_fs : option exn;
  w_launch_browser : option exn;
  w_get_browser_url : option exn;
  w_current_window_handle : exn + string;
  w_add_cookie : string -> string -> option exn;
  w_get_browser_url_again : option exn;
  w_login_reply : exn + fetch_reply;
  w_get_post_login_url : option exn;
  w_reservation_reply : exn + fetch_reply;
  w_document_write : option exn;
  w_wait_for_element : option exn;
  w_set_payment_fields : option exn;
  w_existing_handles : exn + list string;
  w_payment_page : exn + page;
  w_popup_rounds : list (exn + list window_obs);
  w_ready_state : option exn;
  w_switch_to_payment : option exn;
  w_order_rounds : list (exn + list window_obs);
  w_restore_handles_payment : exn + list string;
  w_restore_handles_main : exn + list string;
  w_restore_switch : option exn;
  w_quit : option exn;
}.

(** ** [wait_for_payment_window] *)

(** [for handle in current_handles]: the handle the loop stops at. *)
Fixpoint inspect_new_handles (known_handles : list string) (target_name : string)
    (current : list window_obs) : M (option string) :=
  match current with
  | [] => mret None
  | o :: rest =>
      if bool_decide (obs_handle o ∈ known_handles)
      then inspect_new_handles known_handles target_name rest
      else
        switched ← try_except (driver_ (CSwitchToWindow (obs_handle o)) (obs_switch o);; mret true)
                     is_WebDriverException (fun _ => mret false);
        if negb switched then inspect_new_handles known_handles target_name rest
        else
          window_name ← try_except (driver CWindowName (obs_name o))
                          is_WebDriverException (fun _ => mret "");
          current_url ← try_except (driver CCurrentUrl (obs_url o))
                          is_WebDriverException (fun _ => mret "");
          if String.eqb window_name target_name || Py.contains "spay.kcp.co.kr" current_url
          then mret (Some (obs_handle o))
          else inspect_new_handles known_handles target_name rest
  end.

(** [while time.time() < deadline]. *)
Fixpoint poll_payment_window (known_handles : list string) (target_name : string)
    (rounds : list (exn + list window_obs)) : M (option string) :=
  match rounds with
  | [] => mret None
  | round :: later =>
      current_handles ← driver CWindowHandles round;
      target_handle ← inspect_new_handles known_handles target_name current_handles;
      if Py.truthy_opt target_handle then mret target_handle
      else driver_ CSleep None;; poll_payment_window known_handles target_name later
  end.

Definition wait_for_payment_window (w : world) (existing_handles : list string)
    (target_name : string) : M string :=
  target_handle ← poll_payment_window existing_handles target_name (w_popup_rounds w);
  match target_handle with
  | Some handle =>
      if Py.truthy handle then
        try_except (driver_ CWaitReadyState (w_ready_state w))
          is_WebDriverException (fun _ => mret tt);;
        mret handle
      else raise (TimeoutError "Failed to detect payment popup window.")
  | None => raise (TimeoutError "Failed to detect payment popup window.")
  end.

(** ** [await_order_result] *)

(** [for handle in list(driver.window_handles)]. *)
Fixpoint inspect_order_handles (current : list window_obs) : M (option string) :=
  match current with
  | [] => mret None
  | o :: rest =>
      current_url ← try_except
          (driver_ (CSwitchToWindow (obs_handle o)) (obs_switch o);;
           url ← driver CCurrentUrl (obs_url o); mret (Some url))
          is_WebDriverException (fun _ => mret None);
      match current_url with
      | None => inspect_order_handles rest
      | Some url =>
          if Py.contains "ordrRst" url then mret (Some url)
          else inspect_order_handles rest
      end
  end.

(** [while time.time() < deadline and detected_url is None]. *)
Fixpoint poll_order_result (rounds : list (exn + list window_obs)) : M (option string) :=
  match rounds with
  | [] => mret None
  | round :: later =>
      handles ← driver CWindowHandles round;
      detected_url ← inspect_order_handles handles;
      driver_ CSleep None;;
      match detected_url with
      | Some url => mret (Some url)
      | None => poll_order_result later
      end
  end.

(** The block that puts the focus back; a [WebDriverException] in it is
    dropped. *)
Definition restore_focus (w : world) (main_handle payment_handle : option string) : M unit :=
  let payment_open : M bool :=
    if Py.truthy_opt payment_handle then
      handles ← driver CWindowHandles (w_restore_handles_payment w);
      mret (bool_decide (default "" payment_handle ∈ handles))
    else mret false in
  let main_open : M bool :=
    if Py.truthy_opt main_handle then
      handles ← driver CWindowHandles (w_restore_handles_main w);
      mret (bool_decide (default "" main_handle ∈ handles))
    else mret false in
  let pick_target : M (option string) :=
    in_payment ← payment_open;
    if in_payment : bool then mret payment_handle
    else
      in_main ← main_open;
      mret (if in_main : bool then main_handle else None) in
  try_except
    (target ← pick_target;
     if Py.truthy_opt target
     then driver_ (CSwitchToWindow (default "" target)) (w_restore_switch w)
     else mret tt)
    is_WebDriverException (fun _ => mret tt).

Definition await_order_result (w : world) (main_handle payment_handle : option string)
  : M (option string) :=
  detected_url ← poll_order_result (w_order_rounds w);
  restore_focus w main_handle payment_handle;;
  eprint (JsonDump "[DEBUG] await_order_result outcome:");;
  mret detected_url.

(** ** [parse_cookie_header] *)

Module Cookie.

(** [s.split(sep)] for a separator of one character. *)
Fixpoint split (sep : ascii) (s : string) : list string :=
  match s with
  | EmptyString => [EmptyString]
  | String c rest =>
      if Ascii.eqb c sep then EmptyString :: split sep rest
      else
        match split sep rest with
        | [] => [String c EmptyString]
        | chunk :: chunks => String c chunk :: chunks
        end
  end.

(** The characters [str.strip] removes are those [str.isspace] holds of:
    U+0009 to U+000D, U+001C to U+0020, U+0085, U+00A0, U+1680, U+2000 to
    U+200A, U+2028, U+2029, U+202F, U+205F and U+3000. The ASCII ones are
    one code unit each. *)
Definition is_space (c : ascii) : bool :=
  let n := N_of_ascii c in
  (((9 <=? n) && (n <=? 13)) || ((28 <=? n) && (n <=? 32)))%N.

(** U+0085 and U+00A0: the code units C2 85 and C2 A0. *)
Definition is_space2 (a b : ascii) : bool :=
  let a := N_of_ascii a in
  let b := N_of_ascii b in
  ((a =? 194) && ((b =? 133) || (b =? 160)))%N.

(** U+1680 (E1 9A 80), U+2000 to U+200A, U+2028, U+2029 and U+202F
    (E2 80 80 to 8A, A8, A9, AF), U+205F (E2 81 9F), U+3000 (E3 80 80). *)
Definition is_space3 (a b c : ascii) : bool :=
  let a := N_of_ascii a in
  let b := N_of_ascii b in
  let c := N_of_ascii c in
  (((a =? 225) && (b =? 154) && (c =? 128))
   || ((a =? 226) && (b =? 128)
       && (((128 <=? c) && (c <=? 138)) || (c =? 168) || (c =? 169) || (c =? 175)))
   || ((a =? 226) && (b =? 129) && (c =? 159))
   || ((a =? 227) && (b =? 128) && (c =? 128)))%N.

(** The code units [a b] and [a b c] in the order they are met: from the
    start of a string, or [backwards] from its end. *)
Definition space2 (backwards : bool) (a b : ascii) : bool :=
  if backwards then is_space2 b a else is_space2 a b.

Definition space3 (backwards : bool) (a b c : ascii) : bool :=
  if backwards then is_space3 c b a else is_space3 a b c.

(** Whitespace characters are dropped for as long as the string starts
    with one. *)
Fixpoint strip_start (backwards : bool) (s : string) : string :=
  match s with
  | EmptyString => EmptyString
  | String a rest1 =>
      if is_space a then strip_start backwards rest1
      else
        match rest1 with
        | EmptyString => s
        | String b rest2 =>
            if space2 backwards a b then strip_start backwards rest2
            else
              match rest2 with
              | EmptyString => s
              | String c rest3 =>
                  if space3 backwards a b c then strip_start backwards rest3 else s
              end
        end
  end.

Definition lstrip (s : string) : string := strip_start false s.

Definition strip (s : string) : string :=
  String.rev (strip_start true (String.rev (lstrip s))).

(** [token.split("=", 1)] when [token] has an equal sign. *)
Fixpoint split_once (sep : ascii) (s : string) : string * string :=
  match s with
  | EmptyString => (EmptyString, EmptyString)
  | String c rest =>
      if Ascii.eqb c sep then (EmptyString, rest)
      else let '(name, value) := split_once sep rest in (String c name, value)
  end.

(** [d[key] = value] on a dict kept in insertion order. *)
Fixpoint dict_set (d : list (string * string)) (key value : string) : list (string * string) :=
  match d with
  | [] => [(key, value)]
  | (k, v) :: rest =>
      if String.eqb k key then (k, value) :: rest else (k, v) :: dict_set rest key value
  end.

Definition parse_cookie_header (cookie_header : string) : list (string * string) :=
  foldl
    (fun cookies chunk =>
       let token := strip chunk in
       if negb (Py.truthy token) || negb (Py.contains "=" token) then cookies
       else
         let '(name, value) := split_once "=" token in
         dict_set cookies (strip name) (strip value))
    [] (split ";" cookie_header).

End Cookie.

(** ** [main] *)

(** The parsed command line ([argparse.Namespace]). *)
Record args := {
  login_userid : string;
  login_password : string;
  reserve_cvalue : string;
  reserve_date : string;
  reserve_slot_parts : list string;
  reserve_van_code : string;
  cookie : string;
  user_agent : string;
  browser_url : string;
  post_login_url : string;
  chromedriver_path : option string;
  drivers_root : option string;
  keep_browser_open : bool;
  reuse_browser_tab : bool;
  payment_good_name : string;
  payment_buyer_name : string;
  payment_amount : string;
  payment_url : string;
  skip_order_wait : bool;
  order_wait_timeout : Z;
  curl_log_file : string;
  timeout : float;
}.

Definition LOGIN_URL : string := "https://www.gytennis.or.kr/Login".
Definition RESERVATION_URL : string := "https://www.gytennis.or.kr/rsvConfirm".

Definition common_form_accept : string :=
  "text/html,application/xhtml+xml,application/xml;q=0.9,image/avif,image/webp,image/apng,*/*;q=0.8".
Definition origin_host : string := "https://www.gytennis.or.kr".

Definition form_headers (referer : string) : list (string * option string) :=
  [ ("Accept", Some common_form_accept);
    ("Content-Type", Some "application/x-www-form-urlencoded; charset=UTF-8");
    ("Origin", Some origin_host);
    ("Referer", Some referer) ].

(** [for name, value in parse_cookie_header(args.cookie).items()]. *)
Fixpoint add_cookies (w : world) (cookies : list (string * string)) : M unit :=
  match cookies with
  | [] => mret tt
  | (name, value) :: rest =>
      driver_ (CAddCookie name value) (w_add_cookie w name value);;
      add_cookies w rest
  end.

(** What the body of the [try] leaves in the local variables that the
    code after it reads. *)
Record locals := {
  order_id : string;
  order_result_url : option string;
}.

(** The stage that fires the payment trigger and reads its result. *)
Definition trigger_payment (w : world) : M unit :=
  pg ← driver CPaymentTrigger (w_payment_page w);
  let trigger_result := payment_trigger_script pg in
  if Py.startswith "error:" trigger_result
  then raise (RuntimeError ("Failed to trigger payment flow: " +:+ trigger_result))
  else if String.eqb trigger_result "notfound"
  then raise (RuntimeError "Could not locate payment trigger on the reservation page.")
  else mret tt.

(** The inner [try ... except TimeoutError]: the wait for the popup and
    the switch to it. [payment_handle] is bound once the wait returns. *)
Definition await_popup (w : world) (existing_handles : list string) : M (option string) :=
  let handler (exc : exn) : M unit :=
    eprint (Line ("Failed to detect payment popup: " +:+ exn_str exc)) in
  payment_handle ←
    try_except (handle ← wait_for_payment_window w existing_handles "KCPPayPopup"; mret (Some handle))
      is_TimeoutError (fun exc => handler exc;; mret None);
  match payment_handle with
  | Some handle =>
      try_except (driver_ (CSwitchToWindow handle) (w_switch_to_payment w))
        is_TimeoutError handler;;
      mret payment_handle
  | None => mret None
  end.

(** The body of the [try] statement, stage by stage. *)

(** Launch: the session, the first page, the cookies of the command line. *)
Definition launch (w : world) (a : args) : M string :=
  driver_ CLaunchBrowser (w_launch_browser w);;
  driver_ (CGet (browser_url a)) (w_get_browser_url w);;
  main_window_handle ← driver CCurrentWindowHandle (w_current_window_handle w);
  (if Py.truthy (cookie a) then
     add_cookies w (Cookie.parse_cookie_header (cookie a));;
     driver_ (CGet (browser_url a)) (w_get_browser_url_again w)
   else mret tt);;
  mret main_window_handle.

(** Authenticate: the login request, its status check, the page that
    shows the session. *)
Definition authenticate (w : world) (a : args) : M unit :=
  let login_headers := form_headers (browser_url a) in
  let login_payload := [("userid", VStr (login_userid a)); ("passwd", VStr (login_password a))] in
  login_result ← browser_fetch (w_login_reply w) LOGIN_URL login_payload login_headers (timeout a);
  lift (ensure_success "Login request" login_result);;
  driver_ (CGet (post_login_url a)) (w_get_post_login_url w).

(** Reserve: the reservation request, its status check, the HTML of the
    response. *)
Definition reserve (w : world) (a : args) (slot_value : string) : M html_document :=
  let reservation_headers := form_headers (post_login_url a) in
  let reservation_payload :=
    [ ("cvalue", VStr (reserve_cvalue a));
      ("cdate", VStr (reserve_date a));
      ("isvkrr[]", VStr slot_value);
      ("van_code", VStr (reserve_van_code a)) ] in
  reservation_response ←
    browser_fetch (w_reservation_reply w) RESERVATION_URL reservation_payload
      reservation_headers (timeout a);
  lift (ensure_success "Reservation request" reservation_response);;
  match fd_text reservation_response with
  | Some html => mret html
  | None => raise (KeyError "'text'")
  end.

(** RenderReservation and InjectPaymentFields. *)
Definition render_reservation (w : world) (a : args) : M unit :=
  driver_ CDocumentWrite (w_document_write w);;
  try_except (driver_ (CWaitForElement "ordr_idxx") (w_wait_for_element w))
    is_TimeoutException
    (fun _ => eprint (Line "[WARN] 결제 준비 페이지 로드 대기 중 요소를 확인하지 못했습니다."));;
  driver_ (CSetPaymentFields (payment_good_name a) (payment_buyer_name a) (payment_amount a))
    (w_set_payment_fields w).

(** AwaitConfirmation, entered with [--wait-order]. *)
Definition await_confirmation (w : world) (a : args) (main_window_handle : string)
    (payment_handle : option string) : M (option string) :=
  if negb (skip_order_wait a) then
    eprint (Line ("결제 완료 확인 페이지를 기다리는 중입니다 (최대 "
                  +:+ pretty (order_wait_timeout a) +:+ "초)..."));;
    await_order_result w (Some main_window_handle) payment_handle
  else mret None.

Definition workflow (w : world) (a : args) (slot_value : string) : M locals :=
  main_window_handle ← launch w a;
  authenticate w a;;
  reservation_html ← reserve w a slot_value;
  order_id ← lift (extract_order_id reservation_html);
  render_reservation w a;;
  existing_handles ← driver CWindowHandles (w_existing_handles w);
  trigger_payment w;;
  payment_handle ← await_popup w existing_handles;
  order_result_url ← await_confirmation w a main_window_handle payment_handle;
  mret {| order_id := order_id; order_result_url := order_result_url |}.

(** The two [except] clauses: both print and make [main] return 1. *)
Definition on_exception (exc : exn) : M (option locals) :=
  (if is_WebDriverException exc
   then eprint (Line ("Browser automation failed: " +:+ exn_str exc))
   else eprint (Line ("Failed to complete workflow: " +:+ exn_str exc)));;
  mret None.

(** The [finally] clause; [driver] is bound when [launch_browser]
    returned. *)
Definition cleanup (w : world) (a : args) : M unit :=
  if bool_decide (w_launch_browser w = None) && negb (keep_browser_open a)
  then try_except (driver_ CQuit (w_quit w)) (fun _ => true) (fun _ => mret tt)
  else mret tt.

(** The lines printed once the [try] statement is left normally. *)
Definition report (a : args) (l : locals) : M unit :=
  print ("Reservation verified with id '" +:+ order_id l +:+ "'.");;
  print "Verification response status: n/a";;
  print "Payment popup status: triggered";;
  (if negb (skip_order_wait a) then
     match order_result_url l with
     | Some url =>
         if Py.truthy url
         then print ("Final order confirmation detected at '" +:+ url +:+ "'.")
         else print "Timed out waiting for the order confirmation page. 결제창에서 진행이 끝나지 않았다면 계속 진행해 주세요."
     | None =>
         print "Timed out waiting for the order confirmation page. 결제창에서 진행이 끝나지 않았다면 계속 진행해 주세요."
     end
   else mret tt);;
  if keep_browser_open a
  then print "자동화 완료 후에도 브라우저 창을 열어 두었습니다."
  else print "자동화가 끝난 뒤 브라우저 세션을 종료했습니다.".

(** The notice that [--reuse-browser-tab] is ignored. *)
Definition reuse_browser_tab_notice (a : args) : M unit :=
  if reuse_browser_tab a
  then eprint (Line "[INFO] --reuse-browser-tab 옵션은 비활성화되며 결제 팝업은 새 창으로 열립니다.")
  else mret tt.

(** [main], from the parsed arguments on: the exit status it returns.
    What [parse_args] does with a command line it refuses (it leaves the
    program) comes before, and is not part of this definition. *)
Definition main (w : world) (a : args) : M Z :=
  set_curl_log_file (w_curl_log_fs w) (curl_log_file a);;
  reuse_browser_tab_notice a;;
  let slot_value := coerce_slot (reserve_slot_parts a) in
  outcome ←
    try_finally
      (try_except (l ← workflow w a slot_value; mret (Some l)) (fun _ => true) on_exception)
      (cleanup w a);
  match outcome with
  | None => mret 1
  | Some l => report a l;; mret 0
  end.

(** * Vocabulary of the properties *)

(** ** The audit line *)

(** The two arguments a header contributes to the command line. *)
Definition header_args (kv : string * string) : list string :=
  ["-H"; quote_for_shell (kv.1 +:+ ": " +:+ kv.2)].

(** The arguments before the headers and after them. *)
Definition curl_head (method : string) : list string :=
  if String.eqb (Py.upper method) "GET" then ["curl"] else ["curl"; "-X"; Py.upper method].

Definition curl_tail (url : string) (body : option string) : list string :=
  (if Py.truthy_opt body then ["--data-binary"; quote_for_shell (default "" body)] else [])
  ++ [quote_for_shell url].

(** The headers the loop keeps, with their values. *)
Definition kept_headers (headers : list (string * option string)) : list (string * string) :=
  omap (fun kv : string * option string =>
          match kv.2 with
          | Some value => if dropped_header (Py.lower kv.1) then None else Some (kv.1, value)
          | None => None
          end) headers.

(** ** Documents *)

(** The attribute [key] of a start tag: the value of the last attribute
    whose name, in any letter case, is [key]; [Some None] when that
    attribute is written without a value, [None] when there is none. *)
Definition attribute (attrs : list attr) (key : string) : option (option string) :=
  snd <$> last (filter (fun kv : attr => Py.lower kv.1 = key) attrs).

(** The event is a start tag [input], in any letter case, whose attribute
    [name] is exactly [ordr_idxx]. *)
Definition names_order_id (ev : html_event) : bool :=
  match ev with
  | StartTag tag attrs | StartEndTag tag attrs =>
      String.eqb (Py.lower tag) "input"
      && bool_decide (attribute attrs "name" = Some (Some "ordr_idxx"))
  | _ => false
  end.

(** The attribute [value] of a start tag, [None] when it is absent or
    written without a value. *)
Definition value_attr (ev : html_event) : option string :=
  match ev with
  | StartTag _ attrs | StartEndTag _ attrs => mjoin (attribute attrs "value")
  | _ => None
  end.

(** The error [extract_order_id] raises. *)
Definition FieldNotFound : exn :=
  ValueError "Failed to locate ordr_idxx hidden input in reservation response.".

(** Two inputs named [ordr_idxx], the first with the value ABC123:
    [<input type="hidden" name="ordr_idxx" value="ABC123">] followed by
    [<input type="hidden" name="ordr_idxx" value="XYZ789">]. *)
Definition abc123_input : html_event :=
  StartTag "input" [("type", Some "hidden"); ("name", Some "ordr_idxx"); ("value", Some "ABC123")].

Definition two_inputs_doc : html_document :=
  [ StartTag "form" [("name", Some "order_info")];
    abc123_input;
    StartTag "input" [("type", Some "hidden"); ("name", Some "ordr_idxx"); ("value", Some "XYZ789")];
    EndTag "form" ].

(** [<html><Input ID="o" NAME="ordr_idxx" class="x" Value="ABC123"/></html>]. *)
Definition mixed_case_doc : html_document :=
  [ StartTag "html" [];
    StartEndTag "Input" [("ID", Some "o"); ("NAME", Some "ordr_idxx"); ("class", Some "x");
                         ("Value", Some "ABC123")];
    EndTag "html" ].

(** [<input name="ordr_idxx" value="">] and [<input name="ordr_idxx">]. *)
Definition empty_value_doc : html_document :=
  [ Data "reservation"; StartTag "input" [("name", Some "ordr_idxx"); ("value", Some "")] ].

Definition absent_value_doc : html_document :=
  [ StartTag "input" [("name", Some "ordr_idxx")]; Data "reservation" ].

(** A page without the field. *)
Definition no_field_doc : html_document :=
  [ StartTag "html" []; StartTag "input" [("name", Some "userid"); ("value", Some "u")];
    Comment "<input name='ordr_idxx' value='X'>"; EndTag "html" ].


(** ** The status check *)

(** The error [ensure_success] raises for a stage. *)
Definition HttpStatusError (step : string) (status : option Z) : exn :=
  RuntimeError (step +:+ " returned HTTP status " +:+ status_str status +:+ ".").

(** A response whose status is the number 0. *)
Definition status_zero : fetch_dict :=
  {| fd_status := Some 0; fd_text := Some []; fd_error := None |}.

(** ** Form bodies *)

(** One [key=value] pair of a form body. *)
Definition form_pair (key value : string) : string :=
  Urllib.quote_plus key +:+ "=" +:+ Urllib.quote_plus value.

(** An array-style field given two values. *)
Definition two_slots : list (string * form_value) := [("isvkrr[]", VList ["a"; "b"])].

(** ** The payment trigger *)

(** The element's inline click handler has [pay] in it, in any letter
    case. *)
Definition pay_handler (el : element) : bool :=
  Py.contains "pay" (Py.lower (default "" (onclick el))).

(** The result of running a candidate: its tag, or the error it threw. *)
Definition invoked (throws : option string) (tag : string) : string :=
  match throws with
  | None => tag
  | Some err => "error:" +:+ err
  end.

(** A page whose first alias throws while its second would run. *)
Definition throwing_page : page :=
  {| fnPay := JsFunction (Some "TypeError: form is undefined");
     fn_pay := JsFunction None;
     pay := JsUndefined;
     clickable := [ {| onclick := Some "fnPay();"; click_throws := None |} ] |}.


(** ** The stages of a run *)

Definition no_exn (outcome : option exn) : bool :=
  match outcome with
  | None => true
  | Some _ => false
  end.

Definition returned {A} (r : exn + A) : bool :=
  match r with
  | inr _ => true
  | inl _ => false
  end.

(** The audit log target is set without an error. *)
Definition audit_log_ready (w : world) (a : args) : bool :=
  negb (Py.truthy (curl_log_file a)) || no_exn (w_curl_log_fs w).

(** Launch: the session starts, the first page loads, the cookies given
    on the command line are installed. *)
Definition launch_ok (w : world) (a : args) : bool :=
  no_exn (w_launch_browser w)
  && no_exn (w_get_browser_url w)
  && returned (w_current_window_handle w)
  && (negb (Py.truthy (cookie a))
      || (forallb (fun nv : string * string => no_exn (w_add_cookie w nv.1 nv.2))
            (Cookie.parse_cookie_header (cookie a))
          && no_exn (w_get_browser_url_again w))).

(** An in-page request comes back with a response that passes the status
    check of its stage. *)
Definition fetch_ok (reply : exn + fetch_reply) (step : string) : bool :=
  match reply with
  | inr (ReplyDict d) => negb (Py.truthy_opt (fd_error d)) && returned (ensure_success step d)
  | _ => false
  end.

(** The status check of a stage fails on the response received. *)
Definition http_check_fails (reply : exn + fetch_reply) (step : string) : bool :=
  match reply with
  | inr (ReplyDict d) => negb (returned (ensure_success step d))
  | _ => false
  end.

(** Authenticate and Reserve. *)
Definition authenticate_ok (w : world) (a : args) : bool :=
  returned (timeout_ms (timeout a))
  && fetch_ok (w_login_reply w) "Login request"
  && no_exn (w_get_post_login_url w).

Definition reserve_ok (w : world) : bool :=
  fetch_ok (w_reservation_reply w) "Reservation request".

(** The document of the reservation response. *)
Definition reservation_html (w : world) : option html_document :=
  match w_reservation_reply w with
  | inr (ReplyDict d) => fd_text d
  | _ => None
  end.

(** ExtractOrderId. *)
Definition extract_ok (w : world) : bool :=
  match reservation_html w with
  | Some html => returned (extract_order_id html)
  | None => false
  end.

Definition extract_fails (w : world) : bool :=
  match reservation_html w with
  | Some html => negb (returned (extract_order_id html))
  | None => false
  end.

(** RenderReservation and InjectPaymentFields; waiting for the field to
    show may time out. *)
Definition render_ok (w : world) : bool :=
  no_exn (w_document_write w)
  && match w_wait_for_element w with
     | None => true
     | Some e => is_TimeoutException e
     end
  && no_exn (w_set_payment_fields w).

(** TriggerPayment: the script reports a function called or an element
    clicked. *)
Definition triggered (result : string) : bool :=
  String.eqb result "function" || String.eqb result "click".

Definition trigger_ok (w : world) : bool :=
  returned (w_existing_handles w)
  && match w_payment_page w with
     | inr pg => triggered (payment_trigger_script pg)
     | inl _ => false
     end.

(** The trigger is not found, or throws when invoked. *)
Definition trigger_fails (w : world) : bool :=
  match w_payment_page w with
  | inr pg => negb (triggered (payment_trigger_script pg))
  | inl _ => false
  end.

(** AwaitPopup: what [wait_for_payment_window] yields in this world. *)
Definition popup_outcome (w : world) : exn + string :=
  (wait_for_payment_window w (default [] (match w_existing_handles w with
                                          | inr hs => Some hs
                                          | inl _ => None
                                          end)) "KCPPayPopup" initial_process).1.

(** The popup is found and takes the focus (a [TimeoutError] of the switch
    is caught like one of the wait). *)
Definition popup_found (w : world) : bool :=
  returned (popup_outcome w)
  && match w_switch_to_payment w with
     | None => true
     | Some e => is_TimeoutError e
     end.

(** The wait runs out of time. *)
Definition popup_timed_out (w : world) : bool :=
  match popup_outcome w with
  | inl e => is_TimeoutError e
  | inr _ => false
  end.

(** The handle of the payment window after AwaitPopup. *)
Definition payment_handle_of (w : world) : option string :=
  match popup_outcome w with
  | inr handle => Some handle
  | inl _ => None
  end.

(** Every stage from Launch through AwaitPopup succeeds, a popup wait that
    times out included. *)
Definition stages_ok (w : world) (a : args) : bool :=
  launch_ok w a && authenticate_ok w a && reserve_ok w
  && extract_ok w && render_ok w && trigger_ok w
  && (popup_found w || popup_timed_out w).

Definition through_await_popup (w : world) (a : args) : bool :=
  audit_log_ready w a && stages_ok w a.

(** AwaitConfirmation: what [await_order_result] yields in this world. *)
Definition confirmation_outcome (w : world) : exn + option string :=
  (await_order_result w
     (match w_current_window_handle w with inr h => Some h | inl _ => None end)
     (payment_handle_of w) initial_process).1.

(** The confirmation wait is skipped, or ends without an error (on a
    confirmation page or on its deadline). *)
Definition confirmation_ok (w : world) (a : args) : bool :=
  skip_order_wait a || returned (confirmation_outcome w).

(** The body of the [try] statement runs to its end. *)
Definition workflow_ok (w : world) (a : args) : bool :=
  stages_ok w a && confirmation_ok w a.

(** The line [main] logs when the popup is not detected. *)
Definition popup_failure_line (e : exn) : output :=
  Line ("Failed to detect payment popup: " +:+ exn_str e).

(** ** Sample runs *)

(** The reservation page: a form with the hidden field, value ORD1. *)
Definition reservation_page : html_document :=
  [ Decl "DOCTYPE html"; StartTag "html" []; StartTag "form" [("name", Some "order_info")];
    StartTag "input" [("type", Some "hidden"); ("name", Some "ordr_idxx"); ("value", Some "ORD1")];
    StartTag "a" [("href", Some "#"); ("onclick", Some "fnPay();")]; EndTag "a";
    EndTag "form"; EndTag "html" ].

Definition response (status : Z) (html : html_document) : exn + fetch_reply :=
  inr (ReplyDict {| fd_status := Some status; fd_text := Some html; fd_error := None |}).

Definition main_window : window_obs :=
  {| obs_handle := "W1"; obs_switch := None; obs_name := inr "";
     obs_url := inr "https://www.gytennis.or.kr/daily" |}.

Definition popup_window : window_obs :=
  {| obs_handle := "W2"; obs_switch := None; obs_name := inr "KCPPayPopup";
     obs_url := inr "about:blank" |}.

Definition pay_page : page :=
  {| fnPay := JsFunction None; fn_pay := JsUndefined; pay := JsUndefined;
     clickable := [ {| onclick := Some "fnPay();"; click_throws := None |} ] |}.

(** A run in which every stage succeeds and the popup opens at the second
    poll. *)
Definition happy_world : world := {|
  w_curl_log_fs := None;
  w_launch_browser := None;
  w_get_browser_url := None;
  w_current_window_handle := inr "W1";
  w_add_cookie := fun _ _ => None;
  w_get_browser_url_again := None;
  w_login_reply := response 200 [];
  w_get_post_login_url := None;
  w_reservation_reply := response 200 reservation_page;
  w_document_write := None;
  w_wait_for_element := None;
  w_set_payment_fields := None;
  w_existing_handles := inr ["W1"];
  w_payment_page := inr pay_page;
  w_popup_rounds := [inr [main_window]; inr [main_window; popup_window]];
  w_ready_state := None;
  w_switch_to_payment := None;
  w_order_rounds := [];
  w_restore_handles_payment := inr ["W1"; "W2"];
  w_restore_handles_main := inr ["W1"; "W2"];
  w_restore_switch := None;
  w_quit := None;
|}.

(** The same run with other answers of the browser at some call sites. *)
Definition with_popup_rounds (rounds : list (exn + list window_obs)) (w : world) : world := {|
  w_curl_log_fs := w_curl_log_fs w;
  w_launch_browser := w_launch_browser w;
  w_get_browser_url := w_get_browser_url w;
  w_current_window_handle := w_current_window_handle w;
  w_add_cookie := w_add_cookie w;
  w_get_browser_url_again := w_get_browser_url_again w;
  w_login_reply := w_login_reply w;
  w_get_post_login_url := w_get_post_login_url w;
  w_reservation_reply := w_reservation_reply w;
  w_document_write := w_document_write w;
  w_wait_for_element := w_wait_for_element w;
  w_set_payment_fields := w_set_payment_fields w;
  w_existing_handles := w_existing_handles w;
  w_payment_page := w_payment_page w;
  w_popup_rounds := rounds;
  w_ready_state := w_ready_state w;
  w_switch_to_payment := w_switch_to_payment w;
  w_order_rounds := w_order_rounds w;
  w_restore_handles_payment := w_restore_handles_payment w;
  w_restore_handles_main := w_restore_handles_main w;
  w_restore_switch := w_restore_switch w;
  w_quit := w_quit w;
|}.

Definition with_order_rounds (rounds : list (exn + list window_obs)) (w : world) : world := {|
  w_curl_log_fs := w_curl_log_fs w;
  w_launch_browser := w_launch_browser w;
  w_get_browser_url := w_get_browser_url w;
  w_current_window_handle := w_current_window_handle w;
  w_add_cookie := w_add_cookie w;
  w_get_browser_url_again := w_get_browser_url_again w;
  w_login_reply := w_login_reply w;
  w_get_post_login_url := w_get_post_login_url w;
  w_reservation_reply := w_reservation_reply w;
  w_document_write := w_document_write w;
  w_wait_for_element := w_wait_for_element w;
  w_set_payment_fields := w_set_payment_fields w;
  w_existing_handles := w_existing_handles w;
  w_payment_page := w_payment_page w;
  w_popup_rounds := w_popup_rounds w;
  w_ready_state := w_ready_state w;
  w_switch_to_payment := w_switch_to_payment w;
  w_order_rounds := rounds;
  w_restore_handles_payment := w_restore_handles_payment w;
  w_restore_handles_main := w_restore_handles_main w;
  w_restore_switch := w_restore_switch w;
  w_quit := w_quit w;
|}.

Definition with_reservation_reply (reply : exn + fetch_reply) (w : world) : world := {|
  w_curl_log_fs := w_curl_log_fs w;
  w_launch_browser := w_launch_browser w;
  w_get_browser_url := w_get_browser_url w;
  w_current_window_handle := w_current_window_handle w;
  w_add_cookie := w_add_cookie w;
  w_get_browser_url_again := w_get_browser_url_again w;
  w_login_reply := w_login_reply w;
  w_get_post_login_url := w_get_post_login_url w;
  w_reservation_reply := reply;
  w_document_write := w_document_write w;
  w_wait_for_element := w_wait_for_element w;
  w_set_payment_fields := w_set_payment_fields w;
  w_existing_handles := w_existing_handles w;
  w_payment_page := w_payment_page w;
  w_popup_rounds := w_popup_rounds w;
  w_ready_state := w_ready_state w;
  w_switch_to_payment := w_switch_to_payment w;
  w_order_rounds := w_order_rounds w;
  w_restore_handles_payment := w_restore_handles_payment w;
  w_restore_handles_main := w_restore_handles_main w;
  w_restore_switch := w_restore_switch w;
  w_quit := w_quit w;
|}.

(** No window ever opens: the popup wait times out. *)
Definition no_popup_world : world :=
  with_popup_rounds [inr [main_window]; inr [main_window]] happy_world.

(** The browser goes away while the confirmation page is awaited. *)
Definition closed_browser_world : world :=
  with_order_rounds [inl (WebDriverException "disconnected: not connected to DevTools")]
    happy_world.

(** The reservation response has no order id field. *)
Definition no_field_world : world :=
  with_reservation_reply (response 200 no_field_doc) happy_world.

(** The reservation request comes back with the status 500. *)
Definition server_error_world : world :=
  with_reservation_reply (response 500 []) happy_world.

Definition sample_args : args := {|
  login_userid := "user"; login_password := "secret"; reserve_cvalue := "5";
  reserve_date := "2025-10-22";
  reserve_slot_parts := ["2025-10-22"; "5"; "22"; "8"; "4000"];
  reserve_van_code := ""; cookie := "sid=abc; lang = ko"; user_agent := "Mozilla/5.0";
  browser_url := LOGIN_URL; post_login_url := "https://www.gytennis.or.kr/daily";
  chromedriver_path := None; drivers_root := None;
  keep_browser_open := false; reuse_browser_tab := false;
  payment_good_name := "court"; payment_buyer_name := "kim"; payment_amount := "8000";
  payment_url := "https://spay.kcp.co.kr/kcpPaypop.do?encType=";
  skip_order_wait := true; order_wait_timeout := 240;
  curl_log_file := "curl.log"; timeout := 15%float;
|}.

(** The same command line with [--wait-order]. *)
Definition wait_order_args : args := {|
  login_userid := "user"; login_password := "secret"; reserve_cvalue := "5";
  reserve_date := "2025-10-22";
  reserve_slot_parts := ["2025-10-22"; "5"; "22"; "8"; "4000"];
  reserve_van_code := ""; cookie := ""; user_agent := "Mozilla/5.0";
  browser_url := LOGIN_URL; post_login_url := "https://www.gytennis.or.kr/daily";
  chromedriver_path := None; drivers_root := None;
  keep_browser_open := false; reuse_browser_tab := false;
  payment_good_name := "court"; payment_buyer_name := "kim"; payment_amount := "8000";
  payment_url := "https://spay.kcp.co.kr/kcpPaypop.do?encType=";
  skip_order_wait := false; order_wait_timeout := 240;
  curl_log_file := "curl.log"; timeout := 15%float;
|}.


(** ** Specifications of computations *)

(** [hoare P m Q E]: run from a state in [P], the computation [m] returns
    a value and a state in [Q], or raises an exception in a state in [E]. *)
Definition hoare {A} (P : process → Prop) (m : M A)
    (Q : A → process → Prop) (E : exn → process → Prop) : Prop :=
  ∀ p, P p →
    match m p with
    | (inr a, p') => Q a p'
    | (inl e, p') => E e p'
    end.

(** With an invariant [I] of the state: when [m] returns, its value
    satisfies [φ]; when it raises, the exception satisfies [ψ]. *)
Definition spec {A} (I : process → Prop) (m : M A) (φ : A → Prop) (ψ : exn → Prop) : Prop :=
  hoare I m (fun a p => φ a ∧ I p) (fun e p => ψ e ∧ I p).

(** An invariant that every update of the state preserves, the recording
    of a call provided the call is among the [allowed] ones. *)
Class Stable (I : process → Prop) (allowed : call → Prop) := {
  stable_call c p : allowed c → I p → I (log_call c p);
  stable_stderr o p : I p → I (log_stderr o p);
  stable_stdout text p : I p → I (log_stdout text p);
  stable_curl command p : I p → I (log_curl command p);
  stable_file path p : I p → I (set_log_file path p);
}.

(** The result of [m] does not depend on the state it is run from. *)
Definition indep {A} (m : M A) : Prop := ∀ p q, (m p).1 = (m q).1.


(** The invariants used below. *)
#[global] Instance stable_true : Stable (fun _ => True) (fun _ => True).
Proof. by split. Qed.

(** No call [c0] has been made so far. *)
#[global] Instance stable_not_called (c0 : call) :
  Stable (fun p => c0 ∉ calls p) (fun c => c ≠ c0).
Proof.
  split; try done. intros c p Hc Hp. simpl.
  rewrite not_elem_of_app, list_elem_of_singleton. split; [done | congruence].
Qed.

(** The line [o] is on the error stream (if [P] holds). *)
#[global] Instance stable_logged (P : Prop) (o : output) :
  Stable (fun p => P → o ∈ stderr p) (fun _ => True).
Proof.
  split; try done. intros o' p Hp HP. simpl. rewrite elem_of_app. left. auto.
Qed.

(** [m] keeps every invariant that allows every call, and its result does
    not depend on the state. *)
Definition sound {A} (m : M A) : Prop :=
  indep m
  ∧ ∀ (I : process → Prop) (allowed : call → Prop),
      Stable I allowed → (∀ c, allowed c) → spec I m (fun _ => True) (fun _ => True).

(** The result of a computation whose result does not depend on the
    state. *)
Definition result {A} (m : M A) : exn + A := (m initial_process).1.


(** ** The abort timer *)

(** The floor of a finite float, as an integer; [None] for the infinities
    and NaN. *)
Definition float_floor (x : float) : option Z :=
  match Prim2SF x with
  | S754_zero _ => Some 0
  | S754_finite s m e => Some (Z.shiftl (if s then Z.neg m else Z.pos m) e)
  | _ => None
  end.



(** ** Decoding a form body *)

Module UrlDecode.

(** The value of a hexadecimal digit, in either letter case. *)
Definition hex_value (c : ascii) : option N :=
  let n := N_of_ascii c in
  if ((48 <=? n) && (n <=? 57))%N then Some (n - 48)%N
  else if ((65 <=? n) && (n <=? 70))%N then Some (n - 55)%N
  else if ((97 <=? n) && (n <=? 102))%N then Some (n - 87)%N
  else None.

(** [unquote_plus(s)] on the code units: [+] is a space, [%XX] is the
    byte XX, a percent sign not followed by two hexadecimal digits is
    itself. *)
Fixpoint unquote_plus (s : string) : string :=
  match s with
  | EmptyString => EmptyString
  | String c rest =>
      if Ascii.eqb c "+" then String " " (unquote_plus rest)
      else if Ascii.eqb c "%" then
        match rest with
        | String hi (String lo rest') =>
            match hex_value hi, hex_value lo with
            | Some h, Some l => String (ascii_of_N (16 * h + l)) (unquote_plus rest')
            | _, _ => String c (unquote_plus rest)
            end
        | _ => String c (unquote_plus rest)
        end
      else String c (unquote_plus rest)
  end.

(** [parse_qsl(qs, keep_blank_values=True)]: the fields of a form body, in
    order. An empty field is skipped; a field without an equal sign has the
    empty value. *)
Definition parse_field (name_value : string) : option (string * string) :=
  if negb (Py.truthy name_value) then None
  else
    let '(name, value) :=
      if Py.contains "=" name_value then Cookie.split_once "=" name_value
      else (name_value, "") in
    Some (unquote_plus name, unquote_plus value).

Definition parse_qsl (qs : string) : list (string * string) :=
  omap parse_field (Cookie.split "&" qs).

End UrlDecode.

(** Every character of the string satisfies [P]. *)
Fixpoint string_forall (P : ascii → bool) (s : string) : bool :=
  match s with
  | EmptyString => true
  | String c rest => P c && string_forall P rest
  end.

(** The characters of an encoded component: the unreserved ones, the plus
    sign of a space, and the percent sign of an escape. *)
Definition component_char (c : ascii) : bool :=
  Urllib.always_safe c || Ascii.eqb c "+" || Ascii.eqb c "%".

(** The characters of a form body: those of a component, the equal sign
    of a pair and the ampersand between two pairs. *)
Definition body_char (c : ascii) : bool :=
  component_char c || Ascii.eqb c "=" || Ascii.eqb c "&".

(** The pairs a query stands for: a sequence gives one pair per element. *)
Definition query_pairs (query : list (string * form_value)) : list (string * string) :=
  flat_map (fun kv : string * form_value =>
              match kv.2 with
              | VStr v => [(kv.1, v)]
              | VList elts => map (fun elt => (kv.1, elt)) elts
              end) query.


(** ** Reading a command line back

    The quoting rules of the POSIX shell, for the part of its language the
    audit line is written in: words separated by spaces and tabs; a word
    made of unquoted characters, of texts between single quotes, which
    stand for themselves, and of texts between double quotes. Anything
    else (an operator, a newline outside quotes, an expansion, a
    backslash, a pattern character) is outside this part, and makes the
    reading fail; so does a NUL character, which no word of a shell can
    hold. *)

Module Shell.

Inductive mode := Unquoted | InSingle | InDouble.

Definition nul : ascii := "000"%char.

Definition is_blank (c : ascii) : bool :=
  let n := N_of_ascii c in ((n =? 32) || (n =? 9))%N.

(** The characters that stand for themselves outside quotes. *)
Definition is_plain (c : ascii) : bool :=
  let n := N_of_ascii c in
  (((65 <=? n) && (n <=? 90)) || ((97 <=? n) && (n <=? 122)) || ((48 <=? n) && (n <=? 57))
   || (n =? 45) || (n =? 95) || (n =? 46) || (n =? 47) || (n =? 58) || (n =? 44)
   || (n =? 43) || (n =? 64))%N.

(** The characters that keep a meaning between double quotes. *)
Definition is_active (c : ascii) : bool :=
  let n := N_of_ascii c in ((n =? 36) || (n =? 96) || (n =? 92) || (n =? 33))%N.

Definition push (word : option string) (c : ascii) : option string :=
  Some (default "" word +:+ String c "").

(** [word] is the word being read, [None] between two words. *)
Fixpoint read (m : mode) (word : option string) (s : string) : option (list string) :=
  match s with
  | EmptyString =>
      match m with
      | Unquoted => Some (match word with Some w => [w] | None => [] end)
      | _ => None
      end
  | String c rest =>
      if Ascii.eqb c nul then None
      else
        match m with
        | Unquoted =>
            if is_blank c then
              match word with
              | Some w => cons w <$> read Unquoted None rest
              | None => read Unquoted None rest
              end
            else if Ascii.eqb c squote then read InSingle (Some (default "" word)) rest
            else if Ascii.eqb c dquote then read InDouble (Some (default "" word)) rest
            else if is_plain c then read Unquoted (push word c) rest
            else None
        | InSingle =>
            if Ascii.eqb c squote then read Unquoted word rest
            else read InSingle (push word c) rest
        | InDouble =>
            if Ascii.eqb c dquote then read Unquoted word rest
            else if is_active c then None
            else read InDouble (push word c) rest
        end
  end.

(** The words of a command line. *)
Definition words (line : string) : option (list string) := read Unquoted None line.

End Shell.

(** The arguments [curl] is given by the audit line. *)
Definition curl_argv (method url : string) (headers : list (string * option string))
    (body : option string) : list string :=
  (if String.eqb (Py.upper method) "GET" then ["curl"] else ["curl"; "-X"; Py.upper method])
  ++ flat_map (fun kv : string * string => ["-H"; kv.1 +:+ ": " +:+ kv.2]) (kept_headers headers)
  ++ (if Py.truthy_opt body then ["--data-binary"; default "" body] else [])
  ++ [url].

(** A word the shell reads as it is written. *)
Definition plain_word (s : string) : bool :=
  Py.truthy s && string_forall Shell.is_plain s.

(** The shell reads [text] as a part of a word that stands for [value]. *)
Definition reads_as (text value : string) : Prop :=
  ∀ word rest,
    Shell.read Shell.Unquoted word (text +:+ rest)
    = Shell.read Shell.Unquoted (Some (default "" word +:+ value)) rest.

(** ** Cookies *)

(** The string after the whitespace character it starts with, [None] when
    it starts with none. *)
Definition skip_space (backwards : bool) (s : string) : option string :=
  match s with
  | EmptyString => None
  | String a rest1 =>
      if Cookie.is_space a then Some rest1
      else
        match rest1 with
        | EmptyString => None
        | String b rest2 =>
            if Cookie.space2 backwards a b then Some rest2
            else
              match rest2 with
              | EmptyString => None
              | String c rest3 =>
                  if Cookie.space3 backwards a b c then Some rest3 else None
              end
        end
  end.

(** What one chunk of a cookie header contributes: the body of the loop
    of [parse_cookie_header]. *)
Definition cookie_of_chunk (chunk : string) : option (string * string) :=
  let token := Cookie.strip chunk in
  if negb (Py.truthy token) || negb (Py.contains "=" token) then None
  else
    let '(name, value) := Cookie.split_once "=" token in
    Some (Cookie.strip name, Cookie.strip value).

(** The cookies a header names, in the order of the header, duplicates
    included. *)
Definition cookie_entries (cookie_header : string) : list (string * string) :=
  omap cookie_of_chunk (Cookie.split ";" cookie_header).

(** [cookies[name] = value] for an entry. *)
Definition set_cookie (cookies : list (string * string)) (kv : string * string)
  : list (string * string) :=
  Cookie.dict_set cookies kv.1 kv.2.

(** The character [sep] does not occur in the string. *)
Definition lacks (sep : ascii) (s : string) : bool :=
  string_forall (fun c => negb (Ascii.eqb c sep)) s.

(** No name and no value of the headers holds a NUL character. *)
Definition without_nul (headers : list (string * option string)) : bool :=
  forallb (fun kv : string * option string =>
             lacks Shell.nul kv.1 && lacks Shell.nul (default "" kv.2)) headers.

(** ** Windows *)

(** What the loops read of a window: the empty string when the read
    fails. *)
Definition name_seen (o : window_obs) : string :=
  match obs_name o with
  | inr name => name
  | inl _ => ""
  end.

Definition url_seen (o : window_obs) : string :=
  match obs_url o with
  | inr url => url
  | inl _ => ""
  end.

(** The window takes the focus and shows the payment popup: it has the
    name looked for, or a URL of the payment gateway. *)
Definition payment_window (target_name : string) (o : window_obs) : bool :=
  no_exn (obs_switch o)
  && (String.eqb (name_seen o) target_name || Py.contains "spay.kcp.co.kr" (url_seen o)).

(** The failure, if any, is a [WebDriverException]. *)
Definition tolerated (outcome : option exn) : bool :=
  match outcome with
  | None => true
  | Some e => is_WebDriverException e
  end.

Definition failure {A} (r : exn + A) : option exn :=
  match r with
  | inl e => Some e
  | inr _ => None
  end.

(** A window the popup wait passes over: one that was open before, one
    that cannot take the focus, or one that shows no payment popup. *)
Definition passed_over (known_handles : list string) (target_name : string)
    (o : window_obs) : bool :=
  bool_decide (obs_handle o ∈ known_handles)
  || match obs_switch o with
     | Some e => is_WebDriverException e
     | None =>
         tolerated (failure (obs_name o)) && tolerated (failure (obs_url o))
         && negb (payment_window target_name o)
     end.

(** Every turn of a polling loop reads the list of windows, and every
    window of every turn satisfies [P]. *)
Definition every_window (P : window_obs → bool) (rounds : list (exn + list window_obs)) : bool :=
  forallb (fun round : exn + list window_obs =>
             match round with
             | inr current => forallb P current
             | inl _ => false
             end) rounds.

(** The error of [wait_for_payment_window]. *)
Definition PopupTimeout : exn := TimeoutError "Failed to detect payment popup window.".

(** The window shows the confirmation page. *)
Definition confirmation_window (o : window_obs) : bool :=
  no_exn (obs_switch o) && Py.contains "ordrRst" (url_seen o).

(** A window whose failures the confirmation wait passes over. *)
Definition calm_window (o : window_obs) : bool :=
  match obs_switch o with
  | Some e => is_WebDriverException e
  | None => tolerated (failure (obs_url o))
  end.

(** The failures of the block that puts the focus back are
    [WebDriverException]s. *)
Definition restore_calm (w : world) : bool :=
  tolerated (failure (w_restore_handles_payment w))
  && tolerated (failure (w_restore_handles_main w))
  && tolerated (w_restore_switch w).

(** A run in which the confirmation page shows at the second turn of the
    confirmation wait, in a window that cannot take the focus at first. *)
Definition receipt_window : window_obs :=
  {| obs_handle := "W2"; obs_switch := None; obs_name := inr "KCPPayPopup";
     obs_url := inr "https://www.gytennis.or.kr/ordrRst?ordr_idxx=ORD1" |}.

Definition busy_window : window_obs :=
  {| obs_handle := "W2"; obs_switch := Some (WebDriverException "no such window");
     obs_name := inr ""; obs_url := inr "" |}.

Definition confirmed_world : world :=
  with_order_rounds [inr [main_window; busy_window]; inr [main_window; receipt_window]]
    happy_world.

(** ** What a computation leaves behind *)

(** A relation between the state a computation starts from and the state
    it ends in, kept by the recording of an [allowed] call, by a line on
    the error stream, and, for a computation that [logs], by a line of the
    audit log when a log file is set. *)
Class Frame (R : process → process → Prop) (allowed : call → Prop) (logs : Prop) := {
  frame_refl p : R p p;
  frame_trans p q r : R p q → R q r → R p r;
  frame_call c p : allowed c → R p (log_call c p);
  frame_stderr o p : R p (log_stderr o p);
  frame_curl command p : logs → is_Some (CURL_LOG_FILE p) → R p (log_curl command p);
}.

Definition frames {A} (R : process → process → Prop) (m : M A) : Prop :=
  ∀ p, R p (m p).2.

(** From [p] to [q], the audit log target and the standard output are
    unchanged, the audit log has grown, by nothing when no target is set,
    and the calls made are among the [allowed] ones. *)
Definition extends (allowed : call → bool) (p q : process) : Prop :=
  CURL_LOG_FILE q = CURL_LOG_FILE p
  ∧ stdout q = stdout p
  ∧ (∃ lines, curl_log q = curl_log p ++ lines ∧ (CURL_LOG_FILE p = None → lines = []))
  ∧ (∃ made, calls q = calls p ++ made ∧ forallb allowed made = true).

#[global] Instance extends_frame (allowed : call → bool) :
  Frame (extends allowed) (fun c => allowed c = true) True.
Proof.
  split.
  - intros p. split_and!; [done | done | |]; exists []; by rewrite app_nil_r.
  - intros p q r (Hf1 & Ho1 & (l1 & Hl1 & Hn1) & (m1 & Hm1 & Ha1))
                 (Hf2 & Ho2 & (l2 & Hl2 & Hn2) & (m2 & Hm2 & Ha2)).
    split_and!; [congruence | congruence | |].
    + exists (l1 ++ l2). split; [by rewrite Hl2, Hl1, app_assoc|].
      intros Hnone. rewrite Hn1, Hn2; [done | congruence | done].
    + exists (m1 ++ m2). split; [by rewrite Hm2, Hm1, app_assoc|].
      by rewrite forallb_app, Ha1, Ha2.
  - intros c p Hc. split_and!; [done | done | |].
    + exists []. by rewrite app_nil_r.
    + exists [c]. split; [done|]. simpl. by rewrite Hc.
  - intros o p. split_and!; [done | done | |]; exists []; by rewrite app_nil_r.
  - intros command p _ [file Hfile]. split_and!; [done | done | |].
    + exists [command]. split; [done|]. congruence.
    + exists []. by rewrite app_nil_r.
Qed.

(** From [p] to [q], the audit log and its target are unchanged. *)
Definition silent (p q : process) : Prop :=
  curl_log q = curl_log p ∧ CURL_LOG_FILE q = CURL_LOG_FILE p.

#[global] Instance silent_frame : Frame silent (fun c => (fun _ : call => true) c = true) False.
Proof.
  split; try done.
  intros p q r [Hl1 Hf1] [Hl2 Hf2]. split; congruence.
Qed.

(** The calls of each stage of a run. *)
Definition session_call (c : call) : bool :=
  match c with
  | CLaunchBrowser | CGet _ | CCurrentWindowHandle | CAddCookie _ _ => true
  | _ => false
  end.

Definition fetch_call (url : string) (c : call) : bool :=
  match c with
  | CFetch u _ _ => String.eqb u url
  | _ => false
  end.

Definition login_call (c : call) : bool :=
  fetch_call LOGIN_URL c || match c with CGet _ => true | _ => false end.

Definition reserve_call (c : call) : bool := fetch_call RESERVATION_URL c.

Definition page_call (c : call) : bool :=
  match c with
  | CDocumentWrite | CWaitForElement _ | CSetPaymentFields _ _ _ => true
  | _ => false
  end.

Definition trigger_call (c : call) : bool :=
  match c with
  | CWindowHandles | CPaymentTrigger => true
  | _ => false
  end.

Definition window_call (c : call) : bool :=
  match c with
  | CWindowHandles | CSwitchToWindow _ | CWindowName | CCurrentUrl | CWaitReadyState
  | CSleep => true
  | _ => false
  end.

(** The stages of the body of [main], in the order they run. *)
Definition stages : list (call → bool) :=
  [session_call; login_call; reserve_call; page_call; trigger_call; window_call].

(** The calls [made] are those of the stages, stage after stage: a first
    part of calls of the first stage, then a part of calls of the second
    one, and so on; a part may be empty. *)
Fixpoint in_order (stages : list (call → bool)) (made : list call) : Prop :=
  match stages with
  | [] => made = []
  | stage :: later =>
      ∃ first rest, made = first ++ rest ∧ forallb stage first = true ∧ in_order later rest
  end.

(** [m] runs the stages in order, and leaves the audit log target and the
    standard output as they are. *)
Definition staged {A} (stages : list (call → bool)) (m : M A) : Prop :=
  ∀ p,
    extends (fun _ => true) p (m p).2
    ∧ ∃ made, calls (m p).2 = calls p ++ made ∧ in_order stages made.

(** The state the [try] statement of [main] is entered in. *)
Definition entry_state (a : args) (p : process) : process :=
  (reuse_browser_tab_notice a
     (set_log_file (if Py.truthy (curl_log_file a) then Some (curl_log_file a) else None) p)).2.

(** The call of the [finally] clause. *)
Definition quit_calls (w : world) (a : args) : list call :=
  if bool_decide (w_launch_browser w = None) && negb (keep_browser_open a) then [CQuit] else [].

(** The audit lines of the two requests of a run. *)
Definition login_line (a : args) : string :=
  build_curl_command "POST" LOGIN_URL (allowed_headers (form_headers (browser_url a)))
    (Some (fetch_body_string
             [("userid", VStr (login_userid a)); ("passwd", VStr (login_password a))])).

Definition reservation_line (a : args) : string :=
  build_curl_command "POST" RESERVATION_URL (allowed_headers (form_headers (post_login_url a)))
    (Some (fetch_body_string
             [ ("cvalue", VStr (reserve_cvalue a));
               ("cdate", VStr (reserve_date a));
               ("isvkrr[]", VStr (coerce_slot (reserve_slot_parts a)));
               ("van_code", VStr (reserve_van_code a)) ])).

(** The line an [except] clause prints. *)
Definition failure_line (exc : exn) : output :=
  if is_WebDriverException exc
  then Line ("Browser automation failed: " +:+ exn_str exc)
  else Line ("Failed to complete workflow: " +:+ exn_str exc).

(** The lines [main] prints after a run whose body returned. *)
Definition report_lines (a : args) (l : locals) : list string :=
  [ "Reservation verified with id '" +:+ order_id l +:+ "'.";
    "Verification response status: n/a";
    "Payment popup status: triggered" ]
  ++ (if negb (skip_order_wait a) then
        [ if Py.truthy_opt (order_result_url l)
          then "Final order confirmation detected at '" +:+ default "" (order_result_url l) +:+ "'."
          else "Timed out waiting for the order confirmation page. 결제창에서 진행이 끝나지 않았다면 계속 진행해 주세요." ]
      else [])
  ++ [ if keep_browser_open a
       then "자동화 완료 후에도 브라우저 창을 열어 두었습니다."
       else "자동화가 끝난 뒤 브라우저 세션을 종료했습니다." ].

(** A command line without an audit log file, which keeps the browser. *)
Definition quiet_args : args := {|
  login_userid := "user"; login_password := "secret"; reserve_cvalue := "5";
  reserve_date := "2025-10-22";
  reserve_slot_parts := ["2025-10-22"; "5"; "22"; "8"; "4000"];
  reserve_van_code := ""; cookie := ""; user_agent := "Mozilla/5.0";
  browser_url := LOGIN_URL; post_login_url := "https://www.gytennis.or.kr/daily";
  chromedriver_path := None; drivers_root := None;
  keep_browser_open := true; reuse_browser_tab := true;
  payment_good_name := "court"; payment_buyer_name := "kim"; payment_amount := "8000";
  payment_url := "https://spay.kcp.co.kr/kcpPaypop.do?encType=";
  skip_order_wait := true; order_wait_timeout := 240;
  curl_log_file := ""; timeout := 15%float;
|}.

(** The browser cannot be launched. *)
Definition with_launch_browser (outcome : option exn) (w : world) : world := {|
  w_curl_log_fs := w_curl_log_fs w;
  w_launch_browser := outcome;
  w_get_browser_url := w_get_browser_url w;
  w_current_window_handle := w_current_window_handle w;
  w_add_cookie := w_add_cookie w;
  w_get_browser_url_again := w_get_browser_url_again w;
  w_login_reply := w_login_reply w;
  w_get_post_login_url := w_get_post_login_url w;
  w_reservation_reply := w_reservation_reply w;
  w_document_write := w_document_write w;
  w_wait_for_element := w_wait_for_element w;
  w_set_payment_fields := w_set_payment_fields w;
  w_existing_handles := w_existing_handles w;
  w_payment_page := w_payment_page w;
  w_popup_rounds := w_popup_rounds w;
  w_ready_state := w_ready_state w;
  w_switch_to_payment := w_switch_to_payment w;
  w_order_rounds := w_order_rounds w;
  w_restore_handles_payment := w_restore_handles_payment w;
  w_restore_handles_main := w_restore_handles_main w;
  w_restore_switch := w_restore_switch w;
  w_quit := w_quit w;
|}.

Definition no_browser_world : world :=
  with_launch_browser (Some (RuntimeError "ChromeDriver launch failed.")) happy_world.

(** The audit log file cannot be created. *)
Definition with_curl_log_fs (outcome : option exn) (w : world) : world := {|
  w_curl_log_fs := outcome;
  w_launch_browser := w_launch_browser w;
  w_get_browser_url := w_get_browser_url w;
  w_current_window_handle := w_current_window_handle w;
  w_add_cookie := w_add_cookie w;
  w_get_browser_url_again := w_get_browser_url_again w;
  w_login_reply := w_login_reply w;
  w_get_post_login_url := w_get_post_login_url w;
  w_reservation_reply := w_reservation_reply w;
  w_document_write := w_document_write w;
  w_wait_for_element := w_wait_for_element w;
  w_set_payment_fields := w_set_payment_fields w;
  w_existing_handles := w_existing_handles w;
  w_payment_page := w_payment_page w;
  w_popup_rounds := w_popup_rounds w;
  w_ready_state := w_ready_state w;
  w_switch_to_payment := w_switch_to_payment w;
  w_order_rounds := w_order_rounds w;
  w_restore_handles_payment := w_restore_handles_payment w;
  w_restore_handles_main := w_restore_handles_main w;
  w_restore_switch := w_restore_switch w;
  w_quit := w_quit w;
|}.

Definition read_only_world : world :=
  with_curl_log_fs (Some (OSError "[Errno 30] Read-only file system: 'curl.log'")) happy_world.

(** The answers of the browser during the wait for the confirmation page:
    the windows seen at each round, and what restoring the focus meets. *)
Definition with_confirmation_wait (rounds : list (exn + list window_obs))
    (handles_payment handles_main : exn + list string) (switch : option exn)
    (w : world) : world := {|
  w_curl_log_fs := w_curl_log_fs w;
  w_launch_browser := w_launch_browser w;
  w_get_browser_url := w_get_browser_url w;
  w_current_window_handle := w_current_window_handle w;
  w_add_cookie := w_add_cookie w;
  w_get_browser_url_again := w_get_browser_url_again w;
  w_login_reply := w_login_reply w;
  w_get_post_login_url := w_get_post_login_url w;
  w_reservation_reply := w_reservation_reply w;
  w_document_write := w_document_write w;
  w_wait_for_element := w_wait_for_element w;
  w_set_payment_fields := w_set_payment_fields w;
  w_existing_handles := w_existing_handles w;
  w_payment_page := w_payment_page w;
  w_popup_rounds := w_popup_rounds w;
  w_ready_state := w_ready_state w;
  w_switch_to_payment := w_switch_to_payment w;
  w_order_rounds := rounds;
  w_restore_handles_payment := handles_payment;
  w_restore_handles_main := handles_main;
  w_restore_switch := switch;
  w_quit := w_quit w;
|}.

(** * The scheduling form (src/goyang_gui.py)

    [ReservationWindow.schedule_reservation]: the fields of the form are
    turned into the command line of the client, which a timer is set to
    run. The widgets are read once, at the start: the form is the record
    of what they hold. The steps that depend on the platform are given by
    what they raise. *)

Module Gui.

(** [dict[key]] on a dict given by its items: the value of the last item
    with that key. *)
Definition lookup {K V} `{EqDecision K} (d : list (K * V)) (key : K) : option V :=
  snd <$> last (filter (fun kv : K * V => kv.1 = key) d).

Record court := {
  cvalue : string;
  codes : list (Z * Z);
}.

Definition COURT_INFO : list (string * court) :=
  [ ("성사야외", {| cvalue := "5"; codes := map (fun idx => (idx, 16 + idx)) (seqZ 1 8) |});
    ("충장", {| cvalue := "7"; codes := [(1, 28); (2, 29); (3, 30); (4, 31)] |}) ].

Definition PAYMENT_RATES : list (string * list (string * Z)) :=
  [ ("weekday", [("day", 8000); ("night", 10000)]);
    ("weekend", [("day", 10000); ("night", 13000)]) ].

Definition SLOT_OPTIONS : list (string * Z) :=
  [ ("06:00 ~ 08:00", 6); ("08:00 ~ 10:00", 8); ("10:00 ~ 12:00", 10); ("12:00 ~ 14:00", 12);
    ("14:00 ~ 16:00", 14); ("16:00 ~ 18:00", 16); ("18:00 ~ 20:00", 18); ("20:00 ~ 22:00", 20) ].

(** [SLOT_MAP = dict(SLOT_OPTIONS)]. *)
Definition SLOT_MAP : list (string * Z) := SLOT_OPTIONS.

(** [calculate_payment_amount]; [weekday_index] is what [date.weekday]
    gives for the reservation date, Monday being 0. A missing key raises
    [KeyError]. *)
Definition calculate_payment_amount (weekday_index : Z) (is_night : bool) : exn + Z :=
  let period_key := if 5 <=? weekday_index then "weekend" else "weekday" in
  let time_key := if is_night then "night" else "day" in
  match lookup PAYMENT_RATES period_key with
  | None => inl (KeyError (py_repr period_key))
  | Some rates =>
      match lookup rates time_key with
      | None => inl (KeyError (py_repr time_key))
      | Some amount => inr amount
      end
  end.

(** What the widgets hold when the button is clicked; [cdate] is the
    reservation date as [yyyy-MM-dd], [weekday_index] its weekday. *)
Record form := {
  scheduled : bool;
  user_id_text : string;
  password_text : string;
  court_name : string;
  court_number : Z;
  cdate : string;
  weekday_index : Z;
  slot_label : string;
  citizen_checked : bool;
  senior_checked : bool;
}.

(** What the handler asks of the platform, each given by what it raises,
    if anything: the time zone [ZoneInfo("Asia/Seoul")] and the clock, from
    which the delay is computed, between the lookup of the slot and the
    payment amount; and, once the command line is built, the log and the
    timer, which is started with the delay in milliseconds. *)
Record platform := {
  delay_raises : option exn;
  timer_raises : option exn;
}.

(** The arguments handed to the client after [--client], once the timer
    is started; [None] when a warning is shown instead and nothing is
    scheduled. *)
Definition schedule_reservation (pf : platform) (f : form) : exn + option (list string) :=
  if scheduled f then inr None
  else
    let user_id := Cookie.strip (user_id_text f) in
    let password := password_text f in
    if negb (Py.truthy user_id) || negb (Py.truthy password) then inr None
    else
      match lookup COURT_INFO (court_name f) with
      | None => inr None
      | Some court_info =>
          match lookup (codes court_info) (court_number f) with
          | None => inr None
          | Some court_code =>
              match lookup SLOT_MAP (slot_label f) with
              | None => inl (KeyError (py_repr (slot_label f)))
              | Some slot_number =>
                  let is_night := 18 <=? slot_number in
                  match delay_raises pf with
                  | Some e => inl e
                  | None =>
                      match calculate_payment_amount (weekday_index f) is_night with
                      | inl e => inl e
                      | inr payment_amount =>
                          let payment_amount :=
                            if citizen_checked f || senior_checked f
                            then payment_amount `div` 2 else payment_amount in
                          let good_name :=
                            court_name f +:+ " " +:+ pretty (court_number f) +:+ "번 예약" in
                          let reserve_slot_parts :=
                            [ cdate f; cvalue court_info; pretty court_code;
                              pretty slot_number; pretty payment_amount ] in
                          let client_args :=
                            [ "--login-userid"; user_id; "--login-password"; password;
                              "--reserve-cvalue"; cvalue court_info;
                              "--reserve-date"; cdate f;
                              "--reserve-slot" ] ++ reserve_slot_parts
                            ++ [ "--payment-good-name"; good_name;
                                 "--payment-buyer-name"; user_id;
                                 "--payment-amount"; pretty payment_amount ] in
                          match timer_raises pf with
                          | Some e => inl e
                          | None => inr (Some client_args)
                          end
                      end
                  end
              end
          end
      end.

End Gui.

(** The code of a court: [COURT_INFO[name]["codes"][number]]. *)
Definition court_code (name : string) (number : Z) : option Z :=
  info ← Gui.lookup Gui.COURT_INFO name; Gui.lookup (Gui.codes info) number.

(** The rate of a slot: by the day of the week and the hour it starts. *)
Definition rate (weekday_index slot_number : Z) : Z :=
  if 5 <=? weekday_index
  then (if 18 <=? slot_number then 13000 else 10000)
  else (if 18 <=? slot_number then 10000 else 8000).

(** The form is accepted: no run is scheduled yet, the user id is not
    blank, the password is not empty and the court exists. *)
Definition accepted (f : Gui.form) : Prop :=
  Gui.scheduled f = false ∧ Cookie.strip (Gui.user_id_text f) ≠ ""
  ∧ Gui.password_text f ≠ ""
  ∧ is_Some (court_code (Gui.court_name f) (Gui.court_number f)).


Definition short_timer_platform : Gui.platform :=
  {| Gui.delay_raises := None;
     Gui.timer_raises := Some (OverflowError "delay out of range") |}.

(** A form that is scheduled: a weekday evening, with the discount. *)
Definition evening_form : Gui.form := {|
  Gui.scheduled := false;
  Gui.user_id_text := "  kim ";
  Gui.password_text := "secret";
  Gui.court_name := "충장";
  Gui.court_number := 3;
  Gui.cdate := "2025-10-22";
  Gui.weekday_index := 2;
  Gui.slot_label := "18:00 ~ 20:00";
  Gui.citizen_checked := true;
  Gui.senior_checked := false;
|}.


(** * Properties *)

Example build_curl_command_post :
  build_curl_command "post" "https://h/p"
    [("Accept", Some "a/b"); ("HOST", Some "h"); ("Content-Length", Some "3"); ("X", None)]
    (Some "a=1")
  = "curl -X POST -H 'Accept: a/b' --data-binary 'a=1' 'https://h/p'".
Proof. vm_compute. reflexivity. Qed.

Example extract_order_id_one :
  extract_order_id
    [Data "x"; StartTag "INPUT" [("TYPE", Some "hidden"); ("Name", Some "ordr_idxx"); ("VALUE", Some "ABC123")]]
  = inr "ABC123".
Proof. vm_compute. reflexivity. Qed.

(** ** Strings *)

Lemma string_eqb_false (a b : string) : a ≠ b → String.eqb a b = false.
Proof. intros H. apply String.eqb_neq. exact H. Qed.

(** ** The audit line *)

Section Curl.

Lemma curl_header_loop headers : ∀ parts,
  foldl curl_header_step parts headers = parts ++ flat_map header_args (kept_headers headers).
Proof.
  induction headers as [|[key [value|]] headers IH]; intros parts; simpl.
  - by rewrite app_nil_r.
  - rewrite IH. unfold kept_headers; simpl.
    destruct (dropped_header (Py.lower key)); simpl; [done|].
    by rewrite <- app_assoc.
  - apply IH.
Qed.

Lemma kept_headers_spec headers key value :
  (key, value) ∈ kept_headers headers →
  (key, Some value) ∈ headers ∧ dropped_header (Py.lower key) = false.
Proof.
  unfold kept_headers. rewrite list_elem_of_omap.
  intros [[k [v|]] [Hin Hkv]]; simpl in Hkv; [|done].
  destruct (dropped_header (Py.lower k)) eqn:Hd; [done|].
  by simplify_eq.
Qed.

Lemma curl_parts_shape method url headers body :
  curl_parts method url headers body
  = curl_head method ++ flat_map header_args (kept_headers headers) ++ curl_tail url body.
Proof.
  unfold curl_parts, curl_head, curl_tail.
  rewrite curl_header_loop.
  destruct (String.eqb (Py.upper method) "GET"); simpl;
    destruct body as [b|]; simpl; try destruct (Py.truthy b); simpl;
    by rewrite <- ?app_assoc.
Qed.

(** C6. The command line [build_curl_command] produces is [curl], the
    method, one [-H] argument pair per kept header, the body and the
    URL; every header that is serialized is a header of the mapping
    whose lowered name is neither [host] nor [content-length], so such
    keys are skipped in whatever letter case they are given. *)
Theorem build_curl_command_drops_host_and_content_length
    (method url : string) (headers : list (string * option string)) (body : option string) :
  ∃ kept : list (string * string),
    build_curl_command method url headers body
    = Py.join " " (curl_head method ++ flat_map header_args kept ++ curl_tail url body)
    ∧ ∀ key value, (key, value) ∈ kept →
        (key, Some value) ∈ headers
        ∧ Py.lower key ≠ "host" ∧ Py.lower key ≠ "content-length".
Proof.
  exists (kept_headers headers). split.
  - unfold build_curl_command. by rewrite curl_parts_shape.
  - intros key value Hin. apply kept_headers_spec in Hin as [Hin Hd].
    split; [done|]. unfold dropped_header in Hd.
    apply orb_false_iff in Hd as [H1 H2].
    split; intros Heq; rewrite Heq in *; discriminate.
Qed.

End Curl.

(** The converse direction: a header named [host] or [content-length], in
    any letter case, contributes nothing to the loop. *)
Lemma curl_header_step_dropped parts key value :
  Py.lower key = "host" ∨ Py.lower key = "content-length" →
  curl_header_step parts (key, value) = parts.
Proof.
  intros H. unfold curl_header_step. destruct value as [value|]; [|done].
  simpl. by destruct H as [-> | ->].
Qed.

(** ** The order-id extractor *)

Section Extract.

Implicit Types (self : OrderIdParser.t) (ev : html_event) (doc pre post : html_document).

Lemma normalize_snoc (attrs : list attr) (kv : attr) :
  OrderIdParser.normalize (attrs ++ [kv])
  = <[Py.lower kv.1 := kv.2]> (OrderIdParser.normalize attrs).
Proof. unfold OrderIdParser.normalize. by rewrite foldl_app. Qed.

(** The dict comprehension keeps, for each lowered name, the last value. *)
Lemma normalize_lookup (attrs : list attr) (key : string) :
  OrderIdParser.normalize attrs !! key = attribute attrs key.
Proof.
  induction attrs as [|kv attrs IH] using rev_ind.
  - unfold attribute. simpl. apply lookup_empty.
  - rewrite normalize_snoc. unfold attribute in *.
    rewrite filter_app. rewrite filter_cons, filter_nil.
    destruct (decide (Py.lower kv.1 = key)) as [Heq|Hne].
    + rewrite last_snoc. simpl. rewrite <- Heq. apply lookup_insert_eq.
    + rewrite app_nil_r. rewrite lookup_insert_ne by done. apply IH.
Qed.

Lemma get_normalize (attrs : list attr) (key : string) :
  OrderIdParser.get (OrderIdParser.normalize attrs) key = mjoin (attribute attrs key).
Proof.
  unfold OrderIdParser.get. rewrite normalize_lookup.
  by destruct (attribute attrs key) as [[v|]|].
Qed.

Lemma get_name_matches (attrs : list attr) :
  bool_decide (OrderIdParser.get (OrderIdParser.normalize attrs) "name" = Some "ordr_idxx")
  = bool_decide (attribute attrs "name" = Some (Some "ordr_idxx")).
Proof.
  rewrite get_normalize. apply bool_decide_ext.
  destruct (attribute attrs "name") as [[v|]|]; simpl; split; congruence.
Qed.

(** What one callback does to the parser. *)
Lemma dispatch_spec self ev :
  OrderIdParser.dispatch self ev
  = if names_order_id ev then {| OrderIdParser.order_id := value_attr ev |} else self.
Proof.
  destruct ev as [tag attrs|tag attrs| | | | |]; simpl; try done;
    unfold OrderIdParser.handle_starttag;
    rewrite get_name_matches, get_normalize;
    by destruct (String.eqb (Py.lower tag) "input").
Qed.

Lemma feed_app self pre post :
  OrderIdParser.feed self (pre ++ post) = OrderIdParser.feed (OrderIdParser.feed self pre) post.
Proof. apply foldl_app. Qed.

Lemma feed_cons self ev doc :
  OrderIdParser.feed self (ev :: doc) = OrderIdParser.feed (OrderIdParser.dispatch self ev) doc.
Proof. reflexivity. Qed.

Lemma feed_no_match self doc :
  Forall (fun ev => names_order_id ev = false) doc → OrderIdParser.feed self doc = self.
Proof.
  induction 1 as [|ev doc Hev _ IH]; [done|].
  rewrite feed_cons, dispatch_spec, Hev. exact IH.
Qed.

(** The parser ends with the value of the last matching tag. *)
Lemma feed_last_match self pre ev post :
  names_order_id ev = true →
  Forall (fun ev' => names_order_id ev' = false) post →
  OrderIdParser.feed self (pre ++ ev :: post) = {| OrderIdParser.order_id := value_attr ev |}.
Proof.
  intros Hev Hpost.
  rewrite feed_app, feed_cons, dispatch_spec, Hev. by apply feed_no_match.
Qed.

Lemma extract_order_id_last pre ev post :
  names_order_id ev = true →
  Forall (fun ev' => names_order_id ev' = false) post →
  extract_order_id (pre ++ ev :: post)
  = match value_attr ev with
    | Some id => if Py.truthy id then inr id else inl FieldNotFound
    | None => inl FieldNotFound
    end.
Proof.
  intros Hev Hpost. unfold extract_order_id.
  by rewrite (feed_last_match _ _ _ _ Hev Hpost).
Qed.

Lemma extract_order_id_none doc :
  Forall (fun ev => names_order_id ev = false) doc →
  extract_order_id doc = inl FieldNotFound.
Proof. intros H. unfold extract_order_id. by rewrite feed_no_match. Qed.

Lemma truthy_nonempty (s : string) : s ≠ "" → Py.truthy s = true.
Proof. intros H. unfold Py.truthy. by rewrite string_eqb_false. Qed.

(** C2, as amended. When the last input tag named [ordr_idxx] of a
    document carries the value ABC123, [extract_order_id] returns
    ABC123: whatever comes before the tag, whatever the letter case of
    the tag name and of the attribute names, whatever other attributes
    the tag has, and whatever follows it that is not another input
    named [ordr_idxx]. *)
Theorem extract_order_id_abc123 pre ev post :
  names_order_id ev = true →
  value_attr ev = Some "ABC123" →
  Forall (fun ev' => names_order_id ev' = false) post →
  extract_order_id (pre ++ ev :: post) = inr "ABC123".
Proof.
  intros Hev Hval Hpost. by rewrite extract_order_id_last, Hval.
Qed.

(** C8. An input named [ordr_idxx] whose value is empty or absent, when
    it is the one the parser ends on, makes [extract_order_id] raise
    the error of a missing field; and no document makes it return an
    empty order id. *)
Theorem extract_order_id_empty_value_raises pre ev post :
  names_order_id ev = true →
  value_attr ev = None ∨ value_attr ev = Some "" →
  Forall (fun ev' => names_order_id ev' = false) post →
  extract_order_id (pre ++ ev :: post) = inl FieldNotFound
  ∧ extract_order_id (pre ++ ev :: post) = extract_order_id []
  ∧ ∀ doc id, extract_order_id doc = inr id → id ≠ "".
Proof.
  intros Hev Hval Hpost. split_and!.
  - rewrite extract_order_id_last by done. by destruct Hval as [-> | ->].
  - rewrite extract_order_id_last by done. by destruct Hval as [-> | ->].
  - intros doc id. unfold extract_order_id.
    destruct (OrderIdParser.order_id _) as [id'|]; [|done].
    destruct (Py.truthy id') eqn:Ht; [|done].
    intros [= ->] ->. discriminate.
Qed.

(** C9. With more than one input named [ordr_idxx], the value returned
    is that of the last one in document order (when it is not empty):
    each match overwrites the value stored by the matches before it. *)
Theorem extract_order_id_last_input_wins pre first mid final post (id : string) :
  names_order_id first = true →
  names_order_id final = true →
  value_attr final = Some id →
  id ≠ "" →
  Forall (fun ev' => names_order_id ev' = false) post →
  extract_order_id (pre ++ first :: mid ++ final :: post) = inr id.
Proof.
  intros _ Hfinal Hval Hid Hpost.
  replace (pre ++ first :: mid ++ final :: post)
    with ((pre ++ first :: mid) ++ final :: post) by by rewrite <- app_assoc.
  rewrite extract_order_id_last, Hval by done.
  by rewrite truthy_nonempty.
Qed.

End Extract.

Lemma extract_order_id_abc123_witness : extract_order_id mixed_case_doc = inr "ABC123".
Proof.
  apply (extract_order_id_abc123 [StartTag "html" []]
           (StartEndTag "Input" [("ID", Some "o"); ("NAME", Some "ordr_idxx");
                                 ("class", Some "x"); ("Value", Some "ABC123")])
           [EndTag "html"]).
  - reflexivity.
  - reflexivity.
  - repeat constructor.
Defined.

(** As the specification words it, the property fails on a document with two
    such inputs: the first has the value ABC123, the value returned is
    that of the second. *)
Lemma extract_order_id_abc123_not_anywhere :
  abc123_input ∈ two_inputs_doc
  ∧ names_order_id abc123_input = true
  ∧ value_attr abc123_input = Some "ABC123"
  ∧ extract_order_id two_inputs_doc = inr "XYZ789"
  ∧ extract_order_id two_inputs_doc ≠ inr "ABC123".
Proof. split_and!; [| reflexivity .. | discriminate]. unfold two_inputs_doc. set_solver. Qed.

Lemma extract_order_id_empty_value_raises_witness :
  extract_order_id empty_value_doc = inl FieldNotFound
  ∧ extract_order_id absent_value_doc = inl FieldNotFound.
Proof.
  split.
  - apply (extract_order_id_empty_value_raises [Data "reservation"]
             (StartTag "input" [("name", Some "ordr_idxx"); ("value", Some "")]) []).
    + reflexivity.
    + right. reflexivity.
    + constructor.
  - apply (extract_order_id_empty_value_raises []
             (StartTag "input" [("name", Some "ordr_idxx")]) [Data "reservation"]).
    + reflexivity.
    + left. reflexivity.
    + repeat constructor.
Defined.

Lemma extract_order_id_last_input_wins_witness : extract_order_id two_inputs_doc = inr "XYZ789".
Proof.
  apply (extract_order_id_last_input_wins [StartTag "form" [("name", Some "order_info")]]
           abc123_input []
           (StartTag "input" [("type", Some "hidden"); ("name", Some "ordr_idxx");
                              ("value", Some "XYZ789")])
           [EndTag "form"] "XYZ789").
  - reflexivity.
  - reflexivity.
  - reflexivity.
  - discriminate.
  - repeat constructor.
Defined.

(** ** The status check *)

(** C5, as amended. [ensure_success] returns normally exactly when the
    status is present, not zero and below 400; in every other case (the
    status is missing, is the number 0, or is 400 or more) it raises the
    error that names the stage. *)
Theorem ensure_success_spec (step : string) (result : fetch_dict) :
  (ensure_success step result = inr tt
   ↔ ∃ n, fd_status result = Some n ∧ n ≠ 0 ∧ n < 400)
  ∧ (ensure_success step result = inl (HttpStatusError step (fd_status result))
     ↔ fd_status result = None ∨ fd_status result = Some 0
       ∨ ∃ n, fd_status result = Some n ∧ 400 ≤ n).
Proof.
  unfold ensure_success, HttpStatusError.
  destruct (fd_status result) as [n|]; simpl.
  - destruct (Z.eqb_spec n 0) as [->|Hn]; simpl.
    + split; split; try done.
      * intros (n & [= <-] & Hn & _). done.
      * intros _. right. by left.
    + destruct (Z.leb_spec 400 n) as [Hle|Hlt]; split; split; try done.
      * intros (m & [= <-] & _ & Hm). lia.
      * intros _. right. right. by exists n.
      * intros _. exists n. done.
      * intros [|[[= ->]|(m & [= <-] & Hm)]]; [done|done|lia].
  - split; split; try done.
    + intros (n & [=] & _).
    + intros _. by left.
Qed.

(** As the specification words it, the property fails on the status 0: it is present and below
    400, and the check raises. *)
Lemma ensure_success_raises_on_zero :
  fd_status status_zero = Some 0
  ∧ 0 < 400
  ∧ ensure_success "Login request" status_zero
    = inl (RuntimeError "Login request returned HTTP status 0.").
Proof. split_and!; [reflexivity | lia | reflexivity]. Qed.

(** ** Form bodies *)


(** [submit_form_to_window] serializes the same data with its key
    repeated. *)
Example submit_form_body_string_repeats_keys :
  submit_form_body_string two_slots = "isvkrr%5B%5D=a&isvkrr%5B%5D=b".
Proof. reflexivity. Qed.

(** ** The payment trigger *)

Section Trigger.

Lemma prefix_payment_pay (s : string) :
  Py.startswith "payment" s = true → Py.startswith "pay" s = true.
Proof.
  destruct s as [|c1 [|c2 [|c3 s]]]; cbn [Py.startswith]; try done;
    repeat (destruct (Ascii.eqb _ _); cbn [andb]; try done).
Qed.

Lemma contains_payment_pay (s : string) :
  Py.contains "payment" s = true → Py.contains "pay" s = true.
Proof.
  induction s as [|c s IH]; [done|].
  cbn [Py.contains]. intros [Hp | Hrest]%orb_true_iff; apply orb_true_iff.
  - left. by apply prefix_payment_pay.
  - right. by apply IH.
Qed.

(** The test of the loop over the elements is the test for [pay]. *)
Lemma handler_test (el : element) :
  Py.contains "pay" (Py.lower (default "" (onclick el)))
  || Py.contains "payment" (Py.lower (default "" (onclick el)))
  = pay_handler el.
Proof.
  unfold pay_handler.
  destruct (Py.contains "pay" _) eqn:Hpay; [done|]. simpl.
  destruct (Py.contains "payment" _) eqn:Hpayment; [|done].
  apply contains_payment_pay in Hpayment. congruence.
Qed.

Lemma click_candidates_spec (els : list element) :
  click_candidates els
  = (fun el => invoked (click_throws el) "click") <$> List.find pay_handler els.
Proof.
  induction els as [|el els IH]; [done|].
  cbn [click_candidates List.find]. rewrite handler_test.
  destruct (pay_handler el); [|exact IH].
  cbn. destruct (click_throws el); reflexivity.
Qed.

Lemma startswith_error (err : string) : Py.startswith "error:" ("error:" +:+ err) = true.
Proof. by destruct err. Qed.

(** C4, as amended. The script looks, in order, for the first of
    [fnPay], [fn_pay], [pay] that is a function (a name that is not
    bound, or bound to something else, is passed over without an
    error) and, when there is none, for the first clickable element
    whose inline handler contains [pay] in any letter case. The first
    candidate found is the only one tried: the result is [function] or
    [click] when it runs, the error when it throws, and [notfound]
    when no candidate exists. [main] goes on after [function] and
    [click] and raises on the two others. *)
Theorem payment_trigger_dispatch (pg : page) :
  payment_trigger_script pg
  = match List.find is_function [fnPay pg; fn_pay pg; pay pg] with
    | Some (JsFunction throws) => invoked throws "function"
    | _ =>
        match List.find pay_handler (clickable pg) with
        | Some el => invoked (click_throws el) "click"
        | None => "notfound"
        end
    end
  ∧ ∀ (w : world) (p : process), w_payment_page w = inr pg →
      (trigger_payment w p).1
      = if String.eqb (payment_trigger_script pg) "function"
           || String.eqb (payment_trigger_script pg) "click"
        then inr tt
        else if String.eqb (payment_trigger_script pg) "notfound"
        then inl (RuntimeError "Could not locate payment trigger on the reservation page.")
        else inl (RuntimeError ("Failed to trigger payment flow: " +:+ payment_trigger_script pg)).
Proof.
  assert (Hscript : payment_trigger_script pg
    = match List.find is_function [fnPay pg; fn_pay pg; pay pg] with
      | Some (JsFunction throws) => invoked throws "function"
      | _ =>
          match List.find pay_handler (clickable pg) with
          | Some el => invoked (click_throws el) "click"
          | None => "notfound"
          end
      end).
  { unfold payment_trigger_script. rewrite click_candidates_spec.
    destruct (fnPay pg) as [| | |[e1|]], (fn_pay pg) as [| | |[e2|]],
      (pay pg) as [| | |[e3|]]; simpl; try reflexivity;
      by destruct (List.find pay_handler (clickable pg)). }
  split; [exact Hscript|].
  intros w p Hpage. unfold trigger_payment.
  unfold mbind, M_bind, driver. rewrite Hpage. simpl.
  rewrite Hscript.
  destruct (List.find is_function _) as [[| | |[err|]]|];
    try (destruct (List.find pay_handler (clickable pg)) as [el|];
         [destruct (click_throws el) as [err|]|]);
    simpl; try reflexivity; by rewrite ?startswith_error.
Qed.

End Trigger.

(** As the specification words it, the property fails on a page whose first alias throws: the
    second alias is a function that would run, and the script returns the
    error of the first without trying it. *)
Lemma payment_trigger_stops_at_first_throw :
  fnPay throwing_page = JsFunction (Some "TypeError: form is undefined")
  ∧ fn_pay throwing_page = JsFunction None
  ∧ payment_trigger_script throwing_page = "error:TypeError: form is undefined"
  ∧ payment_trigger_script throwing_page ≠ "function".
Proof. split_and!; [reflexivity .. | discriminate]. Qed.
(** ** Rules for specifications *)

Lemma bind_run {A B} (m : M A) (k : A → M B) (p : process) :
  (m ≫= k) p = match m p with
               | (inl e, p') => (inl e, p')
               | (inr a, p') => k a p'
               end.
Proof. reflexivity. Qed.

Section Rules.
Context {I : process → Prop} {allowed : call → Prop} `{!Stable I allowed}.

Lemma spec_ret {A} (a : A) (φ : A → Prop) ψ : φ a → spec I (mret a) φ ψ.
Proof. intros Ha p Hp. by split. Qed.

Lemma spec_raise {A} (e : exn) (φ : A → Prop) (ψ : exn → Prop) : ψ e → spec I (raise e) φ ψ.
Proof. intros He p Hp. by split. Qed.

Lemma spec_bind {A B} (m : M A) (k : A → M B) (φ : A → Prop) (φ' : B → Prop) ψ :
  spec I m φ ψ → (∀ a, φ a → spec I (k a) φ' ψ) → spec I (m ≫= k) φ' ψ.
Proof.
  intros Hm Hk p Hp. rewrite bind_run.
  specialize (Hm p Hp). destruct (m p) as [[e|a] p']; [done|].
  destruct Hm as [Ha Hp']. by apply Hk.
Qed.

Lemma spec_conseq {A} (m : M A) (φ φ' : A → Prop) (ψ ψ' : exn → Prop) :
  spec I m φ ψ → (∀ a, φ a → φ' a) → (∀ e, ψ e → ψ' e) → spec I m φ' ψ'.
Proof.
  intros Hm Hφ Hψ p Hp. specialize (Hm p Hp).
  destruct (m p) as [[e|a] p']; destruct Hm; split; auto.
Qed.

Lemma spec_weaken_exn {A} (m : M A) (φ : A → Prop) (ψ ψ' : exn → Prop) :
  spec I m φ ψ → (∀ e, ψ e → ψ' e) → spec I m φ ψ'.
Proof. intros Hm Hψ. by apply (spec_conseq m φ φ ψ ψ'). Qed.

Lemma spec_lift {A} (r : exn + A) (φ : A → Prop) ψ :
  (∀ a, r = inr a → φ a) → (∀ e, r = inl e → ψ e) → spec I (lift r) φ ψ.
Proof. intros Hr He p Hp. unfold lift. destruct r; split; auto. Qed.

Lemma spec_driver {A} (c : call) (r : exn + A) (φ : A → Prop) ψ :
  allowed c → (∀ a, r = inr a → φ a) → (∀ e, r = inl e → ψ e) → spec I (driver c r) φ ψ.
Proof.
  intros Hc Hr He p Hp. unfold driver.
  destruct r; (split; [auto | by apply stable_call]).
Qed.

Lemma spec_driver_ (c : call) (o : option exn) (φ : unit → Prop) ψ :
  allowed c → (o = None → φ tt) → (∀ e, o = Some e → ψ e) → spec I (driver_ c o) φ ψ.
Proof.
  intros Hc Hr He. unfold driver_. apply spec_driver; [done| |].
  - intros [] Ho. apply Hr. by destruct o.
  - intros e Ho. apply He. destruct o; congruence.
Qed.

Lemma spec_eprint (o : output) (φ : unit → Prop) ψ : φ tt → spec I (eprint o) φ ψ.
Proof. intros Hφ p Hp. split; [done|]. by apply stable_stderr. Qed.

Lemma spec_print (text : string) (φ : unit → Prop) ψ : φ tt → spec I (print text) φ ψ.
Proof. intros Hφ p Hp. split; [done|]. by apply stable_stdout. Qed.

Lemma spec_append_curl_log (command : string) (φ : unit → Prop) ψ :
  φ tt → spec I (append_curl_log command) φ ψ.
Proof.
  intros Hφ p Hp. unfold append_curl_log.
  destruct (CURL_LOG_FILE p); (split; [done|]); [by apply stable_curl | done].
Qed.

Lemma spec_set_curl_log_file (fs : option exn) (path : string) (φ : unit → Prop) ψ :
  φ tt → (∀ e, Py.truthy path = true → fs = Some e → ψ e) →
  spec I (set_curl_log_file fs path) φ ψ.
Proof.
  intros Hφ Hψ p Hp. unfold set_curl_log_file.
  destruct (Py.truthy path); simpl.
  - destruct fs as [e|]; (split; [eauto|]); [done | by apply stable_file].
  - split; [done|]. by apply stable_file.
Qed.

(** [try ... except]: the exceptions of the body that the clause takes go
    to the handler, the others pass. *)
Lemma spec_try_except {A} (body : M A) (classes : exn → bool) (handler : exn → M A)
    (φ : A → Prop) (ψ0 ψ : exn → Prop) :
  spec I body φ ψ0 →
  (∀ e, ψ0 e → classes e = true → spec I (handler e) φ ψ) →
  (∀ e, ψ0 e → classes e = false → ψ e) →
  spec I (try_except body classes handler) φ ψ.
Proof.
  intros Hbody Hh Hpass p Hp. unfold try_except.
  specialize (Hbody p Hp). destruct (body p) as [[e|a] p']; [|done].
  destruct Hbody as [He Hp'].
  destruct (classes e) eqn:Hc; [by apply Hh | split; auto].
Qed.

(** [try ... finally] with a cleanup that raises nothing. *)
Lemma spec_try_finally {A} (body : M A) (cleanup : M unit) (φ : A → Prop) ψ :
  spec I body φ ψ → spec I cleanup (fun _ => True) (fun _ => False) →
  spec I (try_finally body cleanup) φ ψ.
Proof.
  intros Hbody Hc p Hp. unfold try_finally.
  specialize (Hbody p Hp). destruct (body p) as [[e|a] p'].
  - destruct Hbody as [He Hp']. specialize (Hc p' Hp').
    destruct (cleanup p') as [[e'|[]] p'']; [by destruct Hc|]. by destruct Hc.
  - destruct Hbody as [Ha Hp']. specialize (Hc p' Hp').
    destruct (cleanup p') as [[e'|[]] p'']; [by destruct Hc|]. by destruct Hc.
Qed.

End Rules.

(** ** Computations that keep every invariant *)

Section Sound.

Lemma sound_ret {A} (a : A) : sound (mret a : M A).
Proof. split; [done|]. intros I allowed HI Hall. by apply spec_ret. Qed.

Lemma sound_raise {A} (e : exn) : sound (raise e : M A).
Proof. split; [done|]. intros I allowed HI Hall. by apply spec_raise. Qed.

Lemma sound_lift {A} (r : exn + A) : sound (lift r).
Proof. split; [done|]. intros I allowed HI Hall. by apply spec_lift. Qed.

Lemma sound_driver {A} (c : call) (r : exn + A) : sound (driver c r).
Proof. split; [done|]. intros I allowed HI Hall. by apply spec_driver. Qed.

Lemma sound_driver_ (c : call) (o : option exn) : sound (driver_ c o).
Proof. apply sound_driver. Qed.

Lemma sound_eprint (o : output) : sound (eprint o).
Proof. split; [done|]. intros I allowed HI Hall. by apply spec_eprint. Qed.

Lemma sound_bind {A B} (m : M A) (k : A → M B) :
  sound m → (∀ a, sound (k a)) → sound (m ≫= k).
Proof.
  intros [Hm1 Hm2] Hk. split.
  - intros p q. rewrite !bind_run. specialize (Hm1 p q).
    destruct (m p) as [[e|a] p'], (m q) as [[e'|a'] q']; simpl in *; try congruence.
    simplify_eq. apply (Hk a').
  - intros I allowed HI Hall. eapply spec_bind; [by apply (Hm2 I allowed)|].
    intros a _. by apply (proj2 (Hk a) I allowed).
Qed.

Lemma sound_try_except {A} (body : M A) (classes : exn → bool) (handler : exn → M A) :
  sound body → (∀ e, sound (handler e)) → sound (try_except body classes handler).
Proof.
  intros [Hb1 Hb2] Hh. split.
  - intros p q. unfold try_except. specialize (Hb1 p q).
    destruct (body p) as [[e|a] p'], (body q) as [[e'|a'] q']; simpl in *; try congruence.
    simplify_eq. destruct (classes e'); [apply (Hh e') | done].
  - intros I allowed HI Hall.
    eapply spec_try_except; [by apply (Hb2 I allowed) | | done].
    intros e _ _. by apply (proj2 (Hh e) I allowed).
Qed.

(** The result of a sound computation, in any state. *)
Lemma sound_spec {A} (m : M A) (I : process → Prop) (allowed : call → Prop) :
  sound m → Stable I allowed → (∀ c, allowed c) →
  spec I m (fun a => result m = inr a) (fun e => result m = inl e).
Proof.
  intros [Hm1 Hm2] HI Hall p Hp.
  specialize (Hm2 I allowed HI Hall p Hp). specialize (Hm1 p initial_process).
  unfold result. destruct (m p) as [[e|a] p']; simpl in *; destruct Hm2; split; congruence.
Qed.

End Sound.

Create HintDb sound discriminated.
#[global] Hint Resolve sound_ret sound_raise sound_lift sound_driver sound_driver_
  sound_eprint : sound.

Ltac sound_step :=
  first
    [ apply sound_bind; [|intros ?]
    | apply sound_try_except; [|intros ?]
    | solve [eauto with sound] ].

Section Loops.

Lemma inspect_new_handles_sound known_handles target_name current :
  sound (inspect_new_handles known_handles target_name current).
Proof.
  induction current as [|o rest IH]; cbn [inspect_new_handles]; [sound_step|].
  case_bool_decide; [exact IH|].
  repeat sound_step.
  destruct a; cbn [negb]; [|exact IH].
  repeat sound_step.
  destruct (_ || _); [sound_step | exact IH].
Qed.

Lemma poll_payment_window_sound known_handles target_name rounds :
  sound (poll_payment_window known_handles target_name rounds).
Proof.
  induction rounds as [|round later IH]; cbn [poll_payment_window]; [sound_step|].
  sound_step; [sound_step|].
  sound_step; [apply inspect_new_handles_sound|].
  destruct (Py.truthy_opt a0); [sound_step|].
  sound_step; [sound_step | exact IH].
Qed.

Lemma wait_for_payment_window_sound w existing_handles target_name :
  sound (wait_for_payment_window w existing_handles target_name).
Proof.
  unfold wait_for_payment_window.
  sound_step; [apply poll_payment_window_sound|].
  destruct a as [handle|]; [|sound_step].
  destruct (Py.truthy handle); repeat sound_step.
Qed.

Lemma inspect_order_handles_sound current : sound (inspect_order_handles current).
Proof.
  induction current as [|o rest IH]; cbn [inspect_order_handles]; [sound_step|].
  sound_step; [repeat sound_step|].
  destruct a as [url|]; [|exact IH].
  destruct (Py.contains "ordrRst" url); [sound_step | exact IH].
Qed.

Lemma poll_order_result_sound rounds : sound (poll_order_result rounds).
Proof.
  induction rounds as [|round later IH]; cbn [poll_order_result]; [sound_step|].
  sound_step; [sound_step|].
  sound_step; [apply inspect_order_handles_sound|].
  sound_step; [sound_step|].
  destruct a0; [sound_step | exact IH].
Qed.

Lemma restore_focus_sound w main_handle payment_handle :
  sound (restore_focus w main_handle payment_handle).
Proof.
  unfold restore_focus.
  sound_step; [|sound_step].
  sound_step.
  - sound_step.
    + destruct (Py.truthy_opt payment_handle); repeat sound_step.
    + destruct a; [sound_step|].
      sound_step; [|sound_step].
      destruct (Py.truthy_opt main_handle); repeat sound_step.
  - destruct (Py.truthy_opt a); sound_step.
Qed.

Lemma await_order_result_sound w main_handle payment_handle :
  sound (await_order_result w main_handle payment_handle).
Proof.
  unfold await_order_result.
  sound_step; [apply poll_order_result_sound|].
  sound_step; [apply restore_focus_sound|].
  repeat sound_step.
Qed.

End Loops.

(** ** The stages of [main] *)

Section Stages.
Context {I : process → Prop} {allowed : call → Prop} `{!Stable I allowed}.

(** Rules with the strongest condition on the value returned. *)
Lemma spec_driver_sp {A} (c : call) (r : exn + A) (ψ : exn → Prop) :
  allowed c → (∀ e, r = inl e → ψ e) → spec I (driver c r) (fun a => r = inr a) ψ.
Proof. intros Hc He. by apply spec_driver. Qed.

Lemma spec_driver__sp (c : call) (o : option exn) (ψ : exn → Prop) :
  allowed c → (∀ e, o = Some e → ψ e) → spec I (driver_ c o) (fun _ => o = None) ψ.
Proof. intros Hc He. by apply spec_driver_. Qed.

Lemma spec_lift_sp {A} (r : exn + A) (ψ : exn → Prop) :
  (∀ e, r = inl e → ψ e) → spec I (lift r) (fun a => r = inr a) ψ.
Proof. intros He. by apply spec_lift. Qed.

Hypothesis before_trigger : ∀ c, c ≠ CPaymentTrigger → allowed c.

Lemma add_cookies_spec (w : world) (cookies : list (string * string)) :
  spec I (add_cookies w cookies)
    (fun _ => forallb (fun nv : string * string => no_exn (w_add_cookie w nv.1 nv.2)) cookies = true)
    (fun _ => forallb (fun nv : string * string => no_exn (w_add_cookie w nv.1 nv.2)) cookies = false).
Proof.
  induction cookies as [|[name value] cookies IH]; cbn [add_cookies].
  - by apply spec_ret.
  - eapply spec_bind.
    + apply spec_driver__sp; [by apply before_trigger|].
      intros e He. simpl. by rewrite He.
    + intros [] Hnone. eapply spec_conseq; [exact IH | |]; simpl; by rewrite Hnone.
Qed.

Lemma launch_spec (w : world) (a : args) :
  spec I (launch w a)
    (fun handle => launch_ok w a = true ∧ w_current_window_handle w = inr handle)
    (fun _ => launch_ok w a = false).
Proof.
  unfold launch, launch_ok.
  eapply spec_bind.
  { apply spec_driver__sp; [by apply before_trigger|]. intros e He. by rewrite He. }
  intros [] ->.
  eapply spec_bind.
  { apply spec_driver__sp; [by apply before_trigger|]. intros e He. by rewrite He. }
  intros [] ->.
  eapply spec_bind.
  { apply spec_driver_sp; [by apply before_trigger|]. intros e He. by rewrite He. }
  intros handle ->. cbn [no_exn returned andb].
  destruct (Py.truthy (cookie a)); cbn [negb orb].
  - pose proof (add_cookies_spec w (Cookie.parse_cookie_header (cookie a))) as Hcookies.
    set (cookies_ok := forallb _ _) in *.
    eapply spec_bind.
    { eapply spec_bind.
      - refine (spec_conseq _ _ _ _ _ Hcookies (fun _ H => H) _).
        intros _ H. by rewrite H.
      - intros [] Hok.
        apply (spec_driver_ _ _
                 (fun _ => cookies_ok = true ∧ w_get_browser_url_again w = None));
          [by apply before_trigger | done |].
        intros e He. by rewrite Hok, He. }
    intros [] [-> ->]. by apply spec_ret.
  - eapply spec_bind; [by apply (spec_ret tt (fun _ => True))|].
    intros [] _. by apply spec_ret.
Qed.

Lemma browser_fetch_spec (reply : exn + fetch_reply) (url : string)
    (data : list (string * form_value)) (headers : list (string * option string)) (t : float) :
  spec I (browser_fetch reply url data headers t)
    (fun d => returned (timeout_ms t) = true
              ∧ reply = inr (ReplyDict d) ∧ Py.truthy_opt (fd_error d) = false)
    (fun _ => returned (timeout_ms t) = false ∨ ∀ step, fetch_ok reply step = false).
Proof.
  unfold browser_fetch.
  eapply spec_bind; [by apply (spec_append_curl_log _ (fun _ => True))|]. intros [] _.
  eapply spec_bind; [by apply (spec_eprint _ (fun _ => True))|]. intros [] _.
  eapply spec_bind.
  { apply spec_lift_sp. intros e He. left. by rewrite He. }
  intros ms Hms.
  eapply spec_bind.
  { apply spec_driver_sp; [by apply before_trigger|].
    intros e He. right. intros step. by rewrite He. }
  intros [d|] ->.
  - destruct (fd_error d) as [err|] eqn:Herr.
    + destruct (Py.truthy err) eqn:Ht.
      * apply spec_raise. right. intros step. simpl. by rewrite Herr; simpl; rewrite Ht.
      * eapply spec_bind; [by apply (spec_eprint _ (fun _ => True))|]. intros [] _.
        apply spec_ret. rewrite Hms, Herr. simpl. by rewrite Ht.
    + eapply spec_bind; [by apply (spec_eprint _ (fun _ => True))|]. intros [] _.
      apply spec_ret. by rewrite Hms, Herr.
  - apply spec_raise. by right.
Qed.

Lemma authenticate_spec (w : world) (a : args) :
  spec I (authenticate w a)
    (fun _ => authenticate_ok w a = true) (fun _ => authenticate_ok w a = false).
Proof.
  unfold authenticate, authenticate_ok.
  eapply spec_bind.
  { eapply spec_weaken_exn; [apply browser_fetch_spec|].
    intros _ [-> | ->]; [done | by rewrite andb_false_r]. }
  intros d (-> & -> & Herr). simpl. rewrite Herr. simpl.
  eapply spec_bind.
  { apply spec_lift_sp. intros e He. by rewrite He. }
  intros [] ->. simpl.
  apply spec_driver_; [by apply before_trigger | by intros -> |].
  intros e He. by rewrite He.
Qed.

Lemma reserve_spec (w : world) (a : args) (slot_value : string) :
  spec I (reserve w a slot_value)
    (fun html => reserve_ok w = true ∧ reservation_html w = Some html)
    (fun _ => returned (timeout_ms (timeout a)) = false
              ∨ reserve_ok w = false ∨ reservation_html w = None).
Proof.
  unfold reserve, reserve_ok, reservation_html.
  eapply spec_bind.
  { eapply spec_weaken_exn; [apply browser_fetch_spec|].
    intros _ [H | H]; [by left | right; by left]. }
  intros d (_ & -> & Herr). simpl. rewrite Herr. simpl.
  eapply spec_bind.
  { apply spec_lift_sp. intros e He. right. left. by rewrite He. }
  intros [] ->. simpl.
  destruct (fd_text d) as [html|].
  - by apply spec_ret.
  - apply spec_raise. right. by right.
Qed.

Lemma render_reservation_spec (w : world) (a : args) :
  spec I (render_reservation w a) (fun _ => render_ok w = true) (fun _ => render_ok w = false).
Proof.
  unfold render_reservation, render_ok.
  eapply spec_bind.
  { apply spec_driver__sp; [by apply before_trigger|]. intros e He. by rewrite He. }
  intros [] ->. simpl.
  eapply spec_bind.
  { eapply (spec_try_except _ _ _
              (fun _ => match w_wait_for_element w with
                        | None => true
                        | Some e => is_TimeoutException e
                        end = true)
              (fun e => w_wait_for_element w = Some e)).
    - apply spec_driver_; [by apply before_trigger | by intros -> | done].
    - intros e -> He. by apply spec_eprint.
    - intros e He Hc. by rewrite He, Hc. }
  intros [] ->. simpl.
  apply spec_driver_; [by apply before_trigger | by intros -> |].
  intros e He. by rewrite He.
Qed.

End Stages.

Section LaterStages.
Context {I : process → Prop} {allowed : call → Prop} `{!Stable I allowed}.
Hypothesis every_call : ∀ c, allowed c.

Lemma error_not_triggered (result : string) :
  Py.startswith "error:" result = true → triggered result = false.
Proof.
  destruct result as [|c result]; [done|]. cbn [Py.startswith].
  intros [Hc _]%andb_true_iff. apply Ascii.eqb_eq in Hc. by subst c.
Qed.

(** The four shapes of the value the script returns. *)
Lemma payment_trigger_script_cases (pg : page) :
  payment_trigger_script pg = "function" ∨ payment_trigger_script pg = "click"
  ∨ payment_trigger_script pg = "notfound"
  ∨ ∃ err, payment_trigger_script pg = "error:" +:+ err.
Proof.
  unfold payment_trigger_script. rewrite click_candidates_spec.
  destruct (fnPay pg) as [| | |[e1|]], (fn_pay pg) as [| | |[e2|]],
    (pay pg) as [| | |[e3|]]; simpl; eauto;
    destruct (List.find pay_handler (clickable pg)) as [el|]; simpl; eauto;
    destruct (click_throws el); simpl; eauto.
Qed.

Lemma trigger_payment_spec (w : world) :
  spec I (trigger_payment w)
    (fun _ => match w_payment_page w with
              | inr pg => triggered (payment_trigger_script pg)
              | inl _ => false
              end = true)
    (fun _ => match w_payment_page w with
              | inr pg => triggered (payment_trigger_script pg)
              | inl _ => false
              end = false).
Proof.
  unfold trigger_payment.
  eapply spec_bind.
  { apply spec_driver_sp; [done|]. intros e He. by rewrite He. }
  intros pg ->.
  destruct (Py.startswith "error:" (payment_trigger_script pg)) eqn:Herr.
  { apply spec_raise. by apply error_not_triggered. }
  destruct (String.eqb (payment_trigger_script pg) "notfound") eqn:Hnf.
  { apply spec_raise. apply String.eqb_eq in Hnf. by rewrite Hnf. }
  apply spec_ret.
  destruct (payment_trigger_script_cases pg) as [H|[H|[H|[err H]]]]; by rewrite H in *.
Qed.

Lemma popup_outcome_result (w : world) (existing_handles : list string) :
  w_existing_handles w = inr existing_handles →
  popup_outcome w = result (wait_for_payment_window w existing_handles "KCPPayPopup").
Proof. intros H. unfold popup_outcome. by rewrite H. Qed.

Lemma await_popup_spec (w : world) (existing_handles : list string) :
  w_existing_handles w = inr existing_handles →
  spec I (await_popup w existing_handles)
    (fun payment_handle =>
       popup_found w || popup_timed_out w = true ∧ payment_handle = payment_handle_of w)
    (fun _ => popup_found w || popup_timed_out w = false).
Proof.
  intros Hexisting. unfold await_popup, popup_found, popup_timed_out, payment_handle_of.
  rewrite (popup_outcome_result w _ Hexisting).
  set (wait := wait_for_payment_window w existing_handles "KCPPayPopup").
  eapply spec_bind.
  { apply (spec_try_except _ _ _
             (fun payment_handle =>
                match payment_handle with
                | Some handle => result wait = inr handle
                | None => ∃ e, result wait = inl e ∧ is_TimeoutError e = true
                end)
             (fun e => result wait = inl e)).
    - eapply spec_bind.
      + apply (sound_spec _ I allowed); [apply wait_for_payment_window_sound | done ..].
      + intros handle Hh. by apply spec_ret.
    - intros e He Hc. eapply spec_bind; [by apply (spec_eprint _ (fun _ => True))|].
      intros [] _. apply spec_ret. eauto.
    - intros e He Hc. rewrite He. simpl. exact Hc. }
  intros [handle|].
  - intros ->. simpl.
    eapply spec_bind.
    { apply (spec_try_except _ _ _
               (fun _ => match w_switch_to_payment w with
                         | None => true
                         | Some e => is_TimeoutError e
                         end = true)
               (fun e => w_switch_to_payment w = Some e)).
      - apply spec_driver_; [done | by intros -> | done].
      - intros e -> He. by apply spec_eprint.
      - intros e He Hc. rewrite He. simpl. by rewrite Hc. }
    intros [] ->. by apply spec_ret.
  - intros (e & -> & He). apply spec_ret. by rewrite He.
Qed.

Lemma await_confirmation_spec (w : world) (a : args) (main_window_handle : string) :
  w_current_window_handle w = inr main_window_handle →
  spec I (await_confirmation w a main_window_handle (payment_handle_of w))
    (fun _ => confirmation_ok w a = true) (fun _ => confirmation_ok w a = false).
Proof.
  intros Hmain. unfold await_confirmation, confirmation_ok, confirmation_outcome.
  rewrite Hmain. fold (result (await_order_result w (Some main_window_handle) (payment_handle_of w))).
  destruct (skip_order_wait a); cbn [negb orb]; [by apply spec_ret|].
  eapply spec_bind; [by apply (spec_eprint _ (fun _ => True))|]. intros [] _.
  eapply spec_conseq;
    [apply (sound_spec _ I allowed); [apply await_order_result_sound | done ..] | |].
  - intros url ->. done.
  - intros e ->. done.
Qed.

(** The body of the [try] statement returns exactly when every stage
    succeeds. *)
Lemma workflow_spec (w : world) (a : args) (slot_value : string) :
  spec I (workflow w a slot_value)
    (fun _ => workflow_ok w a = true) (fun _ => workflow_ok w a = false).
Proof.
  assert (before_trigger : ∀ c, c ≠ CPaymentTrigger → allowed c) by auto.
  unfold workflow, workflow_ok, stages_ok.
  eapply spec_bind.
  { eapply spec_weaken_exn; [by apply launch_spec|].
    intros ? H. by rewrite H. }
  intros main_window_handle [-> Hmain].
  eapply spec_bind.
  { eapply spec_weaken_exn; [by apply authenticate_spec|].
    intros ? H. by rewrite H. }
  intros [] Hauth. rewrite Hauth.
  eapply spec_bind.
  { eapply spec_weaken_exn; [by apply reserve_spec|].
    intros ? [H|[H|H]].
    - unfold authenticate_ok in Hauth. by rewrite H in Hauth.
    - by rewrite H.
    - unfold extract_ok. rewrite H. by rewrite andb_false_r. }
  intros html [-> Hhtml].
  eapply spec_bind.
  { apply spec_lift_sp. intros e He. unfold extract_ok. by rewrite Hhtml, He. }
  intros order_id Hid.
  assert (extract_ok w = true) as -> by (unfold extract_ok; by rewrite Hhtml, Hid).
  eapply spec_bind.
  { eapply spec_weaken_exn; [by apply render_reservation_spec|].
    intros ? H. by rewrite H. }
  intros [] ->.
  unfold trigger_ok.
  eapply spec_bind.
  { apply spec_driver_sp; [done|]. intros e He. by rewrite He. }
  intros existing_handles Hexisting. rewrite Hexisting.
  eapply spec_bind.
  { eapply spec_weaken_exn; [apply trigger_payment_spec|].
    intros ? H. by rewrite H. }
  intros [] ->.
  eapply spec_bind.
  { eapply spec_weaken_exn; [by apply await_popup_spec|].
    intros ? H. by rewrite H. }
  intros payment_handle [-> ->].
  eapply spec_bind.
  { eapply spec_weaken_exn; [by apply await_confirmation_spec|].
    intros ? H. by rewrite H. }
  intros url ->. by apply spec_ret.
Qed.

End LaterStages.

(** ** [main] *)

Section Main.
Context {I J : process → Prop} {allowed allowed' : call → Prop}
  `{!Stable I allowed} `{!Stable J allowed'}.
Hypothesis quit_allowed : allowed' CQuit.

Lemma on_exception_spec (exc : exn) :
  spec J (on_exception exc) (fun outcome => outcome = None) (fun _ => False).
Proof.
  unfold on_exception.
  eapply spec_bind.
  { destruct (is_WebDriverException exc); by apply (spec_eprint _ (fun _ => True)). }
  intros [] _. by apply spec_ret.
Qed.

Lemma cleanup_spec (w : world) (a : args) :
  spec J (cleanup w a) (fun _ => True) (fun _ => False).
Proof.
  unfold cleanup.
  destruct (_ && _); [|by apply spec_ret].
  apply (spec_try_except _ _ _ _ (fun _ => True)).
  - by apply spec_driver_.
  - intros e _ _. by apply spec_ret.
  - done.
Qed.

Lemma report_spec (a : args) (l : locals) :
  spec J (report a l) (fun _ => True) (fun _ => False).
Proof.
  unfold report.
  repeat (eapply spec_bind; [by apply (spec_print _ (fun _ => True))|]; intros [] _).
  eapply spec_bind.
  { destruct (negb (skip_order_wait a)); [|by apply (spec_ret tt (fun _ => True))].
    destruct (order_result_url l) as [url|]; [destruct (Py.truthy url)|];
      by apply (spec_print _ (fun _ => True)). }
  intros [] _. destruct (keep_browser_open a); by apply spec_print.
Qed.

(** [main] returns 0 when the body of its [try] statement returns, and 1
    when it raises; [I] holds before the body and [J] after it. *)
Lemma main_hoare (w : world) (a : args) (φ : locals → Prop) (ψ : exn → Prop) :
  audit_log_ready w a = true →
  hoare I (workflow w a (coerce_slot (reserve_slot_parts a)))
    (fun l p => φ l ∧ J p) (fun e p => ψ e ∧ J p) →
  hoare I (main w a)
    (fun status p => ((status = 0 ∧ ∃ l, φ l) ∨ (status = 1 ∧ ∃ e, ψ e)) ∧ J p)
    (fun _ _ => False).
Proof.
  intros Hready Hbody p Hp. unfold main.
  rewrite bind_run.
  assert (Hset : spec I (set_curl_log_file (w_curl_log_fs w) (curl_log_file a))
                   (fun _ => True) (fun _ => False)).
  { apply spec_set_curl_log_file; [done|]. intros e Ht Hfs.
    unfold audit_log_ready in Hready. rewrite Ht, Hfs in Hready. discriminate. }
  specialize (Hset p Hp).
  destruct (set_curl_log_file _ _ p) as [[e|[]] p1]; [by destruct Hset|].
  destruct Hset as [_ Hp1].
  rewrite bind_run.
  assert (Hinfo : spec I (reuse_browser_tab_notice a) (fun _ => True) (fun _ => False)).
  { unfold reuse_browser_tab_notice.
    destruct (reuse_browser_tab a); [by apply spec_eprint | by apply spec_ret]. }
  specialize (Hinfo p1 Hp1).
  destruct (reuse_browser_tab_notice a p1) as [[e|[]] p2]; [by destruct Hinfo|].
  destruct Hinfo as [_ Hp2].
  rewrite bind_run. unfold try_finally, try_except. rewrite bind_run.
  specialize (Hbody p2 Hp2).
  destruct (workflow w a _ p2) as [[e|l] p3]; destruct Hbody as [Hres Hp3].
  - pose proof (on_exception_spec e p3 Hp3) as Hexc.
    destruct (on_exception e p3) as [[e'|outcome] p4]; [by destruct Hexc|].
    destruct Hexc as [-> Hp4].
    pose proof (cleanup_spec w a p4 Hp4) as Hclean.
    destruct (cleanup w a p4) as [[e'|[]] p5]; [by destruct Hclean|].
    destruct Hclean as [_ Hp5]. simpl. split; [|done]. right. eauto.
  - simpl.
    pose proof (cleanup_spec w a p3 Hp3) as Hclean.
    destruct (cleanup w a p3) as [[e'|[]] p4]; [by destruct Hclean|].
    destruct Hclean as [_ Hp4]. rewrite bind_run.
    pose proof (report_spec a l p4 Hp4) as Hreport.
    destruct (report a l p4) as [[e'|[]] p5]; [by destruct Hreport|].
    destruct Hreport as [_ Hp5]. simpl. split; [|done]. left. eauto.
Qed.

End Main.

(** ** The exit status *)

Lemma await_confirmation_sound w a main_window_handle payment_handle :
  sound (await_confirmation w a main_window_handle payment_handle).
Proof.
  unfold await_confirmation. destruct (negb (skip_order_wait a)); [|sound_step].
  sound_step; [sound_step | apply await_order_result_sound].
Qed.

(** [main] returns 0 when every stage of the body succeeds and 1
    otherwise. *)
Lemma main_returns (w : world) (a : args) (p : process) :
  audit_log_ready w a = true →
  (main w a p).1 = inr (if workflow_ok w a then 0 else 1).
Proof.
  intros Hready.
  pose proof (main_hoare (I:=fun _ => True) (J:=fun _ => True) Logic.I w a
                (fun _ => workflow_ok w a = true) (fun _ => workflow_ok w a = false)
                Hready) as Hmain.
  specialize (Hmain (workflow_spec (fun _ => Logic.I) w a _) p Logic.I).
  destruct (main w a p) as [[e|status] p']; [done|]. simpl.
  destruct Hmain as [[[-> [_ ->]]|[-> [_ ->]]] _]; reflexivity.
Qed.

(** When the popup wait fails with [e] and the body still returns, the
    failure is on the error stream. *)
Lemma await_popup_logs (w : world) (existing_handles : list string) (e : exn) :
  w_existing_handles w = inr existing_handles →
  popup_outcome w = inl e →
  hoare (fun _ => True) (await_popup w existing_handles)
    (fun _ p => popup_failure_line e ∈ stderr p) (fun _ _ => True).
Proof.
  intros Hexisting Houtcome p _.
  rewrite (popup_outcome_result w _ Hexisting) in Houtcome.
  unfold await_popup, try_except, mbind, M_bind.
  pose proof (sound_spec _ (fun _ => True) (fun _ => True)
                (wait_for_payment_window_sound w existing_handles "KCPPayPopup")
                _ (fun _ => Logic.I) p Logic.I) as Hwait.
  destruct (wait_for_payment_window w existing_handles "KCPPayPopup" p) as [[e'|handle] p1];
    destruct Hwait as [Hres _]; [|congruence].
  assert (e' = e) as -> by congruence.
  destruct (is_TimeoutError e) eqn:Hclass; [|done].
  simpl. unfold popup_failure_line. rewrite elem_of_app. right. by left.
Qed.

Lemma workflow_logs_popup_failure (w : world) (a : args) (slot_value : string) (e : exn) :
  popup_outcome w = inl e →
  hoare (fun _ => True) (workflow w a slot_value)
    (fun _ p => popup_failure_line e ∈ stderr p) (fun _ _ => True).
Proof.
  intros Houtcome p _. unfold workflow.
  rewrite bind_run. destruct (launch w a p) as [[?|main_window_handle] p1]; [done|].
  rewrite bind_run. destruct (authenticate w a p1) as [[?|[]] p2]; [done|].
  rewrite bind_run. destruct (reserve w a slot_value p2) as [[?|html] p3]; [done|].
  rewrite bind_run. unfold lift at 1.
  destruct (extract_order_id html) as [?|order_id]; [done|].
  rewrite bind_run. destruct (render_reservation w a p3) as [[?|[]] p4]; [done|].
  rewrite bind_run. unfold driver at 1.
  destruct (w_existing_handles w) as [?|existing_handles] eqn:Hexisting; [done|].
  rewrite bind_run. destruct (trigger_payment w _) as [[?|[]] p5]; [done|].
  rewrite bind_run.
  pose proof (await_popup_logs w existing_handles e Hexisting Houtcome p5 Logic.I) as Hpopup.
  destruct (await_popup w existing_handles p5) as [[?|payment_handle] p6]; [done|].
  rewrite bind_run.
  pose proof (proj2 (await_confirmation_sound w a main_window_handle payment_handle)
                (fun p => True → popup_failure_line e ∈ stderr p) (fun _ => True)
                _ (fun _ => Logic.I) p6 (fun _ => Hpopup)) as Hconfirm.
  destruct (await_confirmation w a main_window_handle payment_handle p6) as [[?|url] p7];
    [done|].
  destruct Hconfirm as [_ Hp7]. simpl. by apply Hp7.
Qed.

(** C1, as amended. Once the audit log target is set: [main] returns 0
    whenever every stage through AwaitPopup succeeds (a popup wait that
    times out counts as a success: the [TimeoutError] is caught and
    logged, the exit status is unchanged) and the confirmation wait, when
    [--wait-order] asks for it, ends without a browser error; and [main]
    returns 1 whenever the session launch fails, the login HTTP check
    fails, the reservation HTTP check fails, the order-id extraction
    fails, or the payment trigger is not found or throws. *)
Theorem main_exit_status (w : world) (a : args) (p : process) :
  audit_log_ready w a = true →
  (stages_ok w a = true → confirmation_ok w a = true →
   (main w a p).1 = inr 0
   ∧ ∀ e, popup_outcome w = inl e → popup_failure_line e ∈ stderr (main w a p).2)
  ∧ (is_Some (w_launch_browser w)
     ∨ http_check_fails (w_login_reply w) "Login request" = true
     ∨ http_check_fails (w_reservation_reply w) "Reservation request" = true
     ∨ extract_fails w = true
     ∨ trigger_fails w = true →
     (main w a p).1 = inr 1).
Proof.
  intros Hready. split.
  - intros Hstages Hconfirm. split.
    + rewrite main_returns by done. unfold workflow_ok. by rewrite Hstages, Hconfirm.
    + intros e Houtcome.
      pose proof (main_hoare (I:=fun _ => True)
                    (J:=fun p => True → popup_failure_line e ∈ stderr p) Logic.I w a
                    (fun _ => True) (fun _ => workflow_ok w a = false) Hready) as Hmain.
      assert (Hbody : hoare (fun _ => True) (workflow w a (coerce_slot (reserve_slot_parts a)))
                (fun _ q => True ∧ (True → popup_failure_line e ∈ stderr q))
                (fun _ q => workflow_ok w a = false
                            ∧ (True → popup_failure_line e ∈ stderr q))).
      { intros q _.
        pose proof (workflow_logs_popup_failure w a (coerce_slot (reserve_slot_parts a)) e
                      Houtcome q Logic.I) as Hlog.
        pose proof (workflow_spec (I:=fun _ => True) (fun _ => Logic.I) w a
                      (coerce_slot (reserve_slot_parts a)) q Logic.I) as Hspec.
        destruct (workflow w a _ q) as [[e'|l] q']; [|done].
        destruct Hspec as [Hfalse _]. unfold workflow_ok in Hfalse.
        rewrite Hstages, Hconfirm in Hfalse. discriminate. }
      specialize (Hmain Hbody p Logic.I).
      destruct (main w a p) as [[e'|status] p']; [done|].
      destruct Hmain as [_ Hline]. by apply Hline.
  - intros Hfail. rewrite main_returns by done.
    assert (workflow_ok w a = false) as ->; [|done].
    unfold workflow_ok, stages_ok.
    destruct Hfail as [[e He]|[Hlogin|[Hreserve|[Hextract|Htrigger]]]].
    + unfold launch_ok. by rewrite He.
    + unfold authenticate_ok, fetch_ok. unfold http_check_fails in Hlogin.
      destruct (w_login_reply w) as [|[d|]]; try done.
      apply negb_true_iff in Hlogin. rewrite Hlogin.
      by rewrite !andb_false_r.
    + unfold reserve_ok, fetch_ok. unfold http_check_fails in Hreserve.
      destruct (w_reservation_reply w) as [|[d|]]; try done.
      apply negb_true_iff in Hreserve. rewrite Hreserve.
      by rewrite !andb_false_r.
    + unfold extract_ok. unfold extract_fails in Hextract.
      destruct (reservation_html w); [|done].
      apply negb_true_iff in Hextract. rewrite Hextract.
      by rewrite !andb_false_r.
    + unfold trigger_ok. unfold trigger_fails in Htrigger.
      destruct (w_payment_page w); [done|].
      apply negb_true_iff in Htrigger. rewrite Htrigger.
      by rewrite !andb_false_r.
Qed.

Lemma main_exit_status_witness :
  (main no_popup_world sample_args initial_process).1 = inr 0
  ∧ popup_failure_line (TimeoutError "Failed to detect payment popup window.")
    ∈ stderr (main no_popup_world sample_args initial_process).2
  ∧ (main no_field_world sample_args initial_process).1 = inr 1.
Proof.
  assert (Hready : audit_log_ready no_popup_world sample_args = true) by reflexivity.
  assert (Hready' : audit_log_ready no_field_world sample_args = true) by reflexivity.
  destruct (main_exit_status no_popup_world sample_args initial_process Hready) as [Hok _].
  destruct (main_exit_status no_field_world sample_args initial_process Hready') as [_ Hfail].
  destruct Hok as [Hzero Hline]; [vm_compute; reflexivity | reflexivity |].
  split_and!.
  - exact Hzero.
  - apply Hline. vm_compute. reflexivity.
  - apply Hfail. right. right. right. left. vm_compute. reflexivity.
Defined.

(** As the specification words it, the property fails on a run with [--wait-order] in which the
    browser goes away during the confirmation wait: every stage through
    AwaitPopup succeeded, and [main] returns 1. *)
Lemma main_exit_status_after_popup :
  through_await_popup closed_browser_world wait_order_args = true
  ∧ skip_order_wait wait_order_args = false
  ∧ (main closed_browser_world wait_order_args initial_process).1 = inr 1.
Proof. split_and!; vm_compute; reflexivity. Qed.

(** ** A missing order id *)

Section Abort.
Context {I : process → Prop} {allowed : call → Prop} `{!Stable I allowed}.
Hypothesis before_trigger : ∀ c, c ≠ CPaymentTrigger → allowed c.

(** When the extraction fails, the body of the [try] statement raises
    with no call beyond those of the stages before it. *)
Lemma workflow_stops_at_extraction (w : world) (a : args) (slot_value : string) :
  extract_fails w = true →
  spec I (workflow w a slot_value) (fun _ => False) (fun _ => True).
Proof.
  intros Hfails. unfold workflow.
  eapply spec_bind; [eapply spec_weaken_exn; [by apply launch_spec | done]|].
  intros main_window_handle _.
  eapply spec_bind; [eapply spec_weaken_exn; [by apply authenticate_spec | done]|].
  intros [] _.
  eapply spec_bind; [eapply spec_weaken_exn; [by apply reserve_spec | done]|].
  intros html [_ Hhtml].
  eapply spec_bind; [by apply spec_lift_sp|].
  intros order_id Hid. unfold extract_fails in Hfails.
  by rewrite Hhtml, Hid in Hfails.
Qed.

End Abort.

(** C3. On a document with no input named [ordr_idxx],
    [extract_order_id] raises its error; in [main] (once the audit log
    target is set) a reservation response with such a document ends the
    run with status 1, and the payment trigger script is never run. *)
Theorem extract_order_id_missing_is_fatal (html : html_document) (w : world) (a : args)
    (p : process) :
  Forall (fun ev => names_order_id ev = false) html →
  extract_order_id html = inl FieldNotFound
  ∧ (audit_log_ready w a = true → reservation_html w = Some html →
     CPaymentTrigger ∉ calls p →
     (main w a p).1 = inr 1 ∧ CPaymentTrigger ∉ calls (main w a p).2).
Proof.
  intros Hnone. pose proof (extract_order_id_none html Hnone) as Hraise.
  split; [exact Hraise|].
  intros Hready Hhtml Hp.
  assert (Hfails : extract_fails w = true).
  { unfold extract_fails. by rewrite Hhtml, Hraise. }
  assert (Hquit : CQuit ≠ CPaymentTrigger) by discriminate.
  pose proof (@main_hoare _ _ _ _ (stable_not_called CPaymentTrigger)
                (stable_not_called CPaymentTrigger) Hquit w a
                (fun _ => False) (fun _ => True) Hready) as Hmain.
  specialize (Hmain (@workflow_stops_at_extraction _ _ (stable_not_called CPaymentTrigger)
                       (fun c Hc => Hc) w a _ Hfails) p Hp).
  destruct (main w a p) as [[e|status] p']; [done|]. simpl.
  destruct Hmain as [[[_ [_ []]]|[-> _]] Hcalls]. done.
Qed.

Lemma extract_order_id_missing_is_fatal_witness :
  extract_order_id no_field_doc = inl FieldNotFound
  ∧ (main no_field_world sample_args initial_process).1 = inr 1
  ∧ CPaymentTrigger ∉ calls (main no_field_world sample_args initial_process).2.
Proof.
  assert (Hnone : Forall (fun ev => names_order_id ev = false) no_field_doc)
    by (repeat constructor).
  destruct (extract_order_id_missing_is_fatal no_field_doc no_field_world sample_args
              initial_process Hnone) as [Hraise Hmain].
  destruct Hmain as [Hstatus Hcalls];
    [reflexivity | reflexivity | apply not_elem_of_nil |].
  by split_and!.
Defined.

(** ** The abort timer *)

Section Float.

Lemma shr_1_m (mrs : shr_record) : 0 ≤ shr_m mrs → shr_m (shr_1 mrs) = shr_m mrs / 2.
Proof.
  destruct mrs as [m r s]. simpl. intros Hm. rewrite <- Z.div2_div.
  destruct m as [|[p|p|]|p]; try reflexivity. lia.
Qed.

Lemma iter_shr_1_m (n : positive) : ∀ mrs,
  0 ≤ shr_m mrs → shr_m (SpecFloat.iter_pos shr_1 n mrs) = shr_m mrs / 2 ^ Z.pos n.
Proof.
  assert (Hdiv : ∀ a k, 0 ≤ a → 0 ≤ k → 0 ≤ a / 2 ^ k).
  { intros a k Ha Hk. apply Z.div_pos; [done|]. by apply Z.pow_pos_nonneg. }
  induction n as [n IH|n IH|]; intros mrs Hm; cbn [SpecFloat.iter_pos].
  - assert (H1 : 0 ≤ shr_m (shr_1 mrs)).
    { rewrite shr_1_m by done. apply (Hdiv _ 1); lia. }
    assert (H2 : 0 ≤ shr_m (SpecFloat.iter_pos shr_1 n (shr_1 mrs))).
    { rewrite IH by done. apply Hdiv; lia. }
    rewrite (IH _ H2), (IH _ H1), shr_1_m by done.
    rewrite !Z.div_div by (try apply Z.pow_pos_nonneg; lia).
    f_equal. replace (Z.pos n~1) with (1 + Z.pos n + Z.pos n) by lia.
    rewrite !Z.pow_add_r, Z.pow_1_r by lia. lia.
  - assert (H1 : 0 ≤ shr_m (SpecFloat.iter_pos shr_1 n mrs)).
    { rewrite IH by done. apply Hdiv; lia. }
    rewrite (IH _ H1), (IH _ Hm).
    rewrite Z.div_div by (try apply Z.pow_pos_nonneg; lia).
    f_equal. replace (Z.pos n~0) with (Z.pos n + Z.pos n) by lia.
    rewrite Z.pow_add_r by lia. reflexivity.
  - rewrite shr_1_m by done. by rewrite Z.pow_1_r.
Qed.

(** Shifting a mantissa right divides it by the power of two; the
    exponent grows by as much. *)
Lemma shr_m_e (m e n : Z) (l : location) :
  0 ≤ m →
  shr_m (shr (shr_record_of_loc m l) e n).1 = m / 2 ^ Z.max 0 n
  ∧ (shr (shr_record_of_loc m l) e n).2 = e + Z.max 0 n.
Proof.
  intros Hm.
  assert (Hrec : shr_m (shr_record_of_loc m l) = m) by (by destruct l as [|[]]).
  destruct n as [|n|n]; simpl.
  - rewrite Hrec, Z.div_1_r. split; [done | lia].
  - rewrite iter_shr_1_m, Hrec by (by rewrite Hrec). split; [done | lia].
  - rewrite Hrec, Z.div_1_r. split; [done | lia].
Qed.

Lemma round_nearest_even_bounds (m : Z) (l : location) :
  m ≤ round_nearest_even m l ≤ m + 1.
Proof. destruct l as [|[]]; simpl; try destruct (Z.even m); lia. Qed.

Lemma digits2_pos_bounds (p : positive) :
  2 ^ (Z.pos (digits2_pos p) - 1) ≤ Z.pos p < 2 ^ Z.pos (digits2_pos p).
Proof.
  induction p as [p IH|p IH|]; cbn [digits2_pos]; rewrite ?Pos2Z.inj_succ.
  - replace (Z.succ (Z.pos (digits2_pos p)) - 1) with (Z.succ (Z.pos (digits2_pos p) - 1)) by lia.
    rewrite !Z.pow_succ_r by lia. lia.
  - replace (Z.succ (Z.pos (digits2_pos p)) - 1) with (Z.succ (Z.pos (digits2_pos p) - 1)) by lia.
    rewrite !Z.pow_succ_r by lia. lia.
  - simpl. lia.
Qed.


Lemma binary_round_aux_sign (sx : bool) (mx ex : Z) (lx : location) :
  match binary_round_aux prec emax sx mx ex lx with
  | S754_zero s | S754_infinity s | S754_finite s _ _ => s = sx
  | S754_nan => True
  end.
Proof.
  unfold binary_round_aux.
  destruct (shr_fexp prec emax mx ex lx) as [mrs1 e1].
  destruct (shr_fexp prec emax _ e1 loc_Exact) as [mrs2 e2].
  destruct (shr_m mrs2); [done | | done].
  by destruct (e2 <=? emax - prec).
Qed.

Lemma shiftl_quotient_bound (a k n : Z) :
  0 ≤ a → 0 ≤ k → 0 ≤ n → a ≤ 1000 * 2 ^ k → Z.shiftl (a / 2 ^ n) (n - k) ≤ 1000.
Proof.
  intros Ha Hk Hn Hbound.
  rewrite <- Z.shiftr_shiftl_l by done.
  rewrite Z.shiftr_div_pow2, Z.shiftl_mul_pow2 by done.
  assert (Hpow : 0 < 2 ^ n) by (by apply Z.pow_pos_nonneg).
  assert (Hpowk : 0 < 2 ^ k) by (by apply Z.pow_pos_nonneg).
  assert (a / 2 ^ n * 2 ^ n ≤ a) by (rewrite Z.mul_comm; by apply Z.mul_div_le).
  apply Z.div_le_upper_bound; [done|]. lia.
Qed.

(** The product of a positive float below 1 with 1000, as the
    multiplication rounds it, truncates to at most 1000. *)
Lemma product_below_1000 (m : positive) (e : Z) :
  e < 0 → Z.pos m < 2 ^ (- e) →
  match binary_round_aux prec emax false (Z.pos (m * 8796093022208000)) (e + -43) loc_Exact with
  | S754_finite _ m' e' => Z.shiftl (Z.pos m') e' ≤ 1000
  | _ => True
  end.
Proof.
  intros He Hm. unfold binary_round_aux, shr_fexp.
  set (M := Z.pos (m * 8796093022208000)). set (E := e + -43).
  assert (HM : M < 1000 * 2 ^ (- E)).
  { unfold M, E. rewrite Pos2Z.inj_mul.
    replace (- (e + -43)) with (- e + 43) by lia.
    rewrite Z.pow_add_r by lia.
    change (Z.pos 8796093022208000) with (1000 * 2 ^ 43).
    assert (0 < 2 ^ 43) by (by apply Z.pow_pos_nonneg). nia. }
  assert (HM0 : 0 ≤ M) by done.
  (* the first shift *)
  set (n1 := fexp prec emax (Zdigits2 M + E) - E).
  destruct (shr_m_e M E n1 loc_Exact HM0) as [Hm1 He1].
  destruct (shr (shr_record_of_loc M loc_Exact) E n1) as [mrs1 e1]. simpl in Hm1, He1.
  assert (Hn1 : e1 ≤ 0).
  { subst e1 n1. unfold fexp, SpecFloat.emin, prec, emax.
    pose proof (digits2_pos_bounds (m * 8796093022208000)) as [Hd _].
    fold M in Hd. cbn [Zdigits2 M].
    assert (Hlt : 2 ^ (Z.pos (digits2_pos (m * 8796093022208000)) - 1) < 2 ^ (10 - E)).
    { eapply Z.le_lt_trans; [exact Hd|]. eapply Z.lt_trans; [exact HM|].
      replace (10 - E) with (10 + - E) by lia. rewrite Z.pow_add_r by lia.
      assert (0 < 2 ^ (- E)) by (apply Z.pow_pos_nonneg; lia).
      change (2 ^ 10) with 1024. nia. }
    apply Z.pow_lt_mono_r_iff in Hlt; lia. }
  assert (Hm1' : shr_m mrs1 < 1000 * 2 ^ (- e1)).
  { rewrite Hm1. apply Z.div_lt_upper_bound; [apply Z.pow_pos_nonneg; lia|].
    replace (- E) with (Z.max 0 n1 + - e1) in HM by lia.
    rewrite Z.pow_add_r in HM by lia. lia. }
  assert (Hm1'' : 0 ≤ shr_m mrs1).
  { rewrite Hm1. apply Z.div_pos; [done|]. apply Z.pow_pos_nonneg; lia. }
  (* the rounding *)
  pose proof (round_nearest_even_bounds (shr_m mrs1) (loc_of_shr_record mrs1)) as Hround.
  set (m2 := round_nearest_even (shr_m mrs1) (loc_of_shr_record mrs1)) in *.
  (* the second shift *)
  set (n2 := fexp prec emax (Zdigits2 m2 + e1) - e1).
  destruct (shr_m_e m2 e1 n2 loc_Exact ltac:(lia)) as [Hm3 He3].
  destruct (shr (shr_record_of_loc m2 loc_Exact) e1 n2) as [mrs2 e2]. simpl in Hm3, He3.
  destruct (shr_m mrs2) as [|m3|] eqn:Hm3'; [done | | done].
  destruct (e2 <=? emax - prec); [|done].
  rewrite Hm3. replace e2 with (Z.max 0 n2 - - e1) by lia.
  apply shiftl_quotient_bound; lia.
Qed.

End Float.

Lemma one_thousand_SF : Prim2SF 1000 = S754_finite false 8796093022208000 (-43).
Proof. vm_compute. reflexivity. Qed.

Lemma one_SF : Prim2SF 1 = S754_finite false 4503599627370496 (-52).
Proof. vm_compute. reflexivity. Qed.

(** A positive float below 1: its mantissa and exponent. *)
Lemma below_one (m : positive) (e : Z) :
  valid_binary (S754_finite false m e) = true →
  SFltb (S754_finite false m e) (S754_finite false 4503599627370496 (-52)) = true →
  e < 0 ∧ Z.pos m < 2 ^ (- e).
Proof.
  unfold valid_binary, bounded, canonical_mantissa, SFltb, SFcompare.
  intros [Hcanon _]%andb_true_iff Hlt. apply Z.eqb_eq in Hcanon.
  destruct (Z.compare_spec e (-52)) as [-> | He | He]; [| |done].
  - split; [done|].
    by destruct (Pos.compare_cont Eq m 4503599627370496) eqn:Hm.
  - split; [lia|].
    pose proof (digits2_pos_bounds m) as [_ Hd].
    unfold fexp, SpecFloat.emin, prec, emax in Hcanon.
    eapply Z.lt_le_trans; [exact Hd|].
    apply Z.pow_le_mono_r; lia.
Qed.

Lemma timeout_ms_below_one (timeout : float) :
  is_Some (float_floor (timeout * 1000)) →
  (timeout <? 1)%float = true →
  timeout_ms timeout = inr 1000.
Proof.
  unfold timeout_ms, int_of_float, float_floor.
  rewrite mul_spec, ltb_spec, one_thousand_SF, one_SF.
  pose proof (Prim2SF_valid timeout) as Hvalid.
  destruct (Prim2SF timeout) as [s|s| |s m e]; unfold SF64mul, SFmul.
  - done.
  - by intros [? ?].
  - done.
  - intros Hfinite Hlt.
    pose proof (binary_round_aux_sign (xorb s false) (Z.pos (m * 8796093022208000))
                  (e + -43) loc_Exact) as Hsign.
    destruct s; cbn [xorb] in *.
    + destruct (binary_round_aux prec emax true _ _ _) as [s'|s'| |s' m' e'];
        [done | by destruct Hfinite | by destruct Hfinite |].
      subst s'.
      assert (0 ≤ Z.shiftl (Z.pos m') e') by (by apply Z.shiftl_nonneg).
      f_equal. lia.
    + destruct (below_one m e Hvalid Hlt) as [He Hm].
      pose proof (product_below_1000 m e He Hm) as Hbound.
      destruct (binary_round_aux prec emax false _ _ _) as [s'|s'| |s' m' e'];
        [done | by destruct Hfinite | by destruct Hfinite |].
      subst s'. f_equal. lia.
Qed.

Lemma timeout_ms_floor (timeout : float) (n : Z) :
  float_floor (timeout * 1000) = Some n → timeout_ms timeout = inr (Z.max n 1000).
Proof.
  unfold timeout_ms, int_of_float, float_floor.
  destruct (Prim2SF (timeout * 1000)) as [s|s| |s m e]; try done.
  - by intros [= <-].
  - intros [= <-]. destruct s; [|done].
    assert (0 ≤ Z.shiftl (Z.pos m) e) by (by apply Z.shiftl_nonneg).
    assert (¬ 0 ≤ Z.shiftl (Z.neg m) e) by (rewrite Z.shiftl_nonneg; lia).
    f_equal. lia.
Qed.

(** The timer [browser_fetch] hands to the page is the one computed. *)
Lemma browser_fetch_timer (reply : exn + fetch_reply) (url : string)
    (data : list (string * form_value)) (headers : list (string * option string))
    (timeout : float) (ms : Z) (p : process) :
  timeout_ms timeout = inr ms →
  calls (browser_fetch reply url data headers timeout p).2
  = calls p ++ [CFetch url (fetch_body_string data) ms].
Proof.
  intros Hms. unfold browser_fetch, mbind, M_bind, append_curl_log, eprint, lift, driver.
  rewrite Hms.
  destruct (CURL_LOG_FILE p); simpl;
    destruct reply as [e|[d|]]; simpl; try reflexivity;
    destruct (fd_error d) as [err|]; simpl; try reflexivity;
    destruct (Py.truthy err); reflexivity.
Qed.

(** When the conversion raises, [browser_fetch] raises the same exception
    and the page is not called. *)
Lemma browser_fetch_no_timer (reply : exn + fetch_reply) (url : string)
    (data : list (string * form_value)) (headers : list (string * option string))
    (timeout : float) (e : exn) (p : process) :
  timeout_ms timeout = inl e →
  (browser_fetch reply url data headers timeout p).1 = inl e
  ∧ calls (browser_fetch reply url data headers timeout p).2 = calls p.
Proof.
  intros Hms. unfold browser_fetch, mbind, M_bind, append_curl_log, eprint, lift, driver.
  rewrite Hms. by destruct (CURL_LOG_FILE p).
Qed.

Lemma timeout_ms_not_finite (timeout : float) :
  float_floor (timeout * 1000) = None →
  ∃ e, (e = OverflowError "cannot convert float infinity to integer"
        ∨ e = ValueError "cannot convert float NaN to integer")
       ∧ timeout_ms timeout = inl e.
Proof.
  unfold timeout_ms, int_of_float, float_floor.
  destruct (Prim2SF (timeout * 1000)) as [s|s| |s m e]; try done; intros _.
  - eexists. split; [by left | done].
  - eexists. split; [by right | done].
Qed.

Lemma float_floor_not_finite (timeout : float) :
  (Prim2SF timeout = S754_nan ∨ ∃ s, Prim2SF timeout = S754_infinity s) →
  float_floor (timeout * 1000) = None.
Proof.
  unfold float_floor. rewrite mul_spec, one_thousand_SF.
  by intros [-> | [s ->]].
Qed.

(** C10, as amended. For every requested timeout whose product with
    1000 is a finite float, the abort timer handed to the page is
    max(floor(timeout * 1000), 1000) milliseconds, the product being the
    floating-point one; so every such timeout below one second is
    enforced as exactly one second. For every timeout whose product with
    1000 is not finite, the conversion raises ([OverflowError] on an
    infinite product, [ValueError] on NaN), [browser_fetch] raises the same
    exception and the page is not called; the product of an infinite or
    NaN timeout is not finite. *)
Theorem timeout_ms_spec (timeout : float) :
  (∀ n, float_floor (timeout * 1000) = Some n →
        timeout_ms timeout = inr (Z.max n 1000)
        ∧ ∀ reply url data headers p,
            calls (browser_fetch reply url data headers timeout p).2
            = calls p ++ [CFetch url (fetch_body_string data) (Z.max n 1000)])
  ∧ (is_Some (float_floor (timeout * 1000)) → (timeout <? 1)%float = true →
     timeout_ms timeout = inr 1000)
  ∧ (float_floor (timeout * 1000) = None →
     ∃ e, (e = OverflowError "cannot convert float infinity to integer"
           ∨ e = ValueError "cannot convert float NaN to integer")
          ∧ timeout_ms timeout = inl e
          ∧ ∀ reply url data headers p,
              (browser_fetch reply url data headers timeout p).1 = inl e
              ∧ calls (browser_fetch reply url data headers timeout p).2 = calls p)
  ∧ ((Prim2SF timeout = S754_nan ∨ ∃ s, Prim2SF timeout = S754_infinity s) →
     float_floor (timeout * 1000) = None).
Proof.
  split_and!.
  - intros n Hn. pose proof (timeout_ms_floor timeout n Hn) as Hms.
    split; [done|]. intros. by apply browser_fetch_timer.
  - apply timeout_ms_below_one.
  - intros Hnone. destruct (timeout_ms_not_finite timeout Hnone) as (e & He & Hms).
    exists e. split_and!; [done..|]. intros. by apply browser_fetch_no_timer.
  - apply float_floor_not_finite.
Qed.

Lemma timeout_ms_spec_witness :
  timeout_ms 0.25 = inr 1000 ∧ timeout_ms 15 = inr 15000
  ∧ (∃ e, (e = OverflowError "cannot convert float infinity to integer"
           ∨ e = ValueError "cannot convert float NaN to integer")
          ∧ timeout_ms 0x1p+1020 = inl e
          ∧ ∀ reply url data headers p,
              (browser_fetch reply url data headers 0x1p+1020 p).1 = inl e
              ∧ calls (browser_fetch reply url data headers 0x1p+1020 p).2 = calls p)
  ∧ float_floor (nan * 1000) = None.
Proof.
  split_and!.
  - apply (proj1 (proj2 (timeout_ms_spec 0.25))); [by eexists | reflexivity].
  - apply (proj1 (timeout_ms_spec 15) 15000). reflexivity.
  - apply (proj1 (proj2 (proj2 (timeout_ms_spec 0x1p+1020)))). reflexivity.
  - apply (proj2 (proj2 (proj2 (timeout_ms_spec nan)))). by left.
Defined.

(** As the specification words it, the property fails on the timeout [inf], which the command
    line accepts: the conversion to an integer raises, and no request
    is issued. *)
Lemma timeout_ms_infinity :
  timeout_ms infinity = inl (OverflowError "cannot convert float infinity to integer")
  ∧ (browser_fetch (response 200 []) LOGIN_URL [] [] infinity initial_process).1
    = inl (OverflowError "cannot convert float infinity to integer")
  ∧ calls (browser_fetch (response 200 []) LOGIN_URL [] [] infinity initial_process).2 = [].
Proof. split_and!; reflexivity. Qed.

(** ** Further properties of the specification *)

Section ReserveFails.
Context {I : process → Prop} {allowed : call → Prop} `{!Stable I allowed}.
Hypothesis before_trigger : ∀ c, c ≠ CPaymentTrigger → allowed c.

Lemma workflow_stops_at_reserve (w : world) (a : args) (slot_value : string) :
  reserve_ok w = false →
  spec I (workflow w a slot_value) (fun _ => False) (fun _ => True).
Proof.
  intros Hfails. unfold workflow.
  eapply spec_bind; [eapply spec_weaken_exn; [by apply launch_spec | done]|].
  intros main_window_handle _.
  eapply spec_bind; [eapply spec_weaken_exn; [by apply authenticate_spec | done]|].
  intros [] _.
  eapply spec_bind; [eapply spec_weaken_exn; [by apply reserve_spec | done]|].
  intros html [Hok _]. congruence.
Qed.

End ReserveFails.

(** A reservation response with the status 500 (or any status from 400
    on) ends the run with status 1 before the payment trigger is run. *)
Theorem reservation_error_status_is_fatal (w : world) (a : args) (p : process)
    (d : fetch_dict) (status : Z) :
  audit_log_ready w a = true →
  w_reservation_reply w = inr (ReplyDict d) →
  fd_status d = Some status → 400 ≤ status →
  CPaymentTrigger ∉ calls p →
  (main w a p).1 = inr 1 ∧ CPaymentTrigger ∉ calls (main w a p).2.
Proof.
  intros Hready Hreply Hstatus Hge Hp.
  assert (Hfails : reserve_ok w = false).
  { unfold reserve_ok, fetch_ok, ensure_success. rewrite Hreply, Hstatus. simpl.
    destruct (Z.leb_spec 400 status); [|lia].
    by rewrite orb_true_r, andb_false_r. }
  assert (Hquit : CQuit ≠ CPaymentTrigger) by discriminate.
  pose proof (@main_hoare _ _ _ _ (stable_not_called CPaymentTrigger)
                (stable_not_called CPaymentTrigger) Hquit w a
                (fun _ => False) (fun _ => True) Hready) as Hmain.
  specialize (Hmain (@workflow_stops_at_reserve _ _ (stable_not_called CPaymentTrigger)
                       (fun c Hc => Hc) w a _ Hfails) p Hp).
  destruct (main w a p) as [[e|exit_status] p']; [done|]. simpl.
  destruct Hmain as [[[_ [_ []]]|[-> _]] Hcalls]. done.
Qed.

Lemma reservation_error_status_is_fatal_witness :
  (main server_error_world sample_args initial_process).1 = inr 1
  ∧ CPaymentTrigger ∉ calls (main server_error_world sample_args initial_process).2.
Proof.
  apply (reservation_error_status_is_fatal server_error_world sample_args initial_process
           {| fd_status := Some 500; fd_text := Some []; fd_error := None |} 500);
    [reflexivity | reflexivity | reflexivity | lia | apply not_elem_of_nil].
Defined.

(** * Further properties of the code *)

(** ** Form bodies, read back *)


Lemma string_forall_app P s t :
  string_forall P (s +:+ t) = string_forall P s && string_forall P t.
Proof. induction s as [|c s IH]; simpl; [done|]. by rewrite IH, andb_assoc. Qed.

Lemma string_forall_impl (P Q : ascii → bool) s :
  (∀ c, P c = true → Q c = true) → string_forall P s = true → string_forall Q s = true.
Proof.
  intros HPQ. induction s as [|c s IH]; simpl; [done|].
  intros [Hc Hs]%andb_true_iff. by rewrite (HPQ c Hc), IH.
Qed.

Lemma string_app_cons (x : ascii) (a b : string) : String x a +:+ b = String x (a +:+ b).
Proof. reflexivity. Qed.

Lemma string_app_assoc (a b c : string) : (a +:+ b) +:+ c = a +:+ (b +:+ c).
Proof. induction a as [|x a IH]; [done|]. by rewrite !string_app_cons, IH. Qed.

Lemma string_app_nil_r (a : string) : a +:+ "" = a.
Proof. induction a as [|x a IH]; [done|]. by rewrite string_app_cons, IH. Qed.

Lemma hex_upper_component (n : N) : (n < 16)%N → component_char (Urllib.hex_upper n) = true.
Proof.
  intros Hn. 
  assert (n ∈ (N.of_nat <$> seq 0 16)) as Hin.
  { apply list_elem_of_fmap. exists (N.to_nat n). split; [lia|]. apply elem_of_seq. lia. }
  cbn in Hin. set_unfold in Hin. 
  repeat (destruct Hin as [->|Hin]; [by vm_compute|]). done.
Qed.

Lemma quote_plus_alphabet (s : string) :
  string_forall component_char (Urllib.quote_plus s) = true.
Proof.
  induction s as [|c s IH]; [done|]. cbn [Urllib.quote_plus].
  destruct (Urllib.always_safe c) eqn:Hsafe.
  { cbn [string_forall]. rewrite IH. unfold component_char. by rewrite Hsafe. }
  destruct (N_of_ascii c =? 32)%N; cbn [string_forall]; rewrite IH.
  - done.
  - rewrite !hex_upper_component; [done| |].
    + apply N.mod_lt. done.
    + pose proof (N_ascii_bounded c). apply N.Div0.div_lt_upper_bound. lia.
Qed.

Lemma always_safe_not_special (c : ascii) :
  Urllib.always_safe c = true →
  Ascii.eqb c "+" = false ∧ Ascii.eqb c "%" = false
  ∧ Ascii.eqb c "&" = false ∧ Ascii.eqb c "=" = false.
Proof.
  intros H. repeat split; apply Ascii.eqb_neq; intros ->; by vm_compute in H.
Qed.

Lemma hex_value_hex_upper (n : N) :
  (n < 16)%N → UrlDecode.hex_value (Urllib.hex_upper n) = Some n.
Proof.
  intros Hn.
  assert (n ∈ (N.of_nat <$> seq 0 16)) as Hin.
  { apply list_elem_of_fmap. exists (N.to_nat n). split; [lia|]. apply elem_of_seq. lia. }
  cbn in Hin. set_unfold in Hin.
  repeat (destruct Hin as [->|Hin]; [by vm_compute|]). done.
Qed.

Lemma unquote_plus_quote_plus (s : string) :
  UrlDecode.unquote_plus (Urllib.quote_plus s) = s.
Proof.
  induction s as [|c s IH]; [done|]. cbn [Urllib.quote_plus].
  destruct (Urllib.always_safe c) eqn:Hsafe.
  { cbn [UrlDecode.unquote_plus].
    destruct (always_safe_not_special c Hsafe) as (-> & -> & _). by rewrite IH. }
  destruct (N_of_ascii c =? 32)%N eqn:Hsp.
  - cbn [UrlDecode.unquote_plus]. rewrite IH. f_equal.
    apply N.eqb_eq in Hsp. rewrite <- (ascii_N_embedding c), Hsp. done.
  - cbn [UrlDecode.unquote_plus].
    change (Ascii.eqb "%" "+") with false. change (Ascii.eqb "%" "%") with true. cbv iota.
    pose proof (N_ascii_bounded c) as Hc.
    rewrite !hex_value_hex_upper.
    + rewrite IH. f_equal.
      rewrite <- (ascii_N_embedding c) at 3. f_equal.
      rewrite (N.div_mod (N_of_ascii c) 16) at 3; lia.
    + by apply N.mod_lt.
    + apply N.Div0.div_lt_upper_bound. lia.
Qed.

(** A string without the separator is one chunk. *)
Lemma split_no_sep (sep : ascii) (s : string) :
  string_forall (fun c => negb (Ascii.eqb c sep)) s = true → Cookie.split sep s = [s].
Proof.
  induction s as [|c s IH]; [done|]. cbn [string_forall Cookie.split].
  intros [Hc Hs]%andb_true_iff. apply negb_true_iff in Hc. rewrite Hc, (IH Hs). done.
Qed.

Lemma split_app (sep : ascii) (s t : string) :
  string_forall (fun c => negb (Ascii.eqb c sep)) s = true →
  Cookie.split sep (s +:+ String sep t) = s :: Cookie.split sep t.
Proof.
  induction s as [|c s IH].
  - intros _. change ("" +:+ String sep t) with (String sep t).
    cbn [Cookie.split]. by rewrite Ascii.eqb_refl.
  - cbn [string_forall]. intros [Hc Hs]%andb_true_iff. apply negb_true_iff in Hc.
    rewrite string_app_cons. cbn [Cookie.split]. rewrite Hc, (IH Hs). done.
Qed.

Lemma split_once_app (sep : ascii) (s t : string) :
  string_forall (fun c => negb (Ascii.eqb c sep)) s = true →
  Cookie.split_once sep (s +:+ String sep t) = (s, t).
Proof.
  induction s as [|c s IH].
  - intros _. change ("" +:+ String sep t) with (String sep t).
    cbn [Cookie.split_once]. by rewrite Ascii.eqb_refl.
  - cbn [string_forall]. intros [Hc Hs]%andb_true_iff. apply negb_true_iff in Hc.
    rewrite string_app_cons. cbn [Cookie.split_once]. rewrite Hc, (IH Hs). done.
Qed.

Lemma coerce_slot_join (parts : list string) : coerce_slot parts = Py.join "|" parts.
Proof. by destruct parts as [|p [|q parts]]. Qed.

(** The two ways of giving the slot agree: tokens given apart make the
    value that the same tokens make when given as one value, joined with
    [|]; and tokens that hold no [|] are read back from the slot value by
    splitting it at [|], so that two lists of such tokens give the same
    slot value only when they are the same list. *)
Theorem coerce_slot_splits_back (parts : list string) :
  parts ≠ [] → Forall (fun token => lacks "|" token = true) parts →
  Cookie.split "|" (coerce_slot parts) = parts
  ∧ coerce_slot [coerce_slot parts] = coerce_slot parts
  ∧ ∀ others, others ≠ [] → Forall (fun token => lacks "|" token = true) others →
      coerce_slot others = coerce_slot parts → others = parts.
Proof.
  assert (Hback : ∀ l, l ≠ [] → Forall (fun token => lacks "|" token = true) l →
                       Cookie.split "|" (coerce_slot l) = l).
  { intros l Hne Hl. rewrite coerce_slot_join.
    induction Hl as [|p l Hp Hl IH]; [done|].
    destruct l as [|q l]; [by apply split_no_sep|].
    change (Py.join "|" (p :: q :: l)) with (p +:+ String "|" (Py.join "|" (q :: l))).
    rewrite split_app by done. f_equal. by apply IH. }
  intros Hne Hparts. split_and!; [by apply Hback | done |].
  intros others Hothers Hlacks Heq.
  by rewrite <- (Hback others), <- (Hback parts), Heq.
Qed.

Lemma coerce_slot_splits_back_witness :
  Cookie.split "|" (coerce_slot ["2025-10-22"; "5"; "22"; "8"; "4000"])
  = ["2025-10-22"; "5"; "22"; "8"; "4000"]
  ∧ coerce_slot [coerce_slot ["2025-10-22"; "5"; "22"; "8"; "4000"]]
    = coerce_slot ["2025-10-22"; "5"; "22"; "8"; "4000"]
  ∧ ∀ others, others ≠ [] → Forall (fun token => lacks "|" token = true) others →
      coerce_slot others = coerce_slot ["2025-10-22"; "5"; "22"; "8"; "4000"] →
      others = ["2025-10-22"; "5"; "22"; "8"; "4000"].
Proof. apply coerce_slot_splits_back; [done | by repeat constructor]. Defined.

Lemma contains_app_sep (sep : ascii) (s t : string) :
  Py.contains (String sep "") (s +:+ String sep t) = true.
Proof.
  induction s as [|c s IH].
  - change ("" +:+ String sep t) with (String sep t).
    cbn [Py.contains Py.startswith]. by rewrite Ascii.eqb_refl.
  - rewrite string_app_cons. cbn [Py.contains]. rewrite IH. by rewrite orb_true_r.
Qed.

Lemma quote_plus_no (sep : ascii) (s : string) :
  component_char sep = false →
  string_forall (fun c => negb (Ascii.eqb c sep)) (Urllib.quote_plus s) = true.
Proof.
  intros Hsep. eapply string_forall_impl; [|apply quote_plus_alphabet].
  intros c Hc. apply negb_true_iff, Ascii.eqb_neq. intros ->. congruence.
Qed.

Lemma form_pair_no_amp (key value : string) :
  string_forall (fun c => negb (Ascii.eqb c "&")) (form_pair key value) = true.
Proof.
  unfold form_pair. rewrite !string_forall_app, !quote_plus_no; done.
Qed.

Lemma parse_field_form_pair (key value : string) :
  UrlDecode.parse_field (form_pair key value) = Some (key, value).
Proof.
  unfold UrlDecode.parse_field, form_pair.
  change ("=" +:+ Urllib.quote_plus value) with (String "=" (Urllib.quote_plus value)).
  rewrite contains_app_sep, split_once_app by (by apply quote_plus_no).
  rewrite !unquote_plus_quote_plus.
  destruct (Urllib.quote_plus key); done.
Qed.

Lemma parse_qsl_join (pairs : list (string * string)) :
  UrlDecode.parse_qsl (Py.join "&" (map (fun kv : string * string => form_pair kv.1 kv.2) pairs))
  = pairs.
Proof.
  unfold UrlDecode.parse_qsl.
  induction pairs as [|[k v] [|kv pairs] IH]; [done| |].
  - simpl. rewrite split_no_sep by apply form_pair_no_amp. simpl.
    by rewrite parse_field_form_pair.
  - cbn [map Py.join fst snd].
    match goal with |- context [ "&" +:+ ?x ] => change ("&" +:+ x) with (String "&" x) end.
    rewrite split_app by apply form_pair_no_amp.
    cbn [omap list_omap]. rewrite parse_field_form_pair. f_equal. exact IH.
Qed.

Lemma urlencode_pairs (query : list (string * form_value)) :
  Urllib.urlencode query
  = Py.join "&" (map (fun kv : string * string => form_pair kv.1 kv.2) (query_pairs query)).
Proof.
  unfold Urllib.urlencode, query_pairs. f_equal.
  induction query as [|[k [v|elts]] query IH]; [done| |].
  - simpl. by rewrite IH.
  - simpl. rewrite map_app, IH. f_equal. rewrite map_map. done.
Qed.

(** The body [browser_fetch] sends reads back, as a form, as the payload
    it was built from: the keys of the data in their order, each with the
    string form of its value, whatever characters they hold. *)
Theorem fetch_body_string_reads_back (data : list (string * form_value)) :
  UrlDecode.parse_qsl (fetch_body_string data) = fetch_payload data.
Proof.
  unfold fetch_body_string. rewrite urlencode_pairs, parse_qsl_join.
  unfold query_pairs. induction (fetch_payload data) as [|[k v] l IH]; [done|].
  simpl. by rewrite IH.
Qed.

(** The body [submit_form_to_window] logs reads back, as a form, as the
    fields it was built from, a field that carries a sequence giving one
    pair for each of its elements, under the same key and in their
    order. *)
Theorem submit_form_body_string_reads_back (fields : list (string * form_value)) :
  UrlDecode.parse_qsl (submit_form_body_string fields) = query_pairs fields.
Proof. unfold submit_form_body_string. by rewrite urlencode_pairs, parse_qsl_join. Qed.






Lemma join_forall P (sep : string) (parts : list string) :
  string_forall P sep = true → Forall (fun part => string_forall P part = true) parts →
  string_forall P (Py.join sep parts) = true.
Proof.
  intros Hsep Hparts. induction Hparts as [|part parts Hpart Hrest IH]; [done|].
  destruct parts as [|part' parts]; [done|].
  change (Py.join sep (part :: part' :: parts))
    with (part +:+ sep +:+ Py.join sep (part' :: parts)).
  by rewrite !string_forall_app, Hpart, Hsep, IH.
Qed.

Lemma fetch_body_string_chars (data : list (string * form_value)) :
  string_forall body_char (fetch_body_string data) = true.
Proof.
  unfold fetch_body_string. rewrite urlencode_pairs.
  apply join_forall; [done|]. apply Forall_forall. intros part Hpart.
  apply list_elem_of_fmap in Hpart as ([k v] & -> & _). unfold form_pair.
  rewrite !string_forall_app. cbn [fst snd].
  assert (Hcomponent : ∀ s, string_forall body_char (Urllib.quote_plus s) = true).
  { intros s. eapply string_forall_impl; [|apply quote_plus_alphabet].
    intros c Hc. unfold body_char. by rewrite Hc. }
  by rewrite !Hcomponent.
Qed.

(** A form body is made of letters, digits, the marks [_.-~], the plus
    sign, the percent sign of an escape, the equal sign and the ampersand:
    every other character of a key or of a value is escaped. *)
Theorem fetch_body_string_alphabet (data : list (string * form_value)) :
  string_forall body_char (fetch_body_string data) = true.
Proof. apply fetch_body_string_chars. Qed.

Lemma fetch_body_string_lacks_nul (data : list (string * form_value)) :
  lacks Shell.nul (fetch_body_string data) = true.
Proof.
  unfold lacks. eapply string_forall_impl; [|apply fetch_body_string_chars].
  intros c Hc. apply negb_true_iff, Ascii.eqb_neq. intros ->. by vm_compute in Hc.
Qed.

(** ** The audit line, read back by a shell *)

Lemma plain_not_special (c : ascii) :
  Shell.is_plain c = true →
  Shell.is_blank c = false ∧ Ascii.eqb c squote = false ∧ Ascii.eqb c dquote = false
  ∧ Ascii.eqb c Shell.nul = false.
Proof.
  intros H. split_and!.
  - destruct (Shell.is_blank c) eqn:Hb; [|done].
    unfold Shell.is_blank in Hb. rewrite !orb_true_iff, !N.eqb_eq in Hb.
    rewrite <- (ascii_N_embedding c) in H.
    destruct Hb as [Hb|Hb]; rewrite Hb in H; by vm_compute in H.
  - apply Ascii.eqb_neq. intros ->. by vm_compute in H.
  - apply Ascii.eqb_neq. intros ->. by vm_compute in H.
  - apply Ascii.eqb_neq. intros ->. by vm_compute in H.
Qed.

Lemma read_single (v : string) : ∀ acc rest,
  lacks Shell.nul v = true →
  Shell.read Shell.InSingle (Some acc)
    (Py.replace_char squote squote_escaped v +:+ String squote rest)
  = Shell.read Shell.Unquoted (Some (acc +:+ v)) rest.
Proof.
  induction v as [|c v IH]; intros acc rest Hv.
  - cbn [Py.replace_char].
    change ("" +:+ String squote rest) with (String squote rest).
    cbn [Shell.read]. change (Ascii.eqb squote Shell.nul) with false. cbv iota.
    rewrite Ascii.eqb_refl. by rewrite string_app_nil_r.
  - unfold lacks in Hv. cbn [string_forall] in Hv.
    apply andb_true_iff in Hv as [Hnul Hv]. apply negb_true_iff in Hnul.
    cbn [Py.replace_char]. destruct (Ascii.eqb c squote) eqn:Hc.
    + apply Ascii.eqb_eq in Hc. subst c.
      unfold squote_escaped. rewrite !string_app_cons.
      change ("" +:+ ?x) with x.
      cbn [Shell.read].
      change (Ascii.eqb squote Shell.nul) with false.
      change (Ascii.eqb dquote Shell.nul) with false.
      change (Ascii.eqb squote squote) with true.
      change (Ascii.eqb dquote squote) with false.
      change (Ascii.eqb dquote dquote) with true.
      change (Ascii.eqb squote dquote) with false.
      change (Shell.is_blank dquote) with false.
      change (Shell.is_blank squote) with false.
      change (Shell.is_active squote) with false.
      cbv iota. unfold Shell.push. cbn [default]. unfold id.
      rewrite IH by done. by rewrite string_app_assoc.
    + rewrite string_app_cons. cbn [Shell.read]. rewrite Hnul, Hc.
      unfold Shell.push. cbn [default]. unfold id.
      rewrite IH by done. by rewrite string_app_assoc.
Qed.

Lemma reads_as_quoted (v : string) :
  lacks Shell.nul v = true → reads_as (quote_for_shell v) v.
Proof.
  intros Hv word rest. unfold quote_for_shell.
  rewrite string_app_assoc, string_app_cons.
  change (String squote "" +:+ rest) with (String squote rest).
  cbn [Shell.read].
  change (Ascii.eqb squote Shell.nul) with false.
  change (Shell.is_blank squote) with false.
  change (Ascii.eqb squote squote) with true. cbv iota.
  by apply read_single.
Qed.

Lemma read_plain (w : string) : ∀ word rest,
  string_forall Shell.is_plain w = true →
  Shell.read Shell.Unquoted word (w +:+ rest)
  = Shell.read Shell.Unquoted
      (if Py.truthy w then Some (default "" word +:+ w) else word) rest.
Proof.
  induction w as [|c w IH]; intros word rest; [done|].
  cbn [string_forall]. intros [Hc Hw]%andb_true_iff.
  destruct (plain_not_special c Hc) as (Hb & Hs & Hd & Hn).
  rewrite string_app_cons. cbn [Shell.read]. rewrite Hn, Hb, Hs, Hd, Hc.
  rewrite (IH _ _ Hw). unfold Shell.push. cbn [default]. unfold id.
  destruct w as [|d w]; [done|].
  change (Py.truthy (String c (String d w))) with true.
  change (Py.truthy (String d w)) with true. cbv iota.
  by rewrite string_app_assoc.
Qed.

Lemma reads_as_plain (w : string) : plain_word w = true → reads_as w w.
Proof.
  unfold plain_word. intros [Ht Hw]%andb_true_iff word rest.
  by rewrite read_plain, Ht.
Qed.

Lemma read_join (texts values : list string) :
  Forall2 reads_as texts values →
  Shell.words (Py.join " " texts) = Some values.
Proof.
  unfold Shell.words. intros H.
  induction H as [|text value texts values Hone Hrest IH]; [done|].
  destruct Hrest as [|text' value' texts values Hnext Hrest].
  - cbn [Py.join]. rewrite <- (string_app_nil_r text), Hone. done.
  - change (Py.join " " (text :: text' :: texts))
      with (text +:+ String " " (Py.join " " (text' :: texts))).
    rewrite Hone. cbn [Shell.read].
    change (Ascii.eqb " " Shell.nul) with false.
    change (Shell.is_blank " ") with true. cbv iota.
    rewrite IH. done.
Qed.

Lemma without_nul_kept (headers : list (string * option string)) (key value : string) :
  without_nul headers = true → (key, value) ∈ kept_headers headers →
  lacks Shell.nul (key +:+ ": " +:+ value) = true.
Proof.
  intros Hall Hin. apply kept_headers_spec in Hin as [Hin _].
  unfold without_nul in Hall. rewrite forallb_forall in Hall.
  specialize (Hall _ (proj1 (list_elem_of_In _ _) Hin)). cbn in Hall.
  apply andb_true_iff in Hall as [Hkey Hvalue].
  unfold lacks in *. by rewrite !string_forall_app, Hkey, Hvalue.
Qed.

Lemma reads_as_curl_parts (method url : string) (headers : list (string * option string))
    (body : option string) :
  plain_word (Py.upper method) = true →
  lacks Shell.nul url = true → without_nul headers = true →
  lacks Shell.nul (default "" body) = true →
  Forall2 reads_as (curl_parts method url headers body) (curl_argv method url headers body).
Proof.
  intros Hmethod Hurl Hheaders Hbody.
  rewrite curl_parts_shape. unfold curl_argv, curl_head, curl_tail.
  assert (Hcurl : reads_as "curl" "curl") by (by apply reads_as_plain).
  assert (HX : reads_as "-X" "-X") by (by apply reads_as_plain).
  assert (HH : reads_as "-H" "-H") by (by apply reads_as_plain).
  assert (Hdata : reads_as "--data-binary" "--data-binary") by (by apply reads_as_plain).
  apply Forall2_app; [|apply Forall2_app; [|apply Forall2_app]].
  - destruct (String.eqb (Py.upper method) "GET"); repeat constructor; try done.
    by apply reads_as_plain.
  - pose proof (without_nul_kept headers) as Hkept. specialize (fun k v => Hkept k v Hheaders).
    induction (kept_headers headers) as [|[k v] kept IH]; [constructor|].
    simpl. constructor; [done|]. constructor.
    + apply reads_as_quoted, Hkept. by left.
    + apply IH. intros k' v' Hin. apply Hkept. by right.
  - destruct (Py.truthy_opt body); repeat constructor; [done | by apply reads_as_quoted].
  - repeat constructor. by apply reads_as_quoted.
Qed.

(** A POSIX shell reads the audit line of a request as the command [curl]
    with the arguments the line was built from: the method, the kept
    headers, the body and the URL, each as one word, whatever characters
    they hold other than NUL, which no argument of a command can hold. *)
Theorem shell_reads_curl_command (method url : string)
    (headers : list (string * option string)) (body : option string) :
  plain_word (Py.upper method) = true →
  lacks Shell.nul url = true → without_nul headers = true →
  lacks Shell.nul (default "" body) = true →
  Shell.words (build_curl_command method url headers body)
  = Some (curl_argv method url headers body).
Proof.
  intros Hmethod Hurl Hheaders Hbody. unfold build_curl_command.
  apply read_join. by apply reads_as_curl_parts.
Qed.

Lemma shell_reads_curl_command_witness :
  Shell.words
    (build_curl_command "post" "https://h/p?a='b c'"
       [("Referer", Some "it's"); ("Host", Some "h"); ("X", None)] (Some "k=v w"))
  = Some ["curl"; "-X"; "POST"; "-H"; "Referer: it's"; "--data-binary"; "k=v w";
          "https://h/p?a='b c'"].
Proof. by apply shell_reads_curl_command. Defined.

(** [quote_for_shell] gives one shell word that stands for the value,
    for a value without a NUL character. *)
Theorem shell_reads_quote_for_shell (value : string) :
  lacks Shell.nul value = true →
  Shell.words (quote_for_shell value) = Some [value].
Proof.
  intros Hvalue. apply (read_join [quote_for_shell value] [value]).
  repeat constructor. by apply reads_as_quoted.
Qed.

Lemma shell_reads_quote_for_shell_witness :
  Shell.words (quote_for_shell "it's a 'test' $HOME `x` \\ *") = Some ["it's a 'test' $HOME `x` \\ *"].
Proof. by apply shell_reads_quote_for_shell. Defined.

(** ** Cookies *)

Lemma rev_app_forall P (s : string) : ∀ t,
  string_forall P (String.rev_app s t) = string_forall P s && string_forall P t.
Proof.
  induction s as [|c s IH]; intros t; [done|].
  cbn [String.rev_app string_forall]. rewrite IH. cbn [string_forall].
  by rewrite andb_assoc, (andb_comm (P c)).
Qed.

Lemma rev_forall P (s : string) : string_forall P (String.rev s) = string_forall P s.
Proof. unfold String.rev. by rewrite rev_app_forall, andb_true_r. Qed.

Lemma list_ascii_rev_app (s : string) : ∀ t,
  list_ascii_of_string (String.rev_app s t)
  = rev (list_ascii_of_string s) ++ list_ascii_of_string t.
Proof.
  induction s as [|c s IH]; intros t; [done|].
  cbn [String.rev_app list_ascii_of_string rev]. rewrite IH. cbn [list_ascii_of_string].
  by rewrite <- app_assoc.
Qed.

Lemma list_ascii_rev (s : string) :
  list_ascii_of_string (String.rev s) = rev (list_ascii_of_string s).
Proof. unfold String.rev. rewrite list_ascii_rev_app. apply app_nil_r. Qed.

Lemma list_ascii_app (s t : string) :
  list_ascii_of_string (s +:+ t) = list_ascii_of_string s ++ list_ascii_of_string t.
Proof.
  induction s as [|c s IH]; [done|].
  rewrite string_app_cons. cbn [list_ascii_of_string app]. by rewrite IH.
Qed.

Lemma list_ascii_inj (s t : string) :
  list_ascii_of_string s = list_ascii_of_string t → s = t.
Proof.
  intros H. rewrite <- (string_of_list_ascii_of_string s), H.
  apply string_of_list_ascii_of_string.
Qed.

Lemma string_rev_involutive (s : string) : String.rev (String.rev s) = s.
Proof. apply list_ascii_inj. by rewrite !list_ascii_rev, rev_involutive. Qed.

Lemma string_rev_app (s t : string) :
  String.rev (s +:+ t) = String.rev t +:+ String.rev s.
Proof.
  apply list_ascii_inj. by rewrite list_ascii_rev, !list_ascii_app, !list_ascii_rev, rev_app_distr.
Qed.

(** [strip_start] drops one whitespace character after the other. *)
Lemma strip_start_unfold (backwards : bool) (s : string) :
  Cookie.strip_start backwards s
  = match skip_space backwards s with
    | Some rest => Cookie.strip_start backwards rest
    | None => s
    end.
Proof.
  destruct s as [|a [|b [|c s]]]; cbn [Cookie.strip_start skip_space]; [done|..].
  - by destruct (Cookie.is_space a).
  - destruct (Cookie.is_space a); [done|]. by destruct (Cookie.space2 backwards a b).
  - destruct (Cookie.is_space a); [done|].
    destruct (Cookie.space2 backwards a b); [done|].
    by destruct (Cookie.space3 backwards a b c).
Qed.

Lemma skip_space_prefix (backwards : bool) (s rest : string) :
  skip_space backwards s = Some rest →
  ∃ pre, s = pre +:+ rest ∧ (String.length rest < String.length s)%nat.
Proof.
  destruct s as [|a [|b [|c s]]]; cbn [skip_space]; [done|..].
  - destruct (Cookie.is_space a); [|done]. intros [= <-].
    exists (String a ""). split; [done | cbn; lia].
  - destruct (Cookie.is_space a).
    { intros [= <-]. exists (String a ""). split; [done | cbn; lia]. }
    destruct (Cookie.space2 backwards a b); [|done]. intros [= <-].
    exists (String a (String b "")). split; [done | cbn; lia].
  - destruct (Cookie.is_space a).
    { intros [= <-]. exists (String a ""). split; [done | cbn; lia]. }
    destruct (Cookie.space2 backwards a b).
    { intros [= <-]. exists (String a (String b "")). split; [done | cbn; lia]. }
    destruct (Cookie.space3 backwards a b c); [|done]. intros [= <-].
    exists (String a (String b (String c ""))). split; [done | cbn; lia].
Qed.

(** A whitespace character a string starts with is one the string starts
    with when it is continued. *)
Lemma skip_space_app (backwards : bool) (s rest more : string) :
  skip_space backwards s = Some rest →
  skip_space backwards (s +:+ more) = Some (rest +:+ more).
Proof.
  destruct s as [|a [|b [|c s]]]; cbn [skip_space]; [done|..];
    rewrite ?string_app_cons; cbn [skip_space].
  - destruct (Cookie.is_space a); [|done]. by intros [= <-].
  - destruct (Cookie.is_space a); [by intros [= <-]|].
    destruct (Cookie.space2 backwards a b); [|done]. by intros [= <-].
  - destruct (Cookie.is_space a); [by intros [= <-]|].
    destruct (Cookie.space2 backwards a b); [by intros [= <-]|].
    destruct (Cookie.space3 backwards a b c); [|done]. by intros [= <-].
Qed.

(** The principle [strip_start] is reasoned with. *)
Lemma strip_start_ind (backwards : bool) (P : string → string → Prop) :
  (∀ s, skip_space backwards s = None → P s s) →
  (∀ s rest r, skip_space backwards s = Some rest → P rest r → P s r) →
  ∀ s, P s (Cookie.strip_start backwards s).
Proof.
  intros Hbase Hstep s.
  remember (String.length s) as n eqn:Hn. revert s Hn.
  induction n as [n IH] using lt_wf_ind. intros s ->.
  rewrite strip_start_unfold. destruct (skip_space backwards s) as [rest|] eqn:Hs.
  - apply (Hstep s rest); [done|].
    destruct (skip_space_prefix _ _ _ Hs) as (pre & _ & Hlt). by apply (IH _ Hlt).
  - by apply Hbase.
Qed.

Lemma strip_start_stops (backwards : bool) (s : string) :
  skip_space backwards (Cookie.strip_start backwards s) = None.
Proof. apply (strip_start_ind backwards (fun _ r => skip_space backwards r = None)); auto. Qed.

Lemma strip_start_suffix (backwards : bool) (s : string) :
  ∃ pre, s = pre +:+ Cookie.strip_start backwards s.
Proof.
  apply (strip_start_ind backwards (fun s r => ∃ pre, s = pre +:+ r)).
  - intros s' _. by exists "".
  - intros s' rest r Hs [pre ->].
    destruct (skip_space_prefix _ _ _ Hs) as (pre' & -> & _).
    exists (pre' +:+ pre). by rewrite string_app_assoc.
Qed.

Lemma strip_start_fixed (backwards : bool) (s : string) :
  skip_space backwards s = None → Cookie.strip_start backwards s = s.
Proof. intros H. by rewrite strip_start_unfold, H. Qed.

Lemma strip_start_forall (backwards : bool) P (s : string) :
  string_forall P s = true → string_forall P (Cookie.strip_start backwards s) = true.
Proof.
  destruct (strip_start_suffix backwards s) as [pre Hs]. rewrite Hs at 1.
  rewrite string_forall_app. by intros [_ ?]%andb_true_iff.
Qed.

Lemma strip_forall P (s : string) :
  string_forall P s = true → string_forall P (Cookie.strip s) = true.
Proof.
  intros H. unfold Cookie.strip, Cookie.lstrip.
  rewrite rev_forall. apply strip_start_forall. rewrite rev_forall.
  by apply strip_start_forall.
Qed.

(** [strip] leaves a whitespace character neither at the start nor at the
    end. *)
Lemma strip_stops (s : string) :
  skip_space false (Cookie.strip s) = None
  ∧ skip_space true (String.rev (Cookie.strip s)) = None.
Proof.
  unfold Cookie.strip, Cookie.lstrip.
  set (a := Cookie.strip_start false s).
  set (b := Cookie.strip_start true (String.rev a)).
  split; [|rewrite string_rev_involutive; apply strip_start_stops].
  destruct (strip_start_suffix true (String.rev a)) as [pre Ha]. fold b in Ha.
  apply (f_equal String.rev) in Ha. rewrite string_rev_involutive, string_rev_app in Ha.
  destruct (skip_space false (String.rev b)) as [rest|] eqn:Hskip; [|done].
  pose proof (skip_space_app false _ _ (String.rev pre) Hskip) as Hmore.
  rewrite <- Ha in Hmore. unfold a in Hmore. by rewrite strip_start_stops in Hmore.
Qed.

Lemma strip_strip (s : string) : Cookie.strip (Cookie.strip s) = Cookie.strip s.
Proof.
  destruct (strip_stops s) as [Hstart Hend].
  unfold Cookie.strip at 1. unfold Cookie.lstrip.
  by rewrite (strip_start_fixed false _ Hstart), (strip_start_fixed true _ Hend),
    string_rev_involutive.
Qed.

Lemma split_lacks (sep : ascii) (s : string) :
  Forall (fun chunk => lacks sep chunk = true) (Cookie.split sep s).
Proof.
  induction s as [|c s IH]; [by repeat constructor|]. cbn [Cookie.split].
  destruct (Ascii.eqb c sep) eqn:Hc; [by constructor|].
  destruct (Cookie.split sep s) as [|chunk chunks]; [by repeat constructor; cbn; rewrite Hc|].
  inversion_clear IH as [|? ? Hchunk Hchunks]. constructor; [|done].
  unfold lacks in *. cbn [string_forall]. by rewrite Hc, Hchunk.
Qed.

Lemma split_forall P (sep : ascii) (s : string) :
  string_forall P s = true →
  Forall (fun chunk => string_forall P chunk = true) (Cookie.split sep s).
Proof.
  induction s as [|c s IH]; [by repeat constructor|]. cbn [Cookie.split string_forall].
  intros [Hc Hs]%andb_true_iff. specialize (IH Hs).
  destruct (Ascii.eqb c sep); [by constructor|].
  destruct (Cookie.split sep s) as [|chunk chunks];
    [by repeat constructor; cbn; rewrite Hc|].
  inversion_clear IH as [|? ? Hchunk Hchunks]. constructor; [|done].
  cbn [string_forall]. by rewrite Hc, Hchunk.
Qed.

Lemma split_once_forall P (sep : ascii) (s : string) :
  string_forall P s = true →
  string_forall P (Cookie.split_once sep s).1 = true
  ∧ string_forall P (Cookie.split_once sep s).2 = true.
Proof.
  induction s as [|c s IH]; [done|]. cbn [Cookie.split_once string_forall].
  intros [Hc Hs]%andb_true_iff. destruct (Ascii.eqb c sep); [done|].
  destruct (IH Hs) as [Hn Hv]. destruct (Cookie.split_once sep s) as [name value].
  cbn [fst snd string_forall] in *. by rewrite Hc, Hn.
Qed.

Lemma split_once_lacks (sep : ascii) (s : string) :
  lacks sep (Cookie.split_once sep s).1 = true.
Proof.
  induction s as [|c s IH]; [done|]. cbn [Cookie.split_once].
  destruct (Ascii.eqb c sep) eqn:Hc; [done|].
  destruct (Cookie.split_once sep s) as [name value].
  unfold lacks in *. cbn [fst string_forall] in *. by rewrite Hc, IH.
Qed.

(** A string without the character [=] has no substring [=]. *)
Lemma lacks_contains (sep : ascii) (s : string) :
  lacks sep s = true → Py.contains (String sep "") s = false.
Proof.
  induction s as [|c s IH]; [done|]. unfold lacks. cbn [string_forall Py.contains Py.startswith].
  intros [Hc Hs]%andb_true_iff. apply negb_true_iff in Hc.
  rewrite Ascii.eqb_sym, Hc. cbn [andb orb]. by apply IH.
Qed.

Lemma parse_cookie_header_entries (cookie_header : string) :
  Cookie.parse_cookie_header cookie_header
  = foldl set_cookie [] (cookie_entries cookie_header).
Proof.
  unfold Cookie.parse_cookie_header, cookie_entries.
  generalize (@nil (string * string)).
  induction (Cookie.split ";" cookie_header) as [|chunk chunks IH]; intros cookies; [done|].
  cbn [foldl omap list_omap]. rewrite IH. unfold cookie_of_chunk.
  destruct (negb (Py.truthy (Cookie.strip chunk)) || negb (Py.contains "=" (Cookie.strip chunk)));
    [done|].
  by destruct (Cookie.split_once "=" (Cookie.strip chunk)).
Qed.

Lemma dict_set_keys (d : list (string * string)) (key value : string) :
  (Cookie.dict_set d key value).*1 = if bool_decide (key ∈ d.*1) then d.*1 else d.*1 ++ [key].
Proof.
  induction d as [|[k v] d IH]; [done|]. cbn [Cookie.dict_set].
  destruct (String.eqb k key) eqn:Hk.
  - apply String.eqb_eq in Hk. subst k. cbn [fmap list_fmap fst].
    rewrite bool_decide_eq_true_2; [done | by left].
  - apply String.eqb_neq in Hk. cbn [fmap list_fmap fst] in *. rewrite IH.
    case_bool_decide as Hin.
    + rewrite bool_decide_eq_true_2; [done | by right].
    + rewrite bool_decide_eq_false_2; [done|].
      rewrite elem_of_cons. intros [?|?]; congruence.
Qed.

Lemma dict_set_NoDup (d : list (string * string)) (key value : string) :
  NoDup d.*1 → NoDup (Cookie.dict_set d key value).*1.
Proof.
  intros Hd. rewrite dict_set_keys. case_bool_decide as Hin; [done|].
  apply NoDup_app. split_and!; [done | | apply NoDup_singleton].
  intros k Hk ->%list_elem_of_singleton. done.
Qed.

Lemma dict_set_elem (d : list (string * string)) (key value : string) (kv : string * string) :
  kv ∈ Cookie.dict_set d key value → kv ∈ d ∨ kv = (key, value).
Proof.
  induction d as [|[k v] d IH]; cbn [Cookie.dict_set].
  - intros ->%list_elem_of_singleton. by right.
  - destruct (String.eqb k key) eqn:Hk.
    + apply String.eqb_eq in Hk. subst k. rewrite !elem_of_cons. intros [->|H]; auto.
    + rewrite !elem_of_cons. intros [->|H]; [auto|]. destruct (IH H); auto.
Qed.

Lemma dict_set_to_map (d : list (string * string)) (key value : string) :
  (list_to_map (Cookie.dict_set d key value) : gmap string string)
  = <[key := value]> (list_to_map d).
Proof.
  induction d as [|[k v] d IH]; [done|]. cbn [Cookie.dict_set].
  destruct (String.eqb k key) eqn:Hk.
  - apply String.eqb_eq in Hk. subst k. rewrite !list_to_map_cons. by rewrite insert_insert_eq.
  - apply String.eqb_neq in Hk. rewrite !list_to_map_cons, IH. by apply insert_insert_ne.
Qed.

Lemma cookies_NoDup (entries : list (string * string)) : ∀ d, NoDup d.*1 → NoDup (foldl set_cookie d entries).*1.
Proof.
  induction entries as [|kv entries IH]; intros d Hd; [done|].
  cbn [foldl]. apply IH. by apply dict_set_NoDup.
Qed.

Lemma cookies_elem (entries : list (string * string)) : ∀ d kv, kv ∈ foldl set_cookie d entries → kv ∈ d ∨ kv ∈ entries.
Proof.
  induction entries as [|[k v] entries IH]; intros d kv; cbn [foldl]; [auto|].
  intros [H|H]%IH; [|right; by right].
  destruct (dict_set_elem _ _ _ _ H) as [?| ->]; [auto|]. right. by left.
Qed.

Lemma cookies_lookup (entries : list (string * string)) (name : string) : ∀ d,
  (list_to_map (foldl set_cookie d entries) : gmap string string) !! name
  = match last (filter (fun kv : string * string => kv.1 = name) entries) with
    | Some kv => Some kv.2
    | None => (list_to_map d : gmap string string) !! name
    end.
Proof.
  induction entries as [|[k v] entries IH] using rev_ind; intros d; [done|].
  rewrite foldl_app, filter_app. cbn [foldl]. unfold set_cookie at 1. cbn [fst snd].
  rewrite dict_set_to_map. rewrite last_app.
  rewrite filter_cons, filter_nil. cbn [fst].
  case_decide as Hk.
  - subst k. cbn [last snd]. by rewrite lookup_insert_eq.
  - cbn [last]. rewrite lookup_insert_ne by done. apply IH.
Qed.

Lemma cookie_of_chunk_fields (chunk name value : string) :
  lacks ";" chunk = true →
  cookie_of_chunk chunk = Some (name, value) →
  Cookie.strip name = name ∧ Cookie.strip value = value
  ∧ lacks "=" name = true ∧ lacks ";" name = true ∧ lacks ";" value = true.
Proof.
  intros Hchunk. unfold cookie_of_chunk.
  destruct (negb _ || negb _); [done|].
  pose proof (split_once_lacks "=" (Cookie.strip chunk)) as Heq.
  destruct (split_once_forall (fun c => negb (Ascii.eqb c ";")) "=" (Cookie.strip chunk))
    as [Hn Hv]; [by apply strip_forall|].
  destruct (Cookie.split_once "=" (Cookie.strip chunk)) as [n v]. cbn [fst snd] in *.
  intros [= <- <-]. rewrite !strip_strip.
  split_and!; try done; by apply strip_forall.
Qed.

(** No two cookies of the result have the same name. *)
Theorem parse_cookie_header_names_distinct (cookie_header : string) :
  NoDup (Cookie.parse_cookie_header cookie_header).*1.
Proof.
  rewrite parse_cookie_header_entries. apply cookies_NoDup. constructor.
Qed.

(** Every cookie of the result has a name and a value without a space at
    either end; the name has no equal sign, and neither has a semicolon. *)
Theorem parse_cookie_header_fields (cookie_header name value : string) :
  (name, value) ∈ Cookie.parse_cookie_header cookie_header →
  Cookie.strip name = name ∧ Cookie.strip value = value
  ∧ lacks "=" name = true ∧ lacks ";" name = true ∧ lacks ";" value = true.
Proof.
  rewrite parse_cookie_header_entries.
  intros [H|H]%cookies_elem; [by apply elem_of_nil in H|].
  unfold cookie_entries in H. apply list_elem_of_omap in H as (chunk & Hin & Hchunk).
  apply (cookie_of_chunk_fields chunk); [|done].
  pose proof (split_lacks ";" cookie_header) as Hall.
  rewrite Forall_forall in Hall. by apply Hall.
Qed.

Lemma parse_cookie_header_fields_witness :
  Cookie.strip "lang" = "lang" ∧ Cookie.strip "ko" = "ko"
  ∧ lacks "=" "lang" = true ∧ lacks ";" "lang" = true ∧ lacks ";" "ko" = true.
Proof.
  apply (parse_cookie_header_fields "sid=abc;  lang = ko ; " "lang" "ko").
  vm_compute. right. left.
Defined.

(** The value of a name is that of the last chunk that gives it one. *)
Theorem parse_cookie_header_last_value (cookie_header name : string) :
  (list_to_map (Cookie.parse_cookie_header cookie_header) : gmap string string) !! name
  = snd <$> last (filter (fun kv : string * string => kv.1 = name) (cookie_entries cookie_header)).
Proof.
  rewrite parse_cookie_header_entries, cookies_lookup.
  by destruct (last _).
Qed.

(** A header without an equal sign names no cookie. *)
Theorem parse_cookie_header_without_equal_sign (cookie_header : string) :
  lacks "=" cookie_header = true → Cookie.parse_cookie_header cookie_header = [].
Proof.
  intros Hlacks. rewrite parse_cookie_header_entries. unfold cookie_entries.
  pose proof (split_forall _ ";" cookie_header Hlacks) as Hall.
  induction Hall as [|chunk chunks Hchunk _ IH]; [done|].
  cbn [omap list_omap]. unfold cookie_of_chunk at 1.
  rewrite (lacks_contains "=" (Cookie.strip chunk)) by (by apply strip_forall).
  by rewrite orb_true_r.
Qed.

Lemma parse_cookie_header_without_equal_sign_witness :
  Cookie.parse_cookie_header "session; ;path" = [].
Proof. by apply parse_cookie_header_without_equal_sign. Defined.

(** ** The request executor *)

(** [browser_fetch] returns the reply it receives whenever that is a dict
    without an error, whatever status it carries; it raises in every other
    case. *)
Theorem browser_fetch_returns (reply : exn + fetch_reply) (url : string)
    (data : list (string * form_value)) (headers : list (string * option string))
    (t : float) (p : process) (d : fetch_dict) :
  (browser_fetch reply url data headers t p).1 = inr d
  ↔ returned (timeout_ms t) = true ∧ reply = inr (ReplyDict d)
    ∧ Py.truthy_opt (fd_error d) = false.
Proof.
  unfold browser_fetch, mbind, M_bind, append_curl_log, eprint, lift, driver, raise, mret, M_ret.
  destruct (timeout_ms t) as [e|ms]; cbn [returned].
  { destruct (CURL_LOG_FILE p); simpl; (split; [done | by intros [? _]]). }
  destruct (CURL_LOG_FILE p); simpl;
    destruct reply as [e|[d'|]]; simpl;
    try (split; [done | by intros (_ & [=] & _)]);
    destruct (fd_error d') as [err|] eqn:Herr; simpl;
    try destruct (Py.truthy err) eqn:Ht; simpl;
    (split; [intros [= <-]; by rewrite ?Herr, ?Ht
            |intros (_ & [= <-] & Hd); rewrite ?Herr in Hd; simpl in Hd; congruence]).
Qed.

Lemma without_nul_allowed (headers : list (string * option string)) :
  without_nul headers = true → without_nul (allowed_headers headers) = true.
Proof.
  unfold without_nul, allowed_headers. rewrite !forallb_forall.
  intros Hall kv Hin. apply Hall.
  apply list_elem_of_In in Hin. apply list_elem_of_In.
  by apply list_elem_of_filter in Hin as [_ Hin].
Qed.

(** With an audit log set, a request appends one line to it, whatever
    comes of the request; for a URL and headers without a NUL character,
    a shell reads the line as the [curl] command of the request made: same
    URL, same body. *)
Theorem browser_fetch_audit_line (reply : exn + fetch_reply) (url : string)
    (data : list (string * form_value)) (headers : list (string * option string))
    (t : float) (p : process) (file : string) :
  CURL_LOG_FILE p = Some file →
  lacks Shell.nul url = true → without_nul headers = true →
  ∃ line,
    curl_log (browser_fetch reply url data headers t p).2 = curl_log p ++ [line]
    ∧ Shell.words line
      = Some (curl_argv "POST" url (allowed_headers headers) (Some (fetch_body_string data)))
    ∧ ∀ ms, timeout_ms t = inr ms →
        calls (browser_fetch reply url data headers t p).2
        = calls p ++ [CFetch url (fetch_body_string data) ms].
Proof.
  intros Hfile Hurl Hheaders.
  exists (build_curl_command "POST" url (allowed_headers headers) (Some (fetch_body_string data))).
  split_and!.
  - unfold browser_fetch, mbind, M_bind, append_curl_log, eprint, lift, driver, raise, mret, M_ret.
    rewrite Hfile. simpl.
    destruct (timeout_ms t) as [e|ms]; [done|]. simpl.
    destruct reply as [e|[d|]]; simpl; try reflexivity;
      destruct (fd_error d) as [err|]; simpl; try reflexivity;
      destruct (Py.truthy err); reflexivity.
  - unfold build_curl_command. apply read_join, reads_as_curl_parts; [done..| |].
    + by apply without_nul_allowed.
    + apply fetch_body_string_lacks_nul.
  - intros ms Hms. by apply browser_fetch_timer.
Qed.

Lemma browser_fetch_audit_line_witness :
  ∃ line,
    curl_log (browser_fetch (response 500 []) LOGIN_URL [("userid", VStr "kim lee")]
                (form_headers LOGIN_URL) 15 (set_log_file (Some "curl.log") initial_process)).2
    = [] ++ [line]
    ∧ Shell.words line
      = Some (curl_argv "POST" LOGIN_URL (allowed_headers (form_headers LOGIN_URL))
                (Some (fetch_body_string [("userid", VStr "kim lee")])))
    ∧ ∀ ms, timeout_ms 15 = inr ms →
        calls (browser_fetch (response 500 []) LOGIN_URL [("userid", VStr "kim lee")]
                 (form_headers LOGIN_URL) 15 (set_log_file (Some "curl.log") initial_process)).2
        = [] ++ [CFetch LOGIN_URL (fetch_body_string [("userid", VStr "kim lee")]) ms].
Proof.
  apply (browser_fetch_audit_line _ _ _ _ _ (set_log_file (Some "curl.log") initial_process)
           "curl.log"); reflexivity.
Defined.

(** ** The popup wait *)

Section Windows.
Context {I : process → Prop} {allowed : call → Prop} `{!Stable I allowed}.
Hypothesis every_call : ∀ c, allowed c.

(** Reading a property of a window: a [WebDriverException] gives the
    empty string. *)
Lemma read_or_empty_spec (c : call) (r : exn + string) :
  spec I (try_except (driver c r) is_WebDriverException (fun _ => mret ""))
    (fun s => s = match r with inr v => v | inl _ => "" end
              ∧ tolerated (failure r) = true)
    (fun e => r = inl e ∧ is_WebDriverException e = false).
Proof.
  apply (spec_try_except _ _ _ _ (fun e => r = inl e)).
  - apply spec_driver; [done | by intros a -> | done].
  - intros e -> He. by apply spec_ret.
  - done.
Qed.

Lemma switch_spec (o : window_obs) :
  spec I (try_except (driver_ (CSwitchToWindow (obs_handle o)) (obs_switch o);; mret true)
            is_WebDriverException (fun _ => mret false))
    (fun switched => if switched then obs_switch o = None
                     else ∃ e, obs_switch o = Some e ∧ is_WebDriverException e = true)
    (fun e => obs_switch o = Some e ∧ is_WebDriverException e = false).
Proof.
  apply (spec_try_except _ _ _ _ (fun e => obs_switch o = Some e)).
  - eapply spec_bind; [by apply spec_driver__sp|]. intros [] Hnone. by apply spec_ret.
  - intros e He Hc. apply spec_ret. eauto.
  - done.
Qed.

(** The handle [inspect_new_handles] stops at is that of a new window
    showing the popup; it passes over the others. *)
Lemma inspect_new_handles_spec (known_handles : list string) (target_name : string)
    (current : list window_obs) :
  spec I (inspect_new_handles known_handles target_name current)
    (fun found =>
       match found with
       | Some handle =>
           ∃ o, o ∈ current ∧ obs_handle o = handle ∧ (handle ∉ known_handles)
                ∧ payment_window target_name o = true
       | None => forallb (passed_over known_handles target_name) current = true
       end)
    (fun _ => forallb (passed_over known_handles target_name) current = false).
Proof.
  induction current as [|o rest IH]; cbn [inspect_new_handles forallb].
  { by apply spec_ret. }
  assert (Hrest : passed_over known_handles target_name o = true →
            spec I (inspect_new_handles known_handles target_name rest)
              (fun found =>
                 match found with
                 | Some handle =>
                     ∃ o', o' ∈ o :: rest ∧ obs_handle o' = handle ∧ (handle ∉ known_handles)
                           ∧ payment_window target_name o' = true
                 | None => passed_over known_handles target_name o
                           && forallb (passed_over known_handles target_name) rest = true
                 end)
              (fun _ => passed_over known_handles target_name o
                        && forallb (passed_over known_handles target_name) rest = false)).
  { intros ->. eapply spec_conseq; [exact IH | |]; [|done].
    intros [handle|]; [|done]. intros (o' & Hin & H). exists o'. split; [by right | done]. }
  assert (Hfail : passed_over known_handles target_name o = false →
            passed_over known_handles target_name o
            && forallb (passed_over known_handles target_name) rest = false).
  { by intros ->. }
  case_bool_decide as Hknown.
  { apply Hrest. unfold passed_over. by rewrite bool_decide_eq_true_2. }
  assert (Hover : passed_over known_handles target_name o
                  = match obs_switch o with
                    | Some e => is_WebDriverException e
                    | None =>
                        tolerated (failure (obs_name o)) && tolerated (failure (obs_url o))
                        && negb (payment_window target_name o)
                    end).
  { unfold passed_over. by rewrite bool_decide_eq_false_2. }
  eapply spec_bind.
  { eapply spec_weaken_exn; [apply switch_spec|].
    intros e [He Hclass]. apply Hfail. by rewrite Hover, He. }
  intros [|]; cbn [negb].
  - intros Hswitch. rewrite Hswitch in Hover.
    eapply spec_bind.
    { eapply spec_weaken_exn; [apply read_or_empty_spec|].
      intros e [He Hclass]. apply Hfail. rewrite Hover, He. cbn [failure tolerated].
      by rewrite Hclass. }
    intros window_name [-> Hname]. rewrite Hname in Hover.
    eapply spec_bind.
    { eapply spec_weaken_exn; [apply read_or_empty_spec|].
      intros e [He Hclass]. apply Hfail. rewrite Hover, He. cbn [failure tolerated].
      by rewrite Hclass. }
    intros current_url [-> Hurl]. rewrite Hurl in Hover.
    fold (name_seen o) (url_seen o).
    assert (Hpw : payment_window target_name o
                  = (String.eqb (name_seen o) target_name
                     || Py.contains "spay.kcp.co.kr" (url_seen o))).
    { unfold payment_window. by rewrite Hswitch. }
    rewrite Hpw in Hover.
    destruct (String.eqb (name_seen o) target_name || Py.contains "spay.kcp.co.kr" (url_seen o))
      eqn:Hmatch.
    + apply spec_ret. exists o. split_and!; [by left | done | done | done].
    + by apply Hrest.
  - intros (e & He & Hclass). apply Hrest. by rewrite Hover, He.
Qed.

Lemma payment_window_not_passed_over (known_handles : list string) (target_name : string)
    (o : window_obs) :
  obs_handle o ∉ known_handles → payment_window target_name o = true →
  passed_over known_handles target_name o = false.
Proof.
  intros Hnew Hpw. unfold passed_over. rewrite bool_decide_eq_false_2 by done.
  rewrite Hpw. unfold payment_window in Hpw.
  destruct (obs_switch o); [done|]. by rewrite andb_false_r.
Qed.

Lemma poll_payment_window_spec (known_handles : list string) (target_name : string)
    (rounds : list (exn + list window_obs)) :
  spec I (poll_payment_window known_handles target_name rounds)
    (fun found =>
       match found with
       | Some handle =>
           Py.truthy handle = true
           ∧ ∃ current o, inr current ∈ rounds ∧ o ∈ current ∧ obs_handle o = handle
                          ∧ (handle ∉ known_handles) ∧ payment_window target_name o = true
       | None => True
       end
       ∧ (every_window (passed_over known_handles target_name) rounds = true → found = None))
    (fun _ => every_window (passed_over known_handles target_name) rounds = false).
Proof.
  induction rounds as [|round later IH]; cbn [poll_payment_window every_window forallb].
  { by apply spec_ret. }
  eapply spec_bind.
  { apply spec_driver_sp; [done|]. by intros e ->. }
  intros current ->.
  eapply spec_bind.
  { eapply spec_weaken_exn; [apply inspect_new_handles_spec|].
    intros e ->. done. }
  intros [handle|] Hfound; cbn [Py.truthy_opt].
  - destruct Hfound as (o & Hin & Hhandle & Hnew & Hpw).
    assert (Hover : forallb (passed_over known_handles target_name) current = false).
    { apply not_true_is_false. rewrite forallb_forall. intros Hall.
      specialize (Hall o (proj1 (list_elem_of_In _ _) Hin)).
      rewrite payment_window_not_passed_over in Hall; [done | by rewrite Hhandle | done]. }
    rewrite Hover. cbn [andb].
    destruct (Py.truthy handle) eqn:Htruthy.
    + apply spec_ret. split; [|done]. split; [done|].
      exists current, o. split_and!; try done. by left.
    + eapply spec_bind; [by apply (spec_driver_ _ _ (fun _ => True))|]. intros [] _.
      eapply spec_conseq; [exact IH | | done].
      intros [handle'|] [Hsome _]; [|done]. split; [|done].
      destruct Hsome as (Ht & current' & o' & Hin' & H). split; [done|].
      exists current', o'. split; [by right | done].
  - rewrite Hfound. cbn [andb].
    eapply spec_bind; [by apply (spec_driver_ _ _ (fun _ => True))|]. intros [] _.
    eapply spec_conseq; [exact IH | | done].
    intros [handle'|] [Hsome Hnone]; [|done]. split; [|done].
    destruct Hsome as (Ht & current' & o' & Hin' & H). split; [done|].
    exists current', o'. split; [by right | done].
Qed.

Lemma wait_for_payment_window_spec (w : world) (existing_handles : list string)
    (target_name : string) :
  spec I (wait_for_payment_window w existing_handles target_name)
    (fun handle =>
       Py.truthy handle = true
       ∧ ∃ current o, inr current ∈ w_popup_rounds w ∧ o ∈ current ∧ obs_handle o = handle
                      ∧ (handle ∉ existing_handles) ∧ payment_window target_name o = true)
    (fun e =>
       every_window (passed_over existing_handles target_name) (w_popup_rounds w) = true →
       e = PopupTimeout).
Proof.
  unfold wait_for_payment_window.
  eapply spec_bind.
  { eapply spec_weaken_exn; [apply poll_payment_window_spec|].
    intros e ->. done. }
  intros [handle|] [Hsome Hnone].
  - destruct Hsome as [Ht Hsome]. rewrite Ht.
    eapply spec_bind.
    { eapply spec_weaken_exn.
      - apply (spec_try_except _ _ _ (fun _ => True) (fun _ => True)
                 (fun _ => every_window (passed_over existing_handles target_name)
                             (w_popup_rounds w) = true → False)).
        + by apply spec_driver_.
        + intros e _ _. by apply spec_ret.
        + intros e _ _ Hall. by specialize (Hnone Hall).
      - intros e H Hall. destruct (H Hall). }
    intros [] _. by apply spec_ret.
  - by apply spec_raise.
Qed.

End Windows.

Lemma every_window_elem (P : window_obs → bool) (rounds : list (exn + list window_obs))
    (current : list window_obs) (o : window_obs) :
  every_window P rounds = true → inr current ∈ rounds → o ∈ current → P o = true.
Proof.
  unfold every_window. rewrite forallb_forall. intros Hall Hin Ho.
  specialize (Hall _ (proj1 (list_elem_of_In _ _) Hin)). cbn in Hall.
  rewrite forallb_forall in Hall. apply Hall. by apply list_elem_of_In.
Qed.

(** The handle [wait_for_payment_window] returns is not empty, was not
    open before the trigger, and is that of a window seen in one of the
    turns of the loop, which took the focus and has the name looked for or
    a URL of the payment gateway. *)
Theorem wait_for_payment_window_returns_popup (w : world) (existing_handles : list string)
    (target_name : string) (p : process) (handle : string) :
  (wait_for_payment_window w existing_handles target_name p).1 = inr handle →
  handle ≠ "" ∧ (handle ∉ existing_handles)
  ∧ ∃ current o, inr current ∈ w_popup_rounds w ∧ o ∈ current ∧ obs_handle o = handle
                 ∧ payment_window target_name o = true.
Proof.
  intros Hresult.
  pose proof (wait_for_payment_window_spec (I:=fun _ => True) (fun _ => Logic.I)
                w existing_handles target_name p Logic.I) as Hspec.
  destruct (wait_for_payment_window w existing_handles target_name p) as [[e|h] p'];
    [done|].
  simpl in Hresult. simplify_eq.
  destruct Hspec as [(Ht & current & o & Hin & Ho & Hh & Hnew & Hpw) _].
  split_and!; [by intros -> | done | by exists current, o].
Qed.

Lemma wait_for_payment_window_returns_popup_witness :
  "W2" ≠ "" ∧ ("W2" ∉ ["W1"])
  ∧ ∃ current o, inr current ∈ w_popup_rounds happy_world ∧ o ∈ current ∧ obs_handle o = "W2"
                 ∧ payment_window "KCPPayPopup" o = true.
Proof.
  apply (wait_for_payment_window_returns_popup happy_world ["W1"] "KCPPayPopup"
           initial_process "W2").
  reflexivity.
Defined.

(** When every turn of the loop reads the windows and passes over each of
    them, the wait ends with the error [PopupTimeout]. *)
Theorem wait_for_payment_window_times_out (w : world) (existing_handles : list string)
    (target_name : string) (p : process) :
  every_window (passed_over existing_handles target_name) (w_popup_rounds w) = true →
  (wait_for_payment_window w existing_handles target_name p).1 = inl PopupTimeout.
Proof.
  intros Hall.
  pose proof (wait_for_payment_window_spec (I:=fun _ => True) (fun _ => Logic.I)
                w existing_handles target_name p Logic.I) as Hspec.
  destruct (wait_for_payment_window w existing_handles target_name p) as [[e|h] p']; simpl.
  - destruct Hspec as [He _]. by rewrite (He Hall).
  - destruct Hspec as [(Ht & current & o & Hin & Ho & Hh & Hnew & Hpw) _].
    pose proof (every_window_elem _ _ _ _ Hall Hin Ho) as Hover.
    rewrite payment_window_not_passed_over in Hover; [done | by rewrite Hh | done].
Qed.

Lemma wait_for_payment_window_times_out_witness :
  (wait_for_payment_window no_popup_world ["W1"] "KCPPayPopup" initial_process).1
  = inl PopupTimeout.
Proof. by apply wait_for_payment_window_times_out. Defined.

(** ** The confirmation wait *)

Section Confirmation.
Context {I : process → Prop} {allowed : call → Prop} `{!Stable I allowed}.
Hypothesis every_call : ∀ c, allowed c.

Lemma inspect_order_handles_spec (current : list window_obs) :
  spec I (inspect_order_handles current)
    (fun found =>
       match found with
       | Some url =>
           ∃ o, o ∈ current ∧ obs_url o = inr url ∧ confirmation_window o = true
       | None => True
       end)
    (fun _ => forallb calm_window current = false).
Proof.
  induction current as [|o rest IH]; cbn [inspect_order_handles forallb].
  { by apply spec_ret. }
  eapply spec_bind.
  { apply (spec_try_except _ _ _
             (fun read => calm_window o = true
                          ∧ match read with
                            | Some url => obs_switch o = None ∧ obs_url o = inr url
                            | None => True
                            end)
             (fun e => (obs_switch o = Some e ∨ (obs_switch o = None ∧ obs_url o = inl e)))).
    - eapply spec_bind.
      + apply spec_driver__sp; [done|]. intros e He. by left.
      + intros [] Hswitch. eapply spec_bind.
        * apply spec_driver_sp; [done|]. intros e He. by right.
        * intros url Hurl. apply spec_ret. unfold calm_window. by rewrite Hswitch, Hurl.
    - intros e He Hclass. apply spec_ret. split; [|done].
      unfold calm_window. destruct He as [-> | [-> ->]]; done.
    - intros e He Hclass. unfold calm_window.
      destruct He as [-> | [-> ->]]; cbn [failure tolerated]; by rewrite Hclass. }
  intros [url|] [-> Hread]; cbn [andb].
  - destruct Hread as [Hswitch Hurl].
    destruct (Py.contains "ordrRst" url) eqn:Hmatch.
    + apply spec_ret. exists o. split_and!; [by left | done |].
      unfold confirmation_window, url_seen. by rewrite Hswitch, Hurl.
    + eapply spec_conseq; [exact IH | | done].
      intros [url'|]; [|done]. intros (o' & Hin & H). exists o'. split; [by right | done].
  - eapply spec_conseq; [exact IH | | done].
    intros [url'|]; [|done]. intros (o' & Hin & H). exists o'. split; [by right | done].
Qed.

Lemma poll_order_result_spec (rounds : list (exn + list window_obs)) :
  spec I (poll_order_result rounds)
    (fun found =>
       match found with
       | Some url =>
           ∃ current o, inr current ∈ rounds ∧ o ∈ current ∧ obs_url o = inr url
                        ∧ confirmation_window o = true
       | None => True
       end)
    (fun _ => every_window calm_window rounds = false).
Proof.
  induction rounds as [|round later IH]; cbn [poll_order_result every_window forallb].
  { by apply spec_ret. }
  eapply spec_bind.
  { apply spec_driver_sp; [done|]. by intros e ->. }
  intros current ->.
  eapply spec_bind.
  { eapply spec_weaken_exn; [apply inspect_order_handles_spec|].
    intros e ->. done. }
  intros found Hfound.
  eapply spec_bind; [by apply (spec_driver_ _ _ (fun _ => True))|]. intros [] _.
  destruct found as [url|].
  - apply spec_ret. destruct Hfound as (o & Hin & H).
    exists current, o. split; [by left | done].
  - eapply spec_conseq; [exact IH | |].
    + intros [url'|]; [|done]. intros (current' & o' & Hin & H).
      exists current', o'. split; [by right | done].
    + intros e He. fold (every_window calm_window later). rewrite He.
      by rewrite andb_false_r.
Qed.

(** The block that puts the focus back lets no [WebDriverException] out. *)
Lemma restore_focus_spec (w : world) (main_handle payment_handle : option string) :
  spec I (restore_focus w main_handle payment_handle)
    (fun _ => True) (fun _ => restore_calm w = false).
Proof.
  unfold restore_focus, restore_calm.
  apply (spec_try_except _ _ _ _
           (fun e => w_restore_handles_payment w = inl e
                     ∨ w_restore_handles_main w = inl e ∨ w_restore_switch w = Some e)).
  - eapply spec_bind.
    + eapply spec_bind.
      * destruct (Py.truthy_opt payment_handle).
        -- eapply spec_bind.
           ++ apply (spec_driver _ _ (fun _ => True)); [done | done |]. intros e He. by left.
           ++ intros handles _. by apply (spec_ret _ (fun _ => True)).
        -- by apply (spec_ret _ (fun _ => True)).
      * intros [|] _; [by apply (spec_ret _ (fun _ => True))|].
        eapply spec_bind.
        -- destruct (Py.truthy_opt main_handle).
           ++ eapply spec_bind.
              ** apply (spec_driver _ _ (fun _ => True)); [done | done |].
                 intros e He. right. by left.
              ** intros handles _. by apply (spec_ret _ (fun _ => True)).
           ++ by apply (spec_ret _ (fun _ => True)).
        -- intros in_main _. by apply (spec_ret _ (fun _ => True)).
    + intros target _. destruct (Py.truthy_opt target).
      * apply spec_driver_; [done | done |]. intros e He. right. by right.
      * by apply spec_ret.
  - intros e _ _. by apply spec_ret.
  - intros e He Hclass.
    destruct He as [->|[->| ->]]; cbn [failure tolerated]; rewrite Hclass;
      by rewrite ?andb_false_r.
Qed.

Lemma await_order_result_spec (w : world) (main_handle payment_handle : option string) :
  spec I (await_order_result w main_handle payment_handle)
    (fun found =>
       match found with
       | Some url =>
           ∃ current o, inr current ∈ w_order_rounds w ∧ o ∈ current ∧ obs_url o = inr url
                        ∧ confirmation_window o = true
       | None => True
       end)
    (fun _ => every_window calm_window (w_order_rounds w) && restore_calm w = false).
Proof.
  unfold await_order_result.
  eapply spec_bind.
  { eapply spec_weaken_exn; [apply poll_order_result_spec|]. by intros e ->. }
  intros found Hfound.
  eapply spec_bind.
  { eapply spec_weaken_exn; [apply restore_focus_spec|].
    intros e ->. by rewrite andb_false_r. }
  intros [] _.
  eapply spec_bind; [by apply (spec_eprint _ (fun _ => True))|]. intros [] _.
  by apply spec_ret.
Qed.

End Confirmation.

(** The URL [await_order_result] returns holds the text [ordrRst], and is
    the URL read from a window that took the focus in one of the turns of
    the loop. *)
Theorem await_order_result_returns_confirmation (w : world)
    (main_handle payment_handle : option string) (p : process) (url : string) :
  (await_order_result w main_handle payment_handle p).1 = inr (Some url) →
  Py.contains "ordrRst" url = true
  ∧ ∃ current o, inr current ∈ w_order_rounds w ∧ o ∈ current
                 ∧ obs_switch o = None ∧ obs_url o = inr url.
Proof.
  intros Hresult.
  pose proof (await_order_result_spec (I:=fun _ => True) (fun _ => Logic.I)
                w main_handle payment_handle p Logic.I) as Hspec.
  destruct (await_order_result w main_handle payment_handle p) as [[e|found] p']; [done|].
  simpl in Hresult. simplify_eq.
  destruct Hspec as [(current & o & Hin & Ho & Hurl & Hconf) _].
  unfold confirmation_window, url_seen in Hconf. rewrite Hurl in Hconf.
  apply andb_true_iff in Hconf as [Hswitch Hmatch].
  split; [done|]. exists current, o. split_and!; try done.
  by destruct (obs_switch o).
Qed.

Lemma await_order_result_returns_confirmation_witness :
  Py.contains "ordrRst" "https://www.gytennis.or.kr/ordrRst?ordr_idxx=ORD1" = true
  ∧ ∃ current o, inr current ∈ w_order_rounds confirmed_world ∧ o ∈ current
                 ∧ obs_switch o = None
                 ∧ obs_url o = inr "https://www.gytennis.or.kr/ordrRst?ordr_idxx=ORD1".
Proof.
  apply (await_order_result_returns_confirmation confirmed_world (Some "W1") (Some "W2")
           initial_process).
  reflexivity.
Defined.

(** With the list of windows read at every turn, and no failure other
    than a [WebDriverException] on a window or while the focus is put
    back, [await_order_result] returns: a URL or [None], never an error. *)
Theorem await_order_result_tolerates_window_failures (w : world)
    (main_handle payment_handle : option string) (p : process) :
  every_window calm_window (w_order_rounds w) = true →
  restore_calm w = true →
  ∃ found, (await_order_result w main_handle payment_handle p).1 = inr found.
Proof.
  intros Hrounds Hrestore.
  pose proof (await_order_result_spec (I:=fun _ => True) (fun _ => Logic.I)
                w main_handle payment_handle p Logic.I) as Hspec.
  destruct (await_order_result w main_handle payment_handle p) as [[e|found] p']; [|by eexists].
  destruct Hspec as [He _]. by rewrite Hrounds, Hrestore in He.
Qed.

Lemma await_order_result_tolerates_window_failures_witness :
  ∃ found, (await_order_result confirmed_world (Some "W1") (Some "W2") initial_process).1
           = inr found.
Proof. by apply await_order_result_tolerates_window_failures. Defined.

(** ** What a run leaves behind *)

Section Frames.
Context {R : process → process → Prop} {allowed : call → Prop} {logs : Prop}
  `{!Frame R allowed logs}.

Lemma frames_ret {A} (a : A) : frames R (mret a : M A).
Proof. intros p. apply frame_refl. Qed.

Lemma frames_raise {A} (e : exn) : frames R (raise e : M A).
Proof. intros p. apply frame_refl. Qed.

Lemma frames_lift {A} (r : exn + A) : frames R (lift r).
Proof. intros p. apply frame_refl. Qed.

Lemma frames_driver {A} (c : call) (r : exn + A) : allowed c → frames R (driver c r).
Proof. intros Hc p. by apply frame_call. Qed.

Lemma frames_driver_ (c : call) (o : option exn) : allowed c → frames R (driver_ c o).
Proof. apply frames_driver. Qed.

Lemma frames_eprint (o : output) : frames R (eprint o).
Proof. intros p. apply frame_stderr. Qed.

Lemma frames_append_curl_log (command : string) : logs → frames R (append_curl_log command).
Proof.
  intros Hlogs p. unfold append_curl_log. destruct (CURL_LOG_FILE p) as [file|] eqn:Hfile.
  - apply frame_curl; [done|]. by rewrite Hfile.
  - apply frame_refl.
Qed.

Lemma frames_bind {A B} (m : M A) (k : A → M B) :
  frames R m → (∀ a, frames R (k a)) → frames R (m ≫= k).
Proof.
  intros Hm Hk p. rewrite bind_run. specialize (Hm p).
  destruct (m p) as [[e|a] p']; [done|].
  eapply frame_trans; [exact Hm | apply Hk].
Qed.

Lemma frames_try_except {A} (body : M A) (classes : exn → bool) (handler : exn → M A) :
  frames R body → (∀ e, frames R (handler e)) → frames R (try_except body classes handler).
Proof.
  intros Hbody Hh p. unfold try_except. specialize (Hbody p).
  destruct (body p) as [[e|a] p']; [|done].
  destruct (classes e); [|done].
  eapply frame_trans; [exact Hbody | apply Hh].
Qed.

End Frames.

Create HintDb frames discriminated.
#[global] Hint Resolve frames_ret frames_raise frames_lift frames_eprint : frames.

Ltac frames_step :=
  first
    [ apply frames_bind; [|intros ?]
    | apply frames_try_except; [|intros ?]
    | solve [eauto with frames]
    | apply frames_driver_; solve [auto]
    | apply frames_driver; solve [auto] ].

Section StageFrames.
Context {R : process → process → Prop} {allowed : call → bool} {logs : Prop}
  `{!Frame R (fun c => allowed c = true) logs}.

Lemma add_cookies_frames (w : world) (cookies : list (string * string)) :
  (∀ c, session_call c = true → allowed c = true) →
  frames R (add_cookies w cookies).
Proof.
  intros Hsub. induction cookies as [|[name value] cookies IH]; cbn [add_cookies].
  - frames_step.
  - frames_step; [frames_step | exact IH].
Qed.

Lemma launch_frames (w : world) (a : args) :
  (∀ c, session_call c = true → allowed c = true) →
  frames R (launch w a).
Proof.
  intros Hsub. unfold launch.
  do 3 (frames_step; [frames_step|]).
  frames_step; [|frames_step].
  destruct (Py.truthy (cookie a)); [|frames_step].
  frames_step; [by apply add_cookies_frames | frames_step].
Qed.

Lemma browser_fetch_frames (reply : exn + fetch_reply) (url : string)
    (data : list (string * form_value)) (headers : list (string * option string)) (t : float) :
  logs → (∀ c, fetch_call url c = true → allowed c = true) →
  frames R (browser_fetch reply url data headers t).
Proof.
  intros Hlogs Hsub. unfold browser_fetch.
  frames_step; [by apply frames_append_curl_log|].
  do 2 (frames_step; [frames_step|]).
  frames_step.
  { apply frames_driver. apply Hsub. cbn. apply String.eqb_refl. }
  destruct a2 as [d|]; [|frames_step].
  destruct (fd_error d) as [err|]; [destruct (Py.truthy err)|]; repeat frames_step.
Qed.

Lemma authenticate_frames (w : world) (a : args) :
  logs → (∀ c, login_call c = true → allowed c = true) →
  frames R (authenticate w a).
Proof.
  intros Hlogs Hsub. unfold authenticate.
  frames_step.
  { apply browser_fetch_frames; [done|]. intros c Hc. apply Hsub. unfold login_call. by rewrite Hc. }
  frames_step; frames_step.
Qed.

Lemma reserve_frames (w : world) (a : args) (slot_value : string) :
  logs → (∀ c, reserve_call c = true → allowed c = true) →
  frames R (reserve w a slot_value).
Proof.
  intros Hlogs Hsub. unfold reserve.
  frames_step; [by apply browser_fetch_frames|].
  frames_step; [frames_step|].
  destruct (fd_text a0); frames_step.
Qed.

Lemma render_reservation_frames (w : world) (a : args) :
  (∀ c, page_call c = true → allowed c = true) →
  frames R (render_reservation w a).
Proof. intros Hsub. unfold render_reservation. repeat frames_step. Qed.

Lemma trigger_payment_frames (w : world) :
  (∀ c, trigger_call c = true → allowed c = true) →
  frames R (trigger_payment w).
Proof.
  intros Hsub. unfold trigger_payment. frames_step; [frames_step|].
  destruct (Py.startswith _ _); [frames_step|].
  destruct (String.eqb _ _); frames_step.
Qed.

Lemma inspect_new_handles_frames known_handles target_name current :
  (∀ c, window_call c = true → allowed c = true) →
  frames R (inspect_new_handles known_handles target_name current).
Proof.
  intros Hsub. induction current as [|o rest IH]; cbn [inspect_new_handles]; [frames_step|].
  case_bool_decide; [exact IH|].
  frames_step; [repeat frames_step|].
  destruct a; cbn [negb]; [|exact IH].
  do 2 (frames_step; [repeat frames_step|]).
  destruct (_ || _); [frames_step | exact IH].
Qed.

Lemma poll_payment_window_frames known_handles target_name rounds :
  (∀ c, window_call c = true → allowed c = true) →
  frames R (poll_payment_window known_handles target_name rounds).
Proof.
  intros Hsub. induction rounds as [|round later IH]; cbn [poll_payment_window]; [frames_step|].
  frames_step; [frames_step|].
  frames_step; [by apply inspect_new_handles_frames|].
  destruct (Py.truthy_opt a0); [frames_step|].
  frames_step; [frames_step | exact IH].
Qed.

Lemma wait_for_payment_window_frames w existing_handles target_name :
  (∀ c, window_call c = true → allowed c = true) →
  frames R (wait_for_payment_window w existing_handles target_name).
Proof.
  intros Hsub. unfold wait_for_payment_window.
  frames_step; [by apply poll_payment_window_frames|].
  destruct a as [handle|]; [|frames_step].
  destruct (Py.truthy handle); repeat frames_step.
Qed.

Lemma await_popup_frames w existing_handles :
  (∀ c, window_call c = true → allowed c = true) →
  frames R (await_popup w existing_handles).
Proof.
  intros Hsub. unfold await_popup.
  frames_step.
  { frames_step; [|repeat frames_step].
    frames_step; [by apply wait_for_payment_window_frames | frames_step]. }
  destruct a as [handle|]; repeat frames_step.
Qed.

Lemma inspect_order_handles_frames current :
  (∀ c, window_call c = true → allowed c = true) →
  frames R (inspect_order_handles current).
Proof.
  intros Hsub. induction current as [|o rest IH]; cbn [inspect_order_handles]; [frames_step|].
  frames_step; [repeat frames_step|].
  destruct a as [url|]; [|exact IH].
  destruct (Py.contains "ordrRst" url); [frames_step | exact IH].
Qed.

Lemma poll_order_result_frames rounds :
  (∀ c, window_call c = true → allowed c = true) →
  frames R (poll_order_result rounds).
Proof.
  intros Hsub. induction rounds as [|round later IH]; cbn [poll_order_result]; [frames_step|].
  frames_step; [frames_step|].
  frames_step; [by apply inspect_order_handles_frames|].
  frames_step; [frames_step|].
  destruct a0; [frames_step | exact IH].
Qed.

Lemma restore_focus_frames w main_handle payment_handle :
  (∀ c, window_call c = true → allowed c = true) →
  frames R (restore_focus w main_handle payment_handle).
Proof.
  intros Hsub. unfold restore_focus.
  frames_step; [|frames_step].
  frames_step.
  - frames_step.
    + destruct (Py.truthy_opt payment_handle); repeat frames_step.
    + destruct a; [frames_step|].
      frames_step; [|frames_step].
      destruct (Py.truthy_opt main_handle); repeat frames_step.
  - destruct (Py.truthy_opt a); frames_step.
Qed.

Lemma await_order_result_frames w main_handle payment_handle :
  (∀ c, window_call c = true → allowed c = true) →
  frames R (await_order_result w main_handle payment_handle).
Proof.
  intros Hsub. unfold await_order_result.
  frames_step; [by apply poll_order_result_frames|].
  frames_step; [by apply restore_focus_frames|].
  repeat frames_step.
Qed.

Lemma await_confirmation_frames w a main_window_handle payment_handle :
  (∀ c, window_call c = true → allowed c = true) →
  frames R (await_confirmation w a main_window_handle payment_handle).
Proof.
  intros Hsub. unfold await_confirmation. destruct (negb (skip_order_wait a)); [|frames_step].
  frames_step; [frames_step | by apply await_order_result_frames].
Qed.

End StageFrames.

(** ** The order of the stages *)

Lemma in_order_nil (stages : list (call → bool)) : in_order stages [].
Proof. induction stages as [|stage later IH]; [done|]. by exists [], []. Qed.

Lemma in_order_app (s1 s2 : list (call → bool)) : ∀ l1 l2,
  in_order s1 l1 → in_order s2 l2 → in_order (s1 ++ s2) (l1 ++ l2).
Proof.
  induction s1 as [|stage later IH]; intros l1 l2.
  - by intros ->.
  - intros (first & rest & -> & Hfirst & Hrest) H2.
    exists first, (rest ++ l2). rewrite <- app_assoc. split_and!; [done | done |].
    by apply IH.
Qed.

Lemma in_order_merge (stage : call → bool) (later : list (call → bool)) (made : list call) :
  in_order (stage :: stage :: later) made → in_order (stage :: later) made.
Proof.
  intros (first & rest & -> & Hfirst & second & rest' & -> & Hsecond & Hrest).
  exists (first ++ second), rest'. rewrite <- app_assoc. split_and!; [done | | done].
  by rewrite forallb_app, Hfirst, Hsecond.
Qed.

Lemma in_order_elem (stages : list (call → bool)) : ∀ made c,
  in_order stages made → c ∈ made → ∃ stage, stage ∈ stages ∧ stage c = true.
Proof.
  induction stages as [|stage later IH]; intros made c.
  - intros ->. by intros ?%elem_of_nil.
  - intros (first & rest & -> & Hfirst & Hrest) [Hin|Hin]%elem_of_app.
    + exists stage. split; [by left|].
      rewrite forallb_forall in Hfirst. by apply Hfirst, list_elem_of_In.
    + destruct (IH _ _ Hrest Hin) as (stage' & Hin' & Hc). exists stage'. split; [by right | done].
Qed.

Lemma extends_weaken (allowed : call → bool) (p q : process) :
  extends allowed p q → extends (fun _ => true) p q.
Proof.
  intros (Hf & Ho & Hl & made & Hm & _). split_and!; try done.
  exists made. split; [done|]. by apply forallb_forall.
Qed.

Lemma staged_frames {A} (stage : call → bool) (m : M A) :
  frames (extends stage) m → staged [stage] m.
Proof.
  intros Hm p. specialize (Hm p). split; [by eapply extends_weaken|].
  destruct Hm as (_ & _ & _ & made & Hm & Hall).
  exists made. split; [done|]. exists made, []. by rewrite app_nil_r.
Qed.

Lemma staged_lift {A} (r : exn + A) : staged [] (lift r).
Proof.
  intros p. split; [apply (frame_refl (R:=extends (fun _ => true)))|].
  exists []. by rewrite app_nil_r.
Qed.

Lemma staged_ret {A} (a : A) : staged [] (mret a : M A).
Proof.
  intros p. split; [apply (frame_refl (R:=extends (fun _ => true)))|].
  exists []. by rewrite app_nil_r.
Qed.

Lemma staged_bind {A B} (s1 s2 : list (call → bool)) (m : M A) (k : A → M B) :
  staged s1 m → (∀ a, staged s2 (k a)) → staged (s1 ++ s2) (m ≫= k).
Proof.
  intros Hm Hk p. rewrite bind_run. specialize (Hm p).
  destruct (m p) as [[e|a] p'].
  - destruct Hm as [Hext (made & Hmade & Horder)]. split; [done|].
    exists made. split; [done|]. rewrite <- (app_nil_r made).
    apply in_order_app; [done | apply in_order_nil].
  - destruct Hm as [Hext (made & Hmade & Horder)].
    destruct (Hk a p') as [Hext' (made' & Hmade' & Horder')]. cbn [snd] in *.
    split; [by eapply (frame_trans (R:=extends (fun _ => true)))|].
    exists (made ++ made'). split; [by rewrite Hmade', Hmade, app_assoc|].
    by apply in_order_app.
Qed.

(** The body of the [try] statement runs its stages in order: the calls of
    a stage are made after those of the stages before it. *)
Lemma workflow_staged (w : world) (a : args) (slot_value : string) :
  staged stages (workflow w a slot_value).
Proof.
  assert (H : staged ([session_call] ++ [login_call] ++ [reserve_call] ++ [] ++ [page_call]
                      ++ [trigger_call] ++ [trigger_call] ++ [window_call] ++ [window_call]
                      ++ [])
                (workflow w a slot_value)).
  { unfold workflow.
    apply staged_bind; [by apply staged_frames, launch_frames|]. intros main_window_handle.
    apply staged_bind; [by apply staged_frames, (authenticate_frames (logs:=True))|]. intros [].
    apply staged_bind; [by apply staged_frames, (reserve_frames (logs:=True))|]. intros html.
    apply staged_bind; [apply staged_lift|]. intros order_id.
    apply staged_bind; [by apply staged_frames, render_reservation_frames|]. intros [].
    apply staged_bind; [by apply staged_frames, frames_driver|]. intros existing_handles.
    apply staged_bind; [by apply staged_frames, trigger_payment_frames|]. intros [].
    apply staged_bind; [by apply staged_frames, await_popup_frames|]. intros payment_handle.
    apply staged_bind; [by apply staged_frames, await_confirmation_frames|]. intros url.
    apply staged_ret. }
  intros p. destruct (H p) as [Hext (made & Hmade & Horder)]. split; [done|].
  exists made. split; [done|]. cbn [app] in Horder.
  destruct Horder as (l1 & r1 & -> & H1 & l2 & r2 & -> & H2 & l3 & r3 & -> & H3 & Horder).
  exists l1, (l2 ++ l3 ++ r3). split_and!; [done | done |].
  exists l2, (l3 ++ r3). split_and!; [done | done |].
  exists l3, r3. split_and!; [done | done |].
  destruct Horder as (l4 & r4 & -> & H4 & Horder).
  exists l4, r4. split_and!; [done | done |].
  apply in_order_merge in Horder.
  destruct Horder as (l5 & r5 & -> & H5 & Horder).
  exists l5, r5. split_and!; [done | done |].
  by apply in_order_merge.
Qed.

(** ** [main], around the body of its [try] statement *)

Lemma set_curl_log_file_ready (w : world) (a : args) (p : process) :
  audit_log_ready w a = true →
  set_curl_log_file (w_curl_log_fs w) (curl_log_file a) p
  = (inr tt, set_log_file (if Py.truthy (curl_log_file a) then Some (curl_log_file a) else None) p).
Proof.
  unfold audit_log_ready, set_curl_log_file.
  destruct (Py.truthy (curl_log_file a)); cbn [negb orb]; [|done].
  by destruct (w_curl_log_fs w).
Qed.

Lemma entry_state_fields (a : args) (p : process) :
  CURL_LOG_FILE (entry_state a p)
  = (if Py.truthy (curl_log_file a) then Some (curl_log_file a) else None)
  ∧ curl_log (entry_state a p) = curl_log p
  ∧ stdout (entry_state a p) = stdout p
  ∧ calls (entry_state a p) = calls p.
Proof.
  unfold entry_state, reuse_browser_tab_notice. by destruct (reuse_browser_tab a).
Qed.

Lemma cleanup_run (w : world) (a : args) (q : process) :
  (cleanup w a q).1 = inr tt
  ∧ calls (cleanup w a q).2 = calls q ++ quit_calls w a
  ∧ stdout (cleanup w a q).2 = stdout q ∧ stderr (cleanup w a q).2 = stderr q
  ∧ curl_log (cleanup w a q).2 = curl_log q
  ∧ CURL_LOG_FILE (cleanup w a q).2 = CURL_LOG_FILE q.
Proof.
  unfold cleanup, quit_calls.
  destruct (bool_decide (w_launch_browser w = None) && negb (keep_browser_open a)).
  - unfold try_except, driver_, driver. by destruct (w_quit w).
  - cbn. by rewrite app_nil_r.
Qed.

Lemma report_run (a : args) (l : locals) (q : process) :
  (report a l q).1 = inr tt
  ∧ calls (report a l q).2 = calls q
  ∧ stdout (report a l q).2 = stdout q ++ report_lines a l
  ∧ stderr (report a l q).2 = stderr q
  ∧ curl_log (report a l q).2 = curl_log q
  ∧ CURL_LOG_FILE (report a l q).2 = CURL_LOG_FILE q.
Proof.
  unfold report, report_lines, mbind, M_bind, print, mret, M_ret.
  destruct (skip_order_wait a), (keep_browser_open a); cbn;
    try (destruct (order_result_url l) as [url|]; cbn; try destruct (Py.truthy url); cbn);
    by rewrite <- ?app_assoc.
Qed.

(** [main] returns 0 when the body of its [try] statement returns and 1
    when it raises; it then quits the browser it launched unless told to
    keep it, and prints its report or the error. *)
Lemma main_run (w : world) (a : args) (p : process) (r : exn + locals) (q : process) :
  audit_log_ready w a = true →
  workflow w a (coerce_slot (reserve_slot_parts a)) (entry_state a p) = (r, q) →
  (main w a p).1 = inr (match r with inr _ => 0 | inl _ => 1 end)
  ∧ calls (main w a p).2 = calls q ++ quit_calls w a
  ∧ stdout (main w a p).2 = stdout q ++ match r with inr l => report_lines a l | inl _ => [] end
  ∧ stderr (main w a p).2 = stderr q ++ match r with inl e => [failure_line e] | inr _ => [] end
  ∧ curl_log (main w a p).2 = curl_log q
  ∧ CURL_LOG_FILE (main w a p).2 = CURL_LOG_FILE q.
Proof.
  intros Hready Hbody. unfold main.
  rewrite bind_run, (set_curl_log_file_ready _ _ _ Hready), bind_run.
  assert (Hnotice : reuse_browser_tab_notice a
                      (set_log_file (if Py.truthy (curl_log_file a)
                                     then Some (curl_log_file a) else None) p)
                    = (inr tt, entry_state a p)).
  { unfold entry_state, reuse_browser_tab_notice. by destruct (reuse_browser_tab a). }
  rewrite Hnotice, bind_run. unfold try_finally, try_except. rewrite bind_run, Hbody.
  destruct r as [e|l].
  - assert (Hexc : on_exception e q = (inr None, log_stderr (failure_line e) q)).
    { unfold on_exception, failure_line. by destruct (is_WebDriverException e). }
    rewrite Hexc.
    destruct (cleanup_run w a (log_stderr (failure_line e) q))
      as (Hc1 & Hc2 & Hc3 & Hc4 & Hc5 & Hc6).
    destruct (cleanup w a _) as [[e'|[]] q']; cbn in *; [done|].
    by rewrite app_nil_r.
  - cbn. destruct (cleanup_run w a q) as (Hc1 & Hc2 & Hc3 & Hc4 & Hc5 & Hc6).
    destruct (cleanup w a q) as [[e'|[]] q']; cbn in *; [done|].
    rewrite bind_run.
    destruct (report_run a l q') as (Hr1 & Hr2 & Hr3 & Hr4 & Hr5 & Hr6).
    destruct (report a l q') as [[e'|[]] q'']; cbn in *; [done|].
    rewrite Hr2, Hr3, Hr4, Hr5, Hr6, Hc2, Hc3, Hc4, Hc5, Hc6. by rewrite app_nil_r.
Qed.

(** The calls of a run: those of the stages, in order, and then that of
    the [finally] clause. *)
Lemma main_calls (w : world) (a : args) (p : process) :
  audit_log_ready w a = true →
  ∃ made, calls (main w a p).2 = calls p ++ made ++ quit_calls w a ∧ in_order stages made.
Proof.
  intros Hready.
  destruct (workflow w a (coerce_slot (reserve_slot_parts a)) (entry_state a p))
    as [r q] eqn:Hbody.
  destruct (main_run w a p r q Hready Hbody) as (_ & Hcalls & _).
  destruct (workflow_staged w a (coerce_slot (reserve_slot_parts a)) (entry_state a p))
    as [_ (made & Hmade & Horder)].
  rewrite Hbody in Hmade. cbn [snd] in Hmade.
  destruct (entry_state_fields a p) as (_ & _ & _ & Hentry).
  exists made. split; [|done]. by rewrite Hcalls, Hmade, Hentry, app_assoc.
Qed.

(** The stages of a run make their calls in the order of the state
    machine: the session is set up, then the login request is made, then
    the reservation request, then the page is rendered, then the payment is
    triggered, then the windows are polled; no stage is gone back to. *)
Theorem main_runs_stages_in_order (w : world) (a : args) (p : process) :
  audit_log_ready w a = true →
  ∃ session login reservation page trigger windows,
    calls (main w a p).2
    = calls p ++ (session ++ login ++ reservation ++ page ++ trigger ++ windows)
      ++ quit_calls w a
    ∧ forallb session_call session = true ∧ forallb login_call login = true
    ∧ forallb reserve_call reservation = true ∧ forallb page_call page = true
    ∧ forallb trigger_call trigger = true ∧ forallb window_call windows = true.
Proof.
  intros Hready. destruct (main_calls w a p Hready) as (made & Hcalls & Horder).
  destruct Horder as (l1 & r1 & -> & H1 & l2 & r2 & -> & H2 & l3 & r3 & -> & H3
                      & l4 & r4 & -> & H4 & l5 & r5 & -> & H5 & l6 & r6 & -> & H6 & ->).
  exists l1, l2, l3, l4, l5, l6. rewrite app_nil_r in Hcalls. by split_and!.
Qed.

Lemma main_runs_stages_in_order_witness :
  ∃ session login reservation page trigger windows,
    calls (main happy_world sample_args initial_process).2
    = calls initial_process ++ (session ++ login ++ reservation ++ page ++ trigger ++ windows)
      ++ quit_calls happy_world sample_args
    ∧ forallb session_call session = true ∧ forallb login_call login = true
    ∧ forallb reserve_call reservation = true ∧ forallb page_call page = true
    ∧ forallb trigger_call trigger = true ∧ forallb window_call windows = true.
Proof. by apply main_runs_stages_in_order. Defined.

(** The browser is quit once, by the last call of the run, when it was
    launched and is not to be kept open; it is not quit otherwise, and
    never before the end. *)
Theorem main_quits_the_browser_last (w : world) (a : args) (p : process) :
  audit_log_ready w a = true →
  ∃ made,
    calls (main w a p).2
    = calls p ++ made
      ++ (if bool_decide (w_launch_browser w = None) && negb (keep_browser_open a)
          then [CQuit] else [])
    ∧ CQuit ∉ made.
Proof.
  intros Hready. destruct (main_calls w a p Hready) as (made & Hcalls & Horder).
  exists made. split; [done|]. intros Hin.
  destruct (in_order_elem _ _ _ Horder Hin) as (stage & Hstage & Hquit).
  unfold stages in Hstage. rewrite !elem_of_cons in Hstage.
  destruct Hstage as [->|[->|[->|[->|[->|[->|?%elem_of_nil]]]]]]; done.
Qed.

Lemma main_quits_the_browser_last_witness :
  ∃ made,
    calls (main closed_browser_world wait_order_args initial_process).2
    = calls initial_process ++ made
      ++ (if bool_decide (w_launch_browser closed_browser_world = None)
             && negb (keep_browser_open wait_order_args)
          then [CQuit] else [])
    ∧ CQuit ∉ made.
Proof. by apply main_quits_the_browser_last. Defined.

(** A run started without an audit log file writes no audit line. *)
Theorem main_without_curl_log_file (w : world) (a : args) (p : process) :
  curl_log_file a = "" →
  curl_log (main w a p).2 = curl_log p ∧ CURL_LOG_FILE (main w a p).2 = None.
Proof.
  intros Hpath.
  assert (Hready : audit_log_ready w a = true).
  { unfold audit_log_ready. by rewrite Hpath. }
  destruct (workflow w a (coerce_slot (reserve_slot_parts a)) (entry_state a p))
    as [r q] eqn:Hbody.
  destruct (main_run w a p r q Hready Hbody) as (_ & _ & _ & _ & Hlog & Hfile).
  destruct (workflow_staged w a (coerce_slot (reserve_slot_parts a)) (entry_state a p))
    as [(Hf & _ & (lines & Hlines & Hnone) & _) _].
  rewrite Hbody in Hf, Hlines. cbn [snd] in Hf, Hlines.
  destruct (entry_state_fields a p) as (Hentry & Hentry_log & _).
  rewrite Hpath in Hentry. cbn in Hentry.
  rewrite Hlog, Hfile, Hf, Hlines, (Hnone Hentry), Hentry_log, Hentry.
  by rewrite app_nil_r.
Qed.

Lemma main_without_curl_log_file_witness :
  curl_log (main happy_world quiet_args (log_curl "kept" initial_process)).2
  = curl_log (log_curl "kept" initial_process)
  ∧ CURL_LOG_FILE (main happy_world quiet_args (log_curl "kept" initial_process)).2 = None.
Proof. by apply main_without_curl_log_file. Defined.

(** The body of the [try] statement passes the login stage, or makes the
    calls of the first two stages only. *)
Lemma workflow_before_reserve (w : world) (a : args) (slot_value : string) (p : process) :
  (launch_ok w a = true ∧ authenticate_ok w a = true)
  ∨ ∃ made, calls (workflow w a slot_value p).2 = calls p ++ made
            ∧ forallb (fun c => session_call c || login_call c) made = true.
Proof.
  unfold workflow. rewrite bind_run.
  pose proof (launch_spec (I:=fun _ => True) (fun _ _ => Logic.I) w a p Logic.I) as Hlaunch.
  pose proof (launch_frames (R:=extends session_call) w a (fun _ H => H) p) as Hframe.
  destruct (launch w a p) as [[e|main_window_handle] q1]; cbn [snd] in Hframe |- *;
    destruct Hframe as (_ & _ & _ & made1 & Hmade1 & Hall1).
  { right. exists made1. split; [done|].
    rewrite forallb_forall in *. intros c Hc. by rewrite Hall1. }
  rewrite bind_run.
  pose proof (authenticate_spec (I:=fun _ => True) (fun _ _ => Logic.I) w a q1 Logic.I) as Hauth.
  pose proof (authenticate_frames (R:=extends login_call) w a Logic.I (fun _ H => H) q1)
    as Hframe.
  destruct (authenticate w a q1) as [[e|[]] q2]; cbn [snd] in Hframe |- *;
    destruct Hframe as (_ & _ & _ & made2 & Hmade2 & Hall2).
  { right. exists (made1 ++ made2). split; [by rewrite Hmade2, Hmade1, app_assoc|].
    rewrite forallb_app. apply andb_true_iff. split.
    - rewrite forallb_forall in *. intros c Hc. by rewrite Hall1.
    - rewrite forallb_forall in *. intros c Hc. rewrite Hall2 by done. apply orb_true_r. }
  left. split; [by destruct Hlaunch as [[? _] _] | by destruct Hauth].
Qed.

(** A reservation request is made only in a run whose launch and login
    stages succeeded: after a login that fails, its status check included,
    nothing is sent to the reservation URL. *)
Theorem reservation_request_follows_login (w : world) (a : args) (p : process)
    (body : string) (ms : Z) :
  audit_log_ready w a = true →
  CFetch RESERVATION_URL body ms ∈ calls (main w a p).2 →
  CFetch RESERVATION_URL body ms ∈ calls p
  ∨ (launch_ok w a = true ∧ authenticate_ok w a = true).
Proof.
  intros Hready Hin.
  destruct (workflow w a (coerce_slot (reserve_slot_parts a)) (entry_state a p))
    as [r q] eqn:Hbody.
  destruct (main_run w a p r q Hready Hbody) as (_ & Hcalls & _).
  rewrite Hcalls in Hin. apply elem_of_app in Hin as [Hin|Hin].
  2: { unfold quit_calls in Hin. destruct (_ && _); [|by apply elem_of_nil in Hin].
       by apply list_elem_of_singleton in Hin. }
  destruct (workflow_before_reserve w a (coerce_slot (reserve_slot_parts a)) (entry_state a p))
    as [Hok|(made & Hmade & Hall)]; [by right|].
  rewrite Hbody in Hmade. cbn [snd] in Hmade.
  destruct (entry_state_fields a p) as (_ & _ & _ & Hentry).
  rewrite Hmade, Hentry in Hin. apply elem_of_app in Hin as [Hin|Hin]; [by left|].
  rewrite forallb_forall in Hall. specialize (Hall _ (proj1 (list_elem_of_In _ _) Hin)).
  by vm_compute in Hall.
Qed.

Lemma reservation_request_follows_login_witness :
  CFetch RESERVATION_URL
    (fetch_body_string [("cvalue", VStr "5"); ("cdate", VStr "2025-10-22");
                        ("isvkrr[]", VStr "2025-10-22|5|22|8|4000"); ("van_code", VStr "")])
    15000 ∈ calls initial_process
  ∨ (launch_ok happy_world sample_args = true ∧ authenticate_ok happy_world sample_args = true).
Proof.
  apply (reservation_request_follows_login happy_world sample_args initial_process).
  - reflexivity.
  - apply list_elem_of_In. vm_compute. do 8 right. by left.
Defined.

(** When the browser cannot be launched, [main] returns 1 after that one
    call: it reports the error on the error stream, prints nothing, and
    has no browser to quit. *)
Theorem main_without_browser (w : world) (a : args) (p : process) (e : exn) :
  audit_log_ready w a = true →
  w_launch_browser w = Some e →
  (main w a p).1 = inr 1
  ∧ calls (main w a p).2 = calls p ++ [CLaunchBrowser]
  ∧ stdout (main w a p).2 = stdout p
  ∧ last (stderr (main w a p).2) = Some (failure_line e).
Proof.
  intros Hready Hlaunch.
  assert (Hbody : workflow w a (coerce_slot (reserve_slot_parts a)) (entry_state a p)
                  = (inl e, log_call CLaunchBrowser (entry_state a p))).
  { unfold workflow, launch. rewrite !bind_run. unfold driver_, driver. by rewrite Hlaunch. }
  destruct (main_run w a p _ _ Hready Hbody) as (Hstatus & Hcalls & Hout & Herr & _).
  destruct (entry_state_fields a p) as (_ & _ & Hentry_out & Hentry_calls).
  split_and!.
  - done.
  - rewrite Hcalls. unfold quit_calls. rewrite Hlaunch. cbn. by rewrite app_nil_r, Hentry_calls.
  - rewrite Hout. cbn. by rewrite app_nil_r.
  - rewrite Herr. apply last_snoc.
Qed.

Lemma main_without_browser_witness :
  (main no_browser_world sample_args initial_process).1 = inr 1
  ∧ calls (main no_browser_world sample_args initial_process).2
    = calls initial_process ++ [CLaunchBrowser]
  ∧ stdout (main no_browser_world sample_args initial_process).2 = stdout initial_process
  ∧ last (stderr (main no_browser_world sample_args initial_process).2)
    = Some (failure_line (RuntimeError "ChromeDriver launch failed.")).
Proof. by apply main_without_browser. Defined.

(** An audit log file that is asked for and cannot be created makes
    [main] raise the error of the file system before anything of the run
    has happened: the file is set up before the [try] statement is entered,
    so that nothing is printed and the browser is not launched. *)
Theorem main_raises_without_audit_log (w : world) (a : args) (p : process) (e : exn) :
  curl_log_file a ≠ "" → w_curl_log_fs w = Some e → main w a p = (inl e, p).
Proof.
  intros Hpath Hfs. unfold main. rewrite bind_run. unfold set_curl_log_file.
  by rewrite (truthy_nonempty _ Hpath), Hfs.
Qed.

Lemma main_raises_without_audit_log_witness :
  main read_only_world sample_args initial_process
  = (inl (OSError "[Errno 30] Read-only file system: 'curl.log'"), initial_process).
Proof. by apply main_raises_without_audit_log. Defined.

Lemma add_cookies_confirmation_wait (w : world) (rounds : list (exn + list window_obs))
    (handles_payment handles_main : exn + list string) (switch : option exn)
    (cookies : list (string * string)) :
  add_cookies (with_confirmation_wait rounds handles_payment handles_main switch w) cookies
  = add_cookies w cookies.
Proof.
  induction cookies as [|[name value] cookies IH]; [done|].
  cbn [add_cookies]. by rewrite IH.
Qed.

(** With [skip_order_wait] set, a run does not wait for the confirmation
    page: the exit status of [main], what it writes and the calls it makes
    on the browser are the same whatever the browser would show during the
    wait and whatever restoring the focus would meet. *)
Theorem main_skips_confirmation_wait (w : world) (a : args)
    (rounds : list (exn + list window_obs)) (handles_payment handles_main : exn + list string)
    (switch : option exn) (p : process) :
  skip_order_wait a = true →
  main (with_confirmation_wait rounds handles_payment handles_main switch w) a p = main w a p.
Proof.
  intros Hskip. unfold main, workflow, await_confirmation, launch.
  rewrite Hskip, add_cookies_confirmation_wait. reflexivity.
Qed.

Lemma main_skips_confirmation_wait_witness :
  main (with_confirmation_wait [inl (WebDriverException "disconnected: not connected to DevTools")]
          (inl (WebDriverException "no such window")) (inl (WebDriverException "no such window"))
          (Some (WebDriverException "no such window")) happy_world)
    sample_args initial_process
  = main happy_world sample_args initial_process.
Proof. by apply main_skips_confirmation_wait. Defined.

(** ** The report of a run *)

Section Locals.
Context {I : process → Prop} {allowed : call → Prop} `{!Stable I allowed}.
Hypothesis every_call : ∀ c, allowed c.

(** The order id the body of the [try] statement ends with is the one
    extracted from the reservation response. *)
Lemma workflow_order_id (w : world) (a : args) (slot_value : string) :
  spec I (workflow w a slot_value)
    (fun l => ∃ html, reservation_html w = Some html ∧ extract_order_id html = inr (order_id l))
    (fun _ => True).
Proof.
  assert (before_trigger : ∀ c, c ≠ CPaymentTrigger → allowed c) by auto.
  unfold workflow.
  eapply spec_bind; [eapply spec_weaken_exn; [by apply launch_spec | done]|].
  intros main_window_handle [_ Hmain].
  eapply spec_bind; [eapply spec_weaken_exn; [by apply authenticate_spec | done]|].
  intros [] _.
  eapply spec_bind; [eapply spec_weaken_exn; [by apply reserve_spec | done]|].
  intros html [_ Hhtml].
  eapply spec_bind; [by apply spec_lift_sp|].
  intros id Hid.
  eapply spec_bind; [eapply spec_weaken_exn; [by apply render_reservation_spec | done]|].
  intros [] _.
  eapply spec_bind; [by apply spec_driver_sp|].
  intros existing_handles Hexisting.
  eapply spec_bind; [eapply spec_weaken_exn; [by apply trigger_payment_spec | done]|].
  intros [] _.
  eapply spec_bind; [eapply spec_weaken_exn; [by apply await_popup_spec | done]|].
  intros payment_handle [_ ->].
  eapply spec_bind; [eapply spec_weaken_exn; [by apply await_confirmation_spec | done]|].
  intros url _. apply spec_ret. by exists html.
Qed.

End Locals.

(** A run that returns 0 prints, as the first line of its report, the
    order id it extracted from the reservation response. *)
Theorem main_reports_the_order_id (w : world) (a : args) (p : process) :
  audit_log_ready w a = true →
  (main w a p).1 = inr 0 →
  ∃ html id rest,
    reservation_html w = Some html ∧ extract_order_id html = inr id
    ∧ stdout (main w a p).2 = stdout p ++ ("Reservation verified with id '" +:+ id +:+ "'.") :: rest.
Proof.
  intros Hready Hstatus.
  pose proof (workflow_order_id (I:=fun _ => True) (fun _ => Logic.I) w a
                (coerce_slot (reserve_slot_parts a)) (entry_state a p) Logic.I) as Hspec.
  destruct (workflow w a (coerce_slot (reserve_slot_parts a)) (entry_state a p))
    as [r q] eqn:Hbody.
  destruct (main_run w a p r q Hready Hbody) as (Hexit & _ & Hout & _).
  destruct (workflow_staged w a (coerce_slot (reserve_slot_parts a)) (entry_state a p))
    as [(_ & Hsame & _) _].
  rewrite Hbody in Hsame. cbn [snd] in Hsame.
  destruct (entry_state_fields a p) as (_ & _ & Hentry & _).
  destruct r as [e|l]; [congruence|].
  destruct Hspec as [(html & Hhtml & Hid) _].
  exists html, (order_id l). eexists. split_and!; [done | done |].
  rewrite Hout, Hsame, Hentry. unfold report_lines. reflexivity.
Qed.

Lemma main_reports_the_order_id_witness :
  ∃ html id rest,
    reservation_html happy_world = Some html ∧ extract_order_id html = inr id
    ∧ stdout (main happy_world sample_args initial_process).2
      = stdout initial_process ++ ("Reservation verified with id '" +:+ id +:+ "'.") :: rest.
Proof. by apply main_reports_the_order_id. Defined.

(** A run that returns 1 prints nothing on the standard output: its last
    line on the error stream is the error that ended it, reported as a
    failure of the browser automation when it is a [WebDriverException]
    and as a failure of the workflow otherwise. *)
Theorem main_reports_the_failure (w : world) (a : args) (p : process) :
  audit_log_ready w a = true →
  (main w a p).1 = inr 1 →
  stdout (main w a p).2 = stdout p
  ∧ ∃ e, (workflow w a (coerce_slot (reserve_slot_parts a)) (entry_state a p)).1 = inl e
         ∧ last (stderr (main w a p).2) = Some (failure_line e).
Proof.
  intros Hready Hstatus.
  destruct (workflow w a (coerce_slot (reserve_slot_parts a)) (entry_state a p))
    as [r q] eqn:Hbody.
  destruct (main_run w a p r q Hready Hbody) as (Hexit & _ & Hout & Herr & _).
  destruct (workflow_staged w a (coerce_slot (reserve_slot_parts a)) (entry_state a p))
    as [(_ & Hsame & _) _].
  rewrite Hbody in Hsame. cbn [snd] in Hsame.
  destruct (entry_state_fields a p) as (_ & _ & Hentry & _).
  destruct r as [e|l]; [|congruence].
  split; [by rewrite Hout, app_nil_r, Hsame, Hentry|].
  exists e. split; [done|]. rewrite Herr. apply last_snoc.
Qed.

Lemma main_reports_the_failure_witness :
  stdout (main server_error_world sample_args initial_process).2 = stdout initial_process
  ∧ ∃ e, (workflow server_error_world sample_args
            (coerce_slot (reserve_slot_parts sample_args))
            (entry_state sample_args initial_process)).1 = inl e
         ∧ last (stderr (main server_error_world sample_args initial_process).2)
           = Some (failure_line e).
Proof. by apply main_reports_the_failure. Defined.

(** ** The audit log of a run *)

Lemma browser_fetch_log (reply : exn + fetch_reply) (url : string)
    (data : list (string * form_value)) (headers : list (string * option string))
    (t : float) (p : process) (file : string) :
  CURL_LOG_FILE p = Some file →
  curl_log (browser_fetch reply url data headers t p).2
  = curl_log p
    ++ [build_curl_command "POST" url (allowed_headers headers) (Some (fetch_body_string data))]
  ∧ CURL_LOG_FILE (browser_fetch reply url data headers t p).2 = Some file.
Proof.
  intros Hfile.
  unfold browser_fetch, mbind, M_bind, append_curl_log, eprint, lift, driver, raise, mret, M_ret.
  rewrite Hfile. simpl.
  destruct (timeout_ms t) as [e|ms]; [done|]. simpl.
  destruct reply as [e|[d|]]; simpl; try done;
    destruct (fd_error d) as [err|]; simpl; try done;
    destruct (Py.truthy err); done.
Qed.

Lemma authenticate_log (w : world) (a : args) (p : process) (file : string) :
  CURL_LOG_FILE p = Some file →
  curl_log (authenticate w a p).2 = curl_log p ++ [login_line a]
  ∧ CURL_LOG_FILE (authenticate w a p).2 = Some file.
Proof.
  intros Hfile. unfold authenticate. rewrite bind_run.
  destruct (browser_fetch_log (w_login_reply w) LOGIN_URL
              [("userid", VStr (login_userid a)); ("passwd", VStr (login_password a))]
              (form_headers (browser_url a)) (timeout a) p file Hfile) as [Hlog Hfile'].
  fold (login_line a) in Hlog.
  destruct (browser_fetch _ _ _ _ _ p) as [[e|d] q]; cbn [snd] in *; [done|].
  assert (Hrest : frames silent
            (lift (ensure_success "Login request" d);;
             driver_ (CGet (post_login_url a)) (w_get_post_login_url w))).
  { pose proof silent_frame. repeat frames_step. }
  destruct (Hrest q) as [Hl Hf]. split; congruence.
Qed.

Lemma reserve_log (w : world) (a : args) (p : process) (file : string) :
  CURL_LOG_FILE p = Some file →
  curl_log (reserve w a (coerce_slot (reserve_slot_parts a)) p).2
  = curl_log p ++ [reservation_line a]
  ∧ CURL_LOG_FILE (reserve w a (coerce_slot (reserve_slot_parts a)) p).2 = Some file.
Proof.
  intros Hfile. unfold reserve. rewrite bind_run.
  destruct (browser_fetch_log (w_reservation_reply w) RESERVATION_URL
              [ ("cvalue", VStr (reserve_cvalue a));
                ("cdate", VStr (reserve_date a));
                ("isvkrr[]", VStr (coerce_slot (reserve_slot_parts a)));
                ("van_code", VStr (reserve_van_code a)) ]
              (form_headers (post_login_url a)) (timeout a) p file Hfile) as [Hlog Hfile'].
  fold (reservation_line a) in Hlog.
  destruct (browser_fetch _ _ _ _ _ p) as [[e|d] q]; cbn [snd] in *; [done|].
  assert (Hrest : frames silent
            (lift (ensure_success "Reservation request" d);;
             match fd_text d with
             | Some html => mret html
             | None => raise (KeyError "'text'")
             end)).
  { pose proof silent_frame. frames_step; [frames_step|]. destruct (fd_text d); frames_step. }
  destruct (Hrest q) as [Hl Hf]. split; congruence.
Qed.

(** With an audit log file set, a run writes one line for the login
    request once the session is set up, and one for the reservation
    request once the login has succeeded, in this order; it writes
    nothing else, whatever comes of the requests and of the later
    stages. *)
Theorem main_audit_log (w : world) (a : args) (p : process) :
  curl_log_file a ≠ "" → w_curl_log_fs w = None →
  curl_log (main w a p).2
  = curl_log p
    ++ (if launch_ok w a
        then login_line a :: (if authenticate_ok w a then [reservation_line a] else [])
        else []).
Proof.
  intros Hpath Hfs.
  assert (Hready : audit_log_ready w a = true).
  { unfold audit_log_ready. rewrite Hfs. apply orb_true_r. }
  destruct (workflow w a (coerce_slot (reserve_slot_parts a)) (entry_state a p))
    as [r q] eqn:Hbody.
  destruct (main_run w a p r q Hready Hbody) as (_ & _ & _ & _ & -> & _).
  destruct (entry_state_fields a p) as (Hfile & Hlog & _).
  rewrite (truthy_nonempty _ Hpath) in Hfile. rewrite <- Hlog.
  revert Hbody Hfile. generalize (entry_state a p). clear p Hlog. intros p Hbody Hfile.
  apply (f_equal snd) in Hbody. cbn [snd] in Hbody. subst q.
  assert (before_trigger : ∀ c : call, c ≠ CPaymentTrigger → True) by done.
  unfold workflow. rewrite bind_run.
  pose proof (launch_spec (I:=fun _ => True) before_trigger w a p Logic.I) as Hlaunch.
  pose proof (launch_frames (R:=silent) w a (fun _ _ => eq_refl) p) as [Hl1 Hf1].
  destruct (launch w a p) as [[e|main_window_handle] q1]; cbn [snd] in *.
  { destruct Hlaunch as [-> _]. by rewrite app_nil_r. }
  destruct Hlaunch as [[-> _] _]. rewrite bind_run.
  rewrite <- Hf1 in Hfile.
  pose proof (authenticate_spec (I:=fun _ => True) before_trigger w a q1 Logic.I) as Hauth.
  destruct (authenticate_log w a q1 _ Hfile) as [Hl2 Hf2].
  destruct (authenticate w a q1) as [[e|[]] q2]; cbn [snd] in *.
  { destruct Hauth as [-> _]. congruence. }
  destruct Hauth as [-> _]. rewrite bind_run.
  destruct (reserve_log w a q2 _ Hf2) as [Hl3 Hf3].
  destruct (reserve w a _ q2) as [[e|html] q3]; cbn [snd] in *.
  { rewrite Hl3, Hl2, Hl1. by rewrite <- app_assoc. }
  assert (Hrest : frames silent
            (order_id ← lift (extract_order_id html);
             render_reservation w a;;
             existing_handles ← driver CWindowHandles (w_existing_handles w);
             trigger_payment w;;
             payment_handle ← await_popup w existing_handles;
             order_result_url ← await_confirmation w a main_window_handle payment_handle;
             mret {| order_id := order_id; order_result_url := order_result_url |})).
  { pose proof silent_frame.
    frames_step; [frames_step|].
    frames_step; [by apply render_reservation_frames|].
    frames_step; [frames_step|].
    frames_step; [by apply trigger_payment_frames|].
    frames_step; [by apply await_popup_frames|].
    frames_step; [by apply await_confirmation_frames | frames_step]. }
  destruct (Hrest q3) as [Hl4 _].
  rewrite Hl4, Hl3, Hl2, Hl1. by rewrite <- app_assoc.
Qed.

Lemma main_audit_log_witness :
  curl_log (main server_error_world sample_args initial_process).2
  = curl_log initial_process
    ++ (if launch_ok server_error_world sample_args
        then login_line sample_args
             :: (if authenticate_ok server_error_world sample_args
                 then [reservation_line sample_args] else [])
        else []).
Proof. by apply main_audit_log. Defined.

(** ** The scheduling form *)






Lemma calculate_payment_amount_rate (weekday_index slot_number : Z) :
  Gui.calculate_payment_amount weekday_index (18 <=? slot_number)
  = inr (rate weekday_index slot_number).
Proof.
  unfold Gui.calculate_payment_amount, rate.
  by destruct (5 <=? weekday_index), (18 <=? slot_number).
Qed.




Lemma accepted_cases (f : Gui.form) :
  (accepted f
   ∧ ∃ info code,
       Gui.scheduled f = false
       ∧ Py.truthy (Cookie.strip (Gui.user_id_text f)) = true
       ∧ Py.truthy (Gui.password_text f) = true
       ∧ Gui.lookup Gui.COURT_INFO (Gui.court_name f) = Some info
       ∧ Gui.lookup (Gui.codes info) (Gui.court_number f) = Some code)
  ∨ (¬ accepted f ∧ ∀ pf, Gui.schedule_reservation pf f = inr None).
Proof.
  unfold accepted, Gui.schedule_reservation, court_code.
  destruct (Gui.scheduled f); [right; split; [by intros [[=] _] | done]|].
  unfold Py.truthy.
  destruct (String.eqb_spec (Cookie.strip (Gui.user_id_text f)) "") as [Huser|Huser].
  { right. split; [by intros (_ & ? & _) | done]. }
  destruct (String.eqb_spec (Gui.password_text f) "") as [Hpw|Hpw].
  { right. split; [by intros (_ & _ & ? & _) | done]. }
  cbn [negb orb].
  destruct (Gui.lookup Gui.COURT_INFO (Gui.court_name f)) as [info|]; cbn.
  2: { right. split; [by intros (_ & _ & _ & [? [=]]) | done]. }
  destruct (Gui.lookup (Gui.codes info) (Gui.court_number f)) as [code|] eqn:Hcode.
  2: { right. split; [by intros (_ & _ & _ & [? [=]]) | done]. }
  left. split; [by split_and!; [..|exists code] | by exists info, code].
Qed.

(** What a click comes to, with one of the slots of the list selected.
    The handler shows a warning and schedules nothing exactly when the
    form is not accepted: a run is scheduled already, the user id is
    blank, the password is empty or the court does not exist. It schedules
    the client exactly when the form is accepted and neither the
    computation of the delay nor the start of the timer raises. It raises
    exactly what the first of these two raises, on an accepted form: the
    tables of slots and rates raise nothing. *)
Theorem schedule_reservation_outcome (pf : Gui.platform) (f : Gui.form) :
  Gui.slot_label f ∈ Gui.SLOT_OPTIONS.*1 →
  (Gui.schedule_reservation pf f = inr None ↔ ¬ accepted f)
  ∧ ((∃ argv, Gui.schedule_reservation pf f = inr (Some argv))
     ↔ accepted f ∧ Gui.delay_raises pf = None ∧ Gui.timer_raises pf = None)
  ∧ ∀ e, Gui.schedule_reservation pf f = inl e
         ↔ accepted f
           ∧ (Gui.delay_raises pf = Some e
              ∨ (Gui.delay_raises pf = None ∧ Gui.timer_raises pf = Some e)).
Proof.
  intros Hslot.
  destruct (accepted_cases f) as [[Hyes (info & code & Hs & Hu & Hp & Hinfo & Hcode)]|[Hno Hnone]].
  2: { rewrite Hnone. split_and!.
       - done.
       - split; [by intros [? [=]] | by intros [? _]].
       - intros e. split; [done | by intros [? _]]. }
  assert (Hsome : is_Some (Gui.lookup Gui.SLOT_MAP (Gui.slot_label f))).
  { unfold Gui.SLOT_MAP, Gui.SLOT_OPTIONS in *. cbn in Hslot. rewrite !elem_of_cons in Hslot.
    destruct Hslot as [->|[->|[->|[->|[->|[->|[->|[->|[]%elem_of_nil]]]]]]]]; by eexists. }
  destruct Hsome as [slot_number Hnumber].
  unfold Gui.schedule_reservation.
  rewrite Hs, Hu, Hp, Hinfo, Hcode, Hnumber, calculate_payment_amount_rate. cbn [negb orb].
  destruct (Gui.delay_raises pf) as [e1|]; [|destruct (Gui.timer_raises pf) as [e2|]].
  - split_and!.
    + split; [done | intros Hno; by destruct Hno].
    + split; [by intros [? [=]] | by intros (_ & [=] & _)].
    + intros e. split.
      * intros [= <-]. split; [done | by left].
      * by intros [_ [[= <-]|[[=] _]]].
  - split_and!.
    + split; [done | intros Hno; by destruct Hno].
    + split; [by intros [? [=]] | by intros (_ & _ & [=])].
    + intros e. split.
      * intros [= <-]. split; [done | by right].
      * by intros [_ [[=]|[_ [= <-]]]].
  - split_and!.
    + split; [done | intros Hno; by destruct Hno].
    + split; [done | intros _; by eexists].
    + intros e. split; [done | by intros [_ [[=]|[_ [=]]]]].
Qed.

Lemma schedule_reservation_outcome_witness :
  (Gui.schedule_reservation short_timer_platform evening_form = inr None
   ↔ ¬ accepted evening_form)
  ∧ ((∃ argv, Gui.schedule_reservation short_timer_platform evening_form = inr (Some argv))
     ↔ accepted evening_form ∧ Gui.delay_raises short_timer_platform = None
       ∧ Gui.timer_raises short_timer_platform = None)
  ∧ ∀ e, Gui.schedule_reservation short_timer_platform evening_form = inl e
         ↔ accepted evening_form
           ∧ (Gui.delay_raises short_timer_platform = Some e
              ∨ (Gui.delay_raises short_timer_platform = None
                 ∧ Gui.timer_raises short_timer_platform = Some e)).
Proof.
  apply schedule_reservation_outcome.
  apply list_elem_of_In. vm_compute. do 6 right. by left.
Defined.
